(** * ReAct agent loop (pratica/main.py, pratica/agent.py, pratica/config.py)

    A shallow embedding of the country-comparison agent: the text
    primitives the loop relies on (substring test, [str.strip],
    [str.split], the two [re] patterns), the [Agent] transcript, the
    Pydantic log records, and [agent_loop] itself.

    Conventions.
    - A Python [str] is a list of Unicode code points.  [str.isspace] and
      the class [\s] of [re] are the same set of code points; the letters
      of the two patterns are ASCII, and [re.IGNORECASE] lets four
      characters outside ASCII match an ASCII letter.
    - A Python [int] is a [Z].
    - The model endpoint, the two HTTP tools, the clock and the file
      system are oracles (Section variables); every call of the endpoint
      and of a tool, and every file written, is recorded in a trace.
    - [print] calls are left out: nothing in the loop reads them back. *)

From Stdlib Require Import List Ascii String ZArith NArith Lia Bool Arith.
From Stdlib Require Import DecimalString.
Import ListNotations.

Local Open Scope list_scope.

(* [String] also exports a [length]; the one meant below is on lists. *)
Abbreviation length := List.length (only parsing).

(** ** Text *)

(** A character is a Unicode code point. *)
Definition char := N.

Definition str := list char.

(** A character literal and a string literal of the source (ASCII). *)
Definition cp (a : ascii) : char := N_of_ascii a.

Abbreviation lit s := (map cp (list_ascii_of_string s)) (only parsing).

Definition eqb_str (a b : str) : bool :=
  if list_eq_dec N.eq_dec a b then true else false.

(** [str(n)] for an [int]. *)
Definition str_of_int (n : Z) : str :=
  lit (NilZero.string_of_int (Z.to_int n)).

(** [ch.isspace()], which is also the class [\s] of [re] on [str]
    patterns: TAB..CR, FS..US, SPACE, NEL, NBSP, and the Unicode spaces
    U+1680, U+2000..U+200A, U+2028, U+2029, U+202F, U+205F and U+3000. *)
Definition isspace (c : char) : bool :=
  (((9 <=? c) && (c <=? 13)) || ((28 <=? c) && (c <=? 32))
   || (c =? 133) || (c =? 160)
   || (c =? 0x1680) || ((0x2000 <=? c) && (c <=? 0x200A))
   || (c =? 0x2028) || (c =? 0x2029) || (c =? 0x202F)
   || (c =? 0x205F) || (c =? 0x3000))%N.

(** Case folding as [re.IGNORECASE] applies it where the pattern is
    ASCII: [A-Z] go to [a-z], and so do the four characters outside ASCII
    that match an ASCII letter: the dotted capital I (U+0130) and the
    dotless i (U+0131) count as [i], the long s (U+017F) as [s] and the
    Kelvin sign (U+212A) as [k].  Every other character is left alone. *)
Definition lower (c : char) : char :=
  (if (c =? 0x130) || (c =? 0x131) then cp "i"
   else if c =? 0x17F then cp "s"
   else if c =? 0x212A then cp "k"
   else if (65 <=? c) && (c <=? 90) then c + 32 else c)%N.

(** ASCII letters to upper case. *)
Definition upper (c : char) : char :=
  (if (97 <=? c) && (c <=? 122) then c - 32 else c)%N.

Definition newline : char := cp "010".

(** [s.startswith(p)] *)
Fixpoint startswith (p s : str) : bool :=
  match p, s with
  | [], _ => true
  | _ :: _, [] => false
  | a :: p', b :: s' => N.eqb a b && startswith p' s'
  end.

(** [needle in s] *)
Fixpoint contains (needle s : str) : bool :=
  startswith needle s ||
  match s with
  | [] => false
  | _ :: s' => contains needle s'
  end.

(** [s.lstrip()], [s.rstrip()], [s.strip()] *)
Fixpoint lstrip (s : str) : str :=
  match s with
  | c :: s' => if isspace c then lstrip s' else s
  | [] => []
  end.

Definition rstrip (s : str) : str := rev (lstrip (rev s)).

Definition strip (s : str) : str := rstrip (lstrip s).

(** [s.split(sep)] for a one-character separator: the fields between
    the separators, empty ones kept. *)
Fixpoint split (sep : char) (s : str) : list str :=
  match s with
  | [] => [[]]
  | c :: s' =>
      if N.eqb c sep then [] :: split sep s'
      else match split sep s' with
           | f :: fs => (c :: f) :: fs
           | [] => [[c]]
           end
  end.

(** ** The fragment of [re] used by the loop

    Both patterns of [agent_loop] are sequences of single characters,
    quantified character classes and flat capturing groups, so the engine
    covers exactly that: a backtracking matcher that explores choices in
    the order of [re] (greedy quantifiers give back one character at a
    time) and stops at the first success. *)

Record flags := { IGNORECASE : bool; DOTALL : bool }.

Inductive cset :=
| CChar (c : char)            (* a literal character *)
| CDot                         (* .  *)
| CSpace                       (* \s *)
| CRange (lo hi : char) (extra : char).     (* [lo-hi extra] *)

Inductive node :=
| One (cs : cset)              (* cs   *)
| Opt (cs : cset)              (* cs?  *)
| Star (cs : cset)             (* cs*  *)
| Plus (cs : cset)             (* cs+  *)
| GOpen                        (* (    *)
| GClose.                      (* )    *)

Definition pattern := list node.

Definition in_range (lo hi extra c : char) : bool :=
  ((lo <=? c)%N && (c <=? hi)%N) || N.eqb c extra.

(** One character against one class.  The characters and ranges of the
    patterns are ASCII; under [IGNORECASE] a character matches when its
    folding, in either letter case, does. *)
Definition cmatch (f : flags) (cs : cset) (c : char) : bool :=
  match cs with
  | CChar x => if IGNORECASE f then N.eqb (lower c) (lower x) else N.eqb c x
  | CDot => DOTALL f || negb (N.eqb c newline)
  | CSpace => isspace c
  | CRange lo hi extra =>
      if IGNORECASE f
      then in_range lo hi extra (lower c) || in_range lo hi extra (upper (lower c))
      else in_range lo hi extra c
  end.

(** The continuation of a match: the text left, the text at the last
    open parenthesis, the groups closed so far (latest first). *)
Definition cont := str -> str -> list str -> option (list str * str).

(** [cs*] followed by [k]: longest run first, then shorter ones. *)
Fixpoint star (f : flags) (cs : cset) (k : cont) (s o : str) (caps : list str)
  : option (list str * str) :=
  match s with
  | c :: s' =>
      if cmatch f cs c then
        match star f cs k s' o caps with
        | Some r => Some r
        | None => k s o caps
        end
      else k s o caps
  | [] => k s o caps
  end.

(** Match [p] at the start of [s]: the groups, in order, and the text
    after the match. *)
Fixpoint exec (f : flags) (p : pattern) : cont :=
  match p with
  | [] => fun s _ caps => Some (rev caps, s)
  | One cs :: p' => fun s o caps =>
      match s with
      | c :: s' => if cmatch f cs c then exec f p' s' o caps else None
      | [] => None
      end
  | Opt cs :: p' => fun s o caps =>
      match s with
      | c :: s' =>
          if cmatch f cs c then
            match exec f p' s' o caps with
            | Some r => Some r
            | None => exec f p' s o caps
            end
          else exec f p' s o caps
      | [] => exec f p' s o caps
      end
  | Star cs :: p' => star f cs (exec f p')
  | Plus cs :: p' => fun s o caps =>
      match s with
      | c :: s' => if cmatch f cs c then star f cs (exec f p') s' o caps else None
      | [] => None
      end
  | GOpen :: p' => fun s _ caps => exec f p' s s caps
  | GClose :: p' => fun s o caps =>
      exec f p' s o (firstn (length o - length s) o :: caps)
  end.

Definition match_at (f : flags) (p : pattern) (s : str) : option (list str * str) :=
  exec f p s [] [].

(** [re.search(p, s, f)]: the match at the leftmost position that has
    one. *)
Fixpoint search (f : flags) (p : pattern) (s : str) : option (list str * str) :=
  match match_at f p s with
  | Some r => Some r
  | None =>
      match s with
      | [] => None
      | _ :: s' => search f p s'
      end
  end.

(** [re.findall(p, s, f)]: the groups of the successive non-overlapping
    matches, left to right.  After an empty match the scan moves one
    character on.  [n] bounds the number of matches; [length s + 1] is
    enough. *)
Fixpoint findall_from (n : nat) (f : flags) (p : pattern) (s : str) : list (list str) :=
  match n with
  | O => []
  | S n' =>
      match search f p s with
      | None => []
      | Some (groups, rest) =>
          groups ::
          (if length rest <? length s then findall_from n' f p rest
           else match rest with
                | [] => []
                | _ :: rest' => findall_from n' f p rest'
                end)
      end
  end.

Definition findall (f : flags) (p : pattern) (s : str) : list (list str) :=
  findall_from (S (length s)) f p s.

(** A literal word as a pattern. *)
Definition word (w : str) : pattern := map (fun c => One (CChar c)) w.

(** [r"Answer:?\s*(.+)"]: the word, then [:?\s*(.+)]. *)
Definition ANSWER_TAIL : pattern :=
  [Opt (CChar (cp ":")); Star CSpace; GOpen; Plus CDot; GClose].

Definition ANSWER_RE : pattern := word (lit "Answer") ++ ANSWER_TAIL.

(** [r"Action:\s*([a-z_]+):\s*(.+)"]: the word, then
    [\s*([a-z_]+):\s*(.+)]. *)
Definition ACTION_TAIL : pattern :=
  [Star CSpace; GOpen; Plus (CRange (cp "a") (cp "z") (cp "_")); GClose;
   One (CChar (cp ":")); Star CSpace; GOpen; Plus CDot; GClose].

Definition ACTION_RE : pattern := word (lit "Action:") ++ ACTION_TAIL.

Definition nl : str := [newline].

Definition RE_ANSWER_FLAGS : flags := {| IGNORECASE := true; DOTALL := true |}.
Definition RE_ACTION_FLAGS : flags := {| IGNORECASE := true; DOTALL := false |}.

(** ** config.py *)

(** [numero] is the integer typed at the configuration prompt
    ([int(input(...))]); the module then clamps it from below. *)
Definition MAX_ITERATIONS (numero : Z) : Z :=
  if (numero >=? 5)%Z then numero else 5%Z.

Definition SYSTEM_PROMPT (numero : Z) : str :=
  lit "You are a country comparison assistant." ++ nl ++ nl ++
  lit "LIMIT: You have a maximum of " ++ str_of_int (MAX_ITERATIONS numero) ++
  lit " iterations. Plan ahead." ++ nl ++ nl ++
  lit "LANGUAGE RULE (critical):" ++ nl ++
  lit "After calling get_country_info for the origin country, check the Language field." ++ nl ++
  lit "Write your entire Answer in that language, regardless of how the user typed the country name." ++ nl ++ nl ++
  lit "AVAILABLE TOOLS:" ++ nl ++
  lit "get_country_info: <country_name_in_english>" ++ nl ++
  lit "    returns: capital, population, language, currency (code), timezone (UTC offset), area" ++ nl ++
  lit "convert_currency: <from_code>, <to_code>" ++ nl ++ nl ++
  lit "TIMEZONE (always manual, no tool needed):" ++ nl ++
  lit "Use the Timezone field from get_country_info for each country." ++ nl ++
  lit "Formula: destination_offset - origin_offset = difference in hours" ++ nl ++
  lit "Example: UTC+01:00 and UTC-03:00 -> (+1) - (-3) = +4h" ++ nl ++ nl ++
  lit "REACT LOOP:" ++ nl ++
  lit "Thought: reasoning" ++ nl ++
  lit "Action: <tool>: <argument>" ++ nl ++
  lit "PAUSE" ++ nl ++ nl ++
  lit "After each Observation, continue with Thought or finalize with Answer." ++ nl ++ nl ++
  lit "CRITICAL RULES:" ++ nl ++
  lit "1. Never repeat the same tool call" ++ nl ++
  lit "2. Always call tools with country names in English" ++ nl ++
  lit "3. On the last iteration, MUST output Answer with available data" ++ nl ++
  lit "4. Always calculate timezone manually from get_country_info offsets" ++ nl ++ nl ++
  lit "MANDATORY ANSWER FORMAT (in the origin country language):" ++ nl ++
  lit "Answer: <Country1> vs <Country2>" ++ nl ++ nl ++
  lit "Currency: 1 <Currency1> = X.XX <Currency2> (or unavailable)" ++ nl ++
  lit "Time: When it is 12:00 in <Capital1>, it is XX:00 in <Capital2> (X hours ahead/behind)" ++ nl ++
  lit "Comparison:" ++ nl ++
  lit "- Area: <Country2> is Xx larger/smaller (<XXK km2> vs <XXK km2>)" ++ nl ++
  lit "- Population: <Country1/2> has Xx more people (<XXM> vs <XXM>)" ++ nl ++
  lit "- Capitals: <Capital1> vs <Capital2>" ++ nl ++
  lit "- Languages: <Language1> vs <Language2>" ++ nl ++ nl ++
  lit "If data is missing, state it clearly in the Answer.".

(** ** agent.py: records *)

Inductive papel := system_role | user_role | assistant_role.

Record message := { role : papel; content : str }.

Record AgentIteration := {
  numero : Z;
  resposta_llm : str;
  ferramenta_chamada : option str;
  argumento : option str;
  resultado_ferramenta : option str }.

Record AgentLog := {
  timestamp : str;
  pais_origem : str;
  pais_destino : str;
  max_iteracoes : Z;
  iteracoes_utilizadas : Z;
  iteracoes : list AgentIteration;
  resposta_final : str;
  sucesso : bool }.

(** [AgentLog(timestamp=..., pais_origem=..., pais_destino=...,
    max_iteracoes=...)]: the other fields take their defaults. *)
Definition AgentLog_new (ts origem destino : str) (max_iterations : Z) : AgentLog :=
  {| timestamp := ts; pais_origem := origem; pais_destino := destino;
     max_iteracoes := max_iterations; iteracoes_utilizadas := 0;
     iteracoes := []; resposta_final := []; sucesso := false |}.

Definition log_append (l : AgentLog) (r : AgentIteration) : AgentLog :=
  {| timestamp := timestamp l; pais_origem := pais_origem l;
     pais_destino := pais_destino l; max_iteracoes := max_iteracoes l;
     iteracoes_utilizadas := iteracoes_utilizadas l;
     iteracoes := iteracoes l ++ [r];
     resposta_final := resposta_final l; sucesso := sucesso l |}.

Definition log_set_sucesso (l : AgentLog) (b : bool) : AgentLog :=
  {| timestamp := timestamp l; pais_origem := pais_origem l;
     pais_destino := pais_destino l; max_iteracoes := max_iteracoes l;
     iteracoes_utilizadas := iteracoes_utilizadas l;
     iteracoes := iteracoes l;
     resposta_final := resposta_final l; sucesso := b |}.

Definition log_finalizar (l : AgentLog) (final : str) : AgentLog :=
  {| timestamp := timestamp l; pais_origem := pais_origem l;
     pais_destino := pais_destino l; max_iteracoes := max_iteracoes l;
     iteracoes_utilizadas := Z.of_nat (length (iteracoes l));
     iteracoes := iteracoes l;
     resposta_final := final; sucesso := sucesso l |}.

(** What leaves the process. *)
Inductive excecao := Erro (detalhe : str).

Inductive llm_result :=
| Resposta (texto : str)          (* the completion's text *)
| Falha (e : excecao).            (* the endpoint call raised *)

Inductive tool_result :=
| Retorna (texto : str)
| Levanta (detalhe : str).        (* raised; [detalhe] is [str(e)] *)

Inductive evento :=
| EvLLM (transcript : list message)      (* one call of the endpoint *)
| EvTool (nome : str) (args : list str)  (* one call of a registered tool *)
| EvWrite (path : str) (l : AgentLog).   (* one file written from the log *)

(** The keys of [FERRAMENTAS]. *)
Inductive ferramenta := Tool_get_country_info | Tool_convert_currency.

Definition FERRAMENTAS : list (str * ferramenta) :=
  [ (lit "get_country_info", Tool_get_country_info);
    (lit "convert_currency", Tool_convert_currency) ].

Fixpoint registry_get (nome : str) (reg : list (str * ferramenta)) : option ferramenta :=
  match reg with
  | [] => None
  | (k, t) :: reg' => if eqb_str nome k then Some t else registry_get nome reg'
  end.

Definition user_msg (s : str) : message := {| role := user_role; content := s |}.
Definition assistant_msg (s : str) : message := {| role := assistant_role; content := s |}.
Definition system_msg (s : str) : message := {| role := system_role; content := s |}.

Record Agent := { system : str; messages : list message }.

Definition truthy (s : str) : bool :=
  match s with [] => false | _ => true end.

(** [Agent.__init__] *)
Definition Agent_init (sys : str) : Agent :=
  {| system := sys;
     messages := if truthy sys
                 then [system_msg sys]
                 else [] |}.

(** The state [agent_loop] threads through its iterations, and the trace
    of calls that left the process. *)
Record estado := {
  agente : Agent;
  log : AgentLog;
  proximo_prompt : str;
  resultado_final : str;
  eventos : list evento }.

Inductive passo :=
| Continua (st : estado)               (* falls through or [continue] *)
| Interrompe (st : estado)             (* [break] *)
| Excecao (e : excecao) (st : estado). (* an exception leaves the body *)

(** How a call of [agent_loop] ends.  Both exceptions reach the caller;
    they are told apart by the line they come from. *)
Inductive saida :=
| Retornou (texto : str)
| Levantou (e : excecao)       (* raised by the endpoint call (main.py 70) *)
| FalhouLog (e : excecao).     (* raised by [_salvar_log] (main.py 148) *)

Definition ERRO_NAO_ENCONTRADA : str := lit "ERROR: ferramenta nao encontrada".
Definition ERRO_ARGUMENTOS : str := lit "ERROR: convert_currency requer 2 argumentos".


Definition is_llm_call (e : evento) : bool :=
  match e with EvLLM _ => true | _ => false end.

Definition is_tool_call (e : evento) : bool :=
  match e with EvTool _ _ => true | _ => false end.

Definition is_write (e : evento) : bool :=
  match e with EvWrite _ _ => true | _ => false end.

(** The record of an iteration that called no tool. *)
Definition registro_simples (i : Z) (resposta : str) : AgentIteration :=
  {| numero := i; resposta_llm := resposta; ferramenta_chamada := None;
     argumento := None; resultado_ferramenta := None |}.

Section Loop.

(** The outside world. *)
Variable llm : list message -> llm_result.             (* [Agent._executar] *)
Variable get_country_info : str -> tool_result.
Variable convert_currency : str -> str -> tool_result.
Variable now : str.      (* [datetime.now().strftime(...)] *)

(** One [with open(path, "w", encoding="utf-8")] block of [_salvar_log]:
    the file is opened and the rendering of the log written to it.
    [Some e] when the block raised [e] ([open] refused the path, the
    rendering or the write failed). *)
Variable gravar : str -> AgentLog -> option excecao.

(** [Agent.__call__]: the new agent, what [_executar] gave, and the
    transcript it was called with. *)
Definition Agent_call (a : Agent) (msg : str) : Agent * llm_result * list message :=
  let sent :=
    if truthy msg
    then messages a ++ [user_msg msg]
    else messages a in
  match llm sent with
  | Resposta r =>
      ({| system := system a;
          messages := sent ++ [assistant_msg r] |},
       Resposta r, sent)
  | Falha e => ({| system := system a; messages := sent |}, Falha e, sent)
  end.

(** Calling the registry entry [FERRAMENTAS[nome]] on the list [args]. *)
Definition chamar (t : ferramenta) (args : list str) : tool_result :=
  match t, args with
  | Tool_get_country_info, [a] => get_country_info a
  | Tool_convert_currency, [a; b] => convert_currency a b
  | _, _ => Levanta (lit "TypeError")   (* wrong arity: the loop never does it *)
  end.

(** The [try]/[except Exception] around a tool call (main.py 113-126). *)
Definition observar (r : tool_result) : str :=
  match r with
  | Retorna s => s
  | Levanta d => lit "ERROR: " ++ d
  end.

(** The dispatch block of the loop body (main.py 112-128): the
    observation and the tool calls made. *)
Definition despachar (nome_ferramenta argumento_ : str) : str * list evento :=
  match registry_get nome_ferramenta FERRAMENTAS with
  | Some t =>
      if eqb_str nome_ferramenta (lit "convert_currency") then
        let args := map strip (split (cp ",") argumento_) in
        if (length args =? 2)%nat
        then (observar (chamar t args), [EvTool nome_ferramenta args])
        else (ERRO_ARGUMENTOS, [])
      else (observar (chamar t [argumento_]), [EvTool nome_ferramenta [argumento_]])
  | None => (ERRO_NAO_ENCONTRADA, [])
  end.

(** The prompt sent at iteration [i] (main.py 61-66). *)
Definition prompt_da_iteracao (max_iterations i : Z) (prompt : str) : str :=
  if (i =? max_iterations)%Z then
    prompt ++ nl ++ nl ++
    lit "ATENCAO: Esta e sua ultima iteracao (" ++ str_of_int i ++ lit "/" ++
    str_of_int max_iterations ++ lit "). " ++
    lit "Finalize AGORA com Answer usando os dados ja coletados."
  else prompt.

(** The final answer taken from a response with the marker
    (main.py 86-87). *)
Definition extrair_answer (resposta : str) : str :=
  match search RE_ANSWER_FLAGS ANSWER_RE resposta with
  | Some (groups, _) => strip (nth 0 groups [])
  | None => resposta
  end.

(** One pass through the body of the [for] (main.py 57-140). *)
Definition iteracao (max_iterations i : Z) (st : estado) : passo :=
  let prompt := prompt_da_iteracao max_iterations i (proximo_prompt st) in
  match Agent_call (agente st) prompt with
  | (ag, Falha e, sent) =>
      Excecao e
        {| agente := ag; log := log st; proximo_prompt := prompt;
           resultado_final := resultado_final st;
           eventos := eventos st ++ [EvLLM sent] |}
  | (ag, Resposta resposta, sent) =>
      let ev := eventos st ++ [EvLLM sent] in
      let registro := registro_simples i resposta in
      if contains (lit "Answer") resposta then
        Interrompe
          {| agente := ag;
             log := log_append (log_set_sucesso (log st) true) registro;
             proximo_prompt := prompt;
             resultado_final := extrair_answer resposta;
             eventos := ev |}
      else
        let raciocinio :=
          Continua
            {| agente := ag; log := log_append (log st) registro;
               proximo_prompt := prompt;
               resultado_final := resultado_final st; eventos := ev |} in
        if contains (lit "PAUSE") resposta && contains (lit "Action") resposta then
          match findall RE_ACTION_FLAGS ACTION_RE resposta with
          | m :: _ =>
              let nome_ferramenta := strip (nth 0 m []) in
              let argumento_ := strip (nth 1 m []) in
              let (resultado, chamadas) := despachar nome_ferramenta argumento_ in
              Continua
                {| agente := ag;
                   log := log_append (log st)
                     {| numero := i; resposta_llm := resposta;
                        ferramenta_chamada := Some nome_ferramenta;
                        argumento := Some argumento_;
                        resultado_ferramenta := Some resultado |};
                   proximo_prompt := lit "Observation: " ++ resultado;
                   resultado_final := resultado_final st;
                   eventos := ev ++ chamadas |}
          | [] => raciocinio
          end
        else raciocinio
  end.

(** The [for i in range(1, max_iterations + 1)] with [n] passes left,
    the next one numbered [i]. *)
Fixpoint laco (max_iterations : Z) (n : nat) (i : Z) (st : estado)
  : estado * option excecao :=
  match n with
  | O => (st, None)
  | S n' =>
      match iteracao max_iterations i st with
      | Continua st' => laco max_iterations n' (i + 1)%Z st'
      | Interrompe st' => (st', None)
      | Excecao e st' => (st', Some e)
      end
  end.

(** What one pass can do, case by case, seen from outside. *)
Definition enviado (max_iterations i : Z) (st : estado) : list message :=
  messages (agente st) ++
  [user_msg (prompt_da_iteracao max_iterations i (proximo_prompt st))].

Inductive passo_spec (max_iterations i : Z) (st : estado) : passo -> Prop :=
| PS_falha e st' :
    llm (enviado max_iterations i st) = Falha e ->
    messages (agente st') = enviado max_iterations i st ->
    log st' = log st ->
    resultado_final st' = resultado_final st ->
    eventos st' = eventos st ++ [EvLLM (enviado max_iterations i st)] ->
    passo_spec max_iterations i st (Excecao e st')
| PS_answer r st' :
    llm (enviado max_iterations i st) = Resposta r ->
    contains (lit "Answer") r = true ->
    messages (agente st') = enviado max_iterations i st ++ [assistant_msg r] ->
    log st' = log_append (log_set_sucesso (log st) true) (registro_simples i r) ->
    resultado_final st' = extrair_answer r ->
    eventos st' = eventos st ++ [EvLLM (enviado max_iterations i st)] ->
    passo_spec max_iterations i st (Interrompe st')
| PS_continua r reg chamadas st' :
    llm (enviado max_iterations i st) = Resposta r ->
    contains (lit "Answer") r = false ->
    messages (agente st') = enviado max_iterations i st ++ [assistant_msg r] ->
    log st' = log_append (log st) reg ->
    numero reg = i ->
    resposta_llm reg = r ->
    resultado_final st' = resultado_final st ->
    eventos st' = eventos st ++ EvLLM (enviado max_iterations i st) :: chamadas ->
    forallb is_tool_call chamadas = true ->
    truthy (proximo_prompt st') = true ->
    passo_spec max_iterations i st (Continua st').

(** [_salvar_log]: two files rendered from the same log object, the
    JSON one first.  An exception of either block leaves [_salvar_log] at
    once, so a failure on the first file means the second is not tried.
    The result is that exception, if any, and the files written.  What is
    written is kept as the log value itself; its rendering (Pydantic's
    [model_dump_json] and the text layout) adds nothing the loop reads. *)
Definition _salvar_log (l : AgentLog) (nome_base : str)
  : option excecao * list evento :=
  match gravar (nome_base ++ lit ".json") l with
  | Some e => (Some e, [])
  | None =>
      match gravar (nome_base ++ lit ".txt") l with
      | Some e => (Some e, [EvWrite (nome_base ++ lit ".json") l])
      | None =>
          (None, [EvWrite (nome_base ++ lit ".json") l;
                  EvWrite (nome_base ++ lit ".txt") l])
      end
  end.

(** The end of [agent_loop] once the loop is over (main.py 148-158). *)
Definition desfecho (falha : option excecao) (final : str) : saida :=
  match falha with
  | None => Retornou final
  | Some e => FalhouLog e
  end.

Definition estado_inicial (sys origem destino : str) (max_iterations : Z) : estado :=
  {| agente := Agent_init sys;
     log := AgentLog_new now origem destino max_iterations;
     proximo_prompt := lit "Estou em " ++ origem ++ lit ", me fale sobre " ++ destino;
     resultado_final := [];
     eventos := [] |}.

(** [agent_loop] with the system prompt as an argument. *)
Definition agent_loop_with (sys origem destino : str) (max_iterations : Z)
           (log_file : str) : saida * estado :=
  match laco max_iterations (Z.to_nat max_iterations) 1%Z
             (estado_inicial sys origem destino max_iterations) with
  | (st, Some e) => (Levantou e, st)
  | (st, None) =>
      let l := log_finalizar (log st) (resultado_final st) in
      (desfecho (fst (_salvar_log l log_file)) (resultado_final st),
       {| agente := agente st; log := l; proximo_prompt := proximo_prompt st;
          resultado_final := resultado_final st;
          eventos := eventos st ++ snd (_salvar_log l log_file) |})
  end.

(** The configuration read at import time. *)
Variable numero_lido : Z.

Definition agent_loop (origem destino : str) (max_iterations : Z) (log_file : str)
  : saida * estado :=
  agent_loop_with (SYSTEM_PROMPT numero_lido) origem destino max_iterations log_file.

(** The [__main__] block, after the two [input(...).strip()]. *)
Definition main (origem destino : str) : saida * estado :=
  let nome_log :=
    map (fun c => if N.eqb c (cp " ") then (cp "_") else c)
        (lit "log_" ++ origem ++ lit "_" ++ destino) in
  agent_loop origem destino (MAX_ITERATIONS numero_lido) nome_log.

End Loop.

(** ** Stand-ins for the outside world, for the worked runs *)

Definition conta_assistant (msgs : list message) : nat :=
  length (filter (fun m => match role m with assistant_role => true | _ => false end) msgs).

(** A scripted endpoint: the [k]-th call gets the [k]-th entry. *)
Definition llm_roteiro (rs : list llm_result) (msgs : list message) : llm_result :=
  nth (conta_assistant msgs) rs (Resposta (lit "Thought: nothing more")).

Definition gci_fixo (pais : str) : tool_result :=
  Retorna (lit "Country: " ++ pais).

Definition cc_fixo (de para : str) : tool_result :=
  Retorna (lit "1 " ++ de ++ lit " = 5.0000 " ++ para).

(** A file system that takes every file, one that takes none, and one
    that takes all but the text files. *)
Definition gravar_ok (path : str) (l : AgentLog) : option excecao := None.

Definition gravar_falha (path : str) (l : AgentLog) : option excecao :=
  Some (Erro (lit "No such file or directory")).


(** A run to work the statements on: a short system prompt, Brasil and
    Japao, a budget of 5. *)
Definition agora : str := lit "2026-01-01 12:00:00".
Definition sys0 : str := lit "You are a country comparison assistant.".
Definition estado0 : estado := estado_inicial agora sys0 (lit "Brasil") (lit "Japao") 5.

Definition r_thought : str := lit "Thought: I should look both countries up.".

(** An Action block and an Answer in the same turn. *)
Definition r_mista : str :=
  lit "Thought: done" ++ nl ++ lit "Action: get_country_info: Japan" ++ nl ++
  lit "PAUSE" ++ nl ++ lit "Answer: Brasil vs Japao".

(** The marker in lower case only, next to an Action block. *)
Definition r_minuscula : str :=
  lit "Action: get_country_info: Brazil" ++ nl ++ lit "PAUSE" ++ nl ++
  lit "answer: done".

Definition r_desconhecida : str :=
  lit "Action: lookup_tool: Brazil" ++ nl ++ lit "PAUSE".

(** Two Action lines; the first is padded with blanks. *)
Definition r_duas_actions : str :=
  lit "Thought: need data" ++ nl ++ lit "Action: get_country_info:  Japan " ++ nl ++
  lit "PAUSE" ++ nl ++ lit "Action: convert_currency: BRL, JPY".

(** An upper-case tool name on the line before a lower-case one. *)
Definition r_maiuscula : str :=
  lit "Action: FOO: x" ++ nl ++ lit "Action: bar: y" ++ nl ++ lit "PAUSE".

Definition r_answer : str :=
  lit "Thought: all set" ++ nl ++ lit "Answer:  Brasil vs Japao " ++ nl.

(** Scripts for whole runs. *)
Definition roteiro_completo : list llm_result :=
  [Resposta r_thought; Resposta r_duas_actions; Resposta r_answer].

Definition roteiro_falha : list llm_result :=
  [Resposta r_thought; Falha (Erro (lit "timeout"))].

(** The transcript of the second call when the first turn was
    [r_thought]: the prompt is repeated unchanged. *)
Definition transcript_segunda : list message :=
  [system_msg sys0; user_msg (proximo_prompt estado0); assistant_msg r_thought;
   user_msg (proximo_prompt estado0)].

(** The first call of the endpoint in the run above. *)
Definition chamada0 (llm : list message -> llm_result) :=
  Agent_call llm (agente estado0) (prompt_da_iteracao 5 1 (proximo_prompt estado0)).

(** [needle] occurs in [s] in some letter case, as [re.IGNORECASE] reads
    it. *)
Definition contains_ci (needle s : str) : bool :=
  contains (map lower needle) (map lower s).


(** A transcript tail made of completed turns: the prompt sent, then the
    response. *)
Fixpoint dialogo (turnos : list (str * str)) : list message :=
  match turnos with
  | [] => []
  | (u, a) :: t => user_msg u :: assistant_msg a :: dialogo t
  end.

(** ** Reading the two patterns without the engine *)

(** [s] starts with [w] in some letter case, as [re.IGNORECASE] reads
    it: the text after it. *)
Fixpoint strip_prefix_ci (w s : str) : option str :=
  match w, s with
  | [], _ => Some s
  | _ :: _, [] => None
  | a :: w', b :: s' =>
      if N.eqb (lower b) (lower a) then strip_prefix_ci w' s' else None
  end.

(** The text after the first occurrence of [w] in any letter case. *)
Fixpoint after_first_ci (w s : str) : option str :=
  match strip_prefix_ci w s with
  | Some t => Some t
  | None =>
      match s with
      | [] => None
      | _ :: s' => after_first_ci w s'
      end
  end.

(** An optional colon skipped. *)
Definition drop_colon (t : str) : str :=
  match t with
  | c :: t' => if N.eqb c (cp ":") then t' else t
  | [] => []
  end.

(** The final answer in the words of the specification: what follows
    the first [Answer] (any letter case), an optional colon and
    whitespace, trimmed; the raw text where the pattern finds nothing. *)
Definition answer_as_specified (raw : str) : str :=
  match search RE_ANSWER_FLAGS ANSWER_RE raw, after_first_ci (lit "Answer") raw with
  | Some _, Some t => strip (drop_colon t)
  | _, _ => raw
  end.

(** A letter of either case, or an underscore; with the letters go the
    four characters that [re.IGNORECASE] takes for one (see [lower]). *)
Definition letra_ou_sublinhado (c : char) : bool :=
  (((65 <=? c) && (c <=? 90)) || ((97 <=? c) && (c <=? 122)) || (c =? 95)
   || (c =? 0x130) || (c =? 0x131) || (c =? 0x17F) || (c =? 0x212A))%N.

Definition nao_newline (c : char) : bool := negb (N.eqb c newline).

(** [r] holds, right after [pre], the text [Action:] (any letter
    case), whitespace, the name [nome] made of letters and underscores, a
    colon, whitespace, and [arg] running to the end of its line. *)
Definition action_em (r pre nome arg : str) : Prop :=
  exists ac ws1 ws2 rest,
    r = pre ++ ac ++ ws1 ++ nome ++ (cp ":") :: ws2 ++ arg ++ rest /\
    map lower ac = lit "action:" /\
    forallb isspace ws1 = true /\
    nome <> [] /\ forallb letra_ou_sublinhado nome = true /\
    forallb isspace ws2 = true /\
    arg <> [] /\ forallb nao_newline arg = true /\ lstrip arg = arg /\
    (rest = [] \/ exists rest', rest = newline :: rest').

(** No match of [p] starts at any of the first [n] positions of [s]. *)
Definition sem_match_antes (f : flags) (p : pattern) (s : str) (n : nat) : bool :=
  forallb (fun k => match match_at f p (skipn k s) with
                    | None => true
                    | Some _ => false
                    end) (seq 0 n).

(** The Action line in the words of the specification: the first line
    of the turn that holds [Action: <tool_name>: <argument>] with a
    lowercase-letters-and-underscore tool name. *)
Definition RE_LOWERCASE_ONLY : flags := {| IGNORECASE := false; DOTALL := false |}.

Fixpoint first_some {A B : Type} (g : A -> option B) (l : list A) : option B :=
  match l with
  | [] => None
  | x :: l' => match g x with Some y => Some y | None => first_some g l' end
  end.

Definition action_as_specified (raw : str) : option (str * str) :=
  first_some
    (fun line =>
       match search RE_LOWERCASE_ONLY ACTION_RE line with
       | Some (groups, _) => Some (strip (nth 0 groups []), strip (nth 1 groups []))
       | None => None
       end)
    (split newline raw).

(** Every character the definitions above single out lies below this
    bound. *)
Definition LIMITE : N := 0x3001.

(** The [n] code points from [c] on. *)
Fixpoint codigos (n : nat) (c : char) : list char :=
  match n with
  | O => []
  | S n' => c :: codigos n' (N.succ c)
  end.

(** The record of a response without the marker. *)
Definition sem_answer (r : AgentIteration) : Prop :=
  contains (lit "Answer") (resposta_llm r) = false.

(** ** agent.py: the two tools

    The tools talk to two HTTP services and format what comes back.  The
    request itself ([requests.get], [raise_for_status], [.json()]) is an
    oracle; so are the renderings Python makes of numbers and of
    exceptions, which involve floating point or library text.  Everything
    between the request and the returned string is modelled: the
    normalisation of the arguments, the URLs, the accesses to the decoded
    JSON, the exceptions they raise and where they are caught. *)

(** A code point below 256. *)
Definition latin1 (c : char) : bool := (c <? 256)%N.

(** [ch.lower()] below 256: A-Z and the accented capitals (all but the
    multiplication sign) move up by 32. *)
Definition lower_char (c : char) : char :=
  (if ((65 <=? c) && (c <=? 90)) || ((192 <=? c) && (c <=? 222) && negb (c =? 215))
   then c + 32 else c)%N.

(** [ch.upper()] below 256: a-z and the accented small letters (all but
    the division sign) move down by 32, the sharp s becomes [SS], the
    micro sign becomes the Greek capital mu (U+039C) and y with diaeresis
    its capital (U+0178). *)
Definition upper_char (c : char) : str :=
  (if ((97 <=? c) && (c <=? 122)) || ((224 <=? c) && (c <=? 254) && negb (c =? 247))
   then [c - 32]
   else if c =? 223 then lit "SS"
   else if c =? 181 then [0x39C]
   else if c =? 255 then [0x178]
   else [c])%N.

(** [s.lower()] and [s.upper()].  On a string of code points below 256
    Python works character by character, as the two tables say; the case
    mappings of the rest of Unicode are left to the oracles [py_lower]
    and [py_upper]. *)
Definition str_lower (py_lower : str -> str) (s : str) : str :=
  if forallb latin1 s then map lower_char s else py_lower s.

Definition str_upper (py_upper : str -> str) (s : str) : str :=
  if forallb latin1 s then flat_map upper_char s else py_upper s.

(** A code point below 256 whose capital is below 256 too. *)
Definition upper_no_modelo (c : char) : bool :=
  latin1 c && negb ((c =? 181)%N || (c =? 255)%N).

(** No whitespace at the left end. *)
Definition borda_esq (s : str) : bool :=
  match s with
  | [] => true
  | c :: _ => negb (isspace c)
  end.

(** Trimmed: no whitespace at either end. *)
Definition aparado (t : str) : Prop :=
  borda_esq t = true /\ borda_esq (rev t) = true.

Section Ferramentas.

(** A JSON number as Python holds it, an [int] or a [float]. *)
Variable numero : Type.

(** A decoded JSON value.  A dict keeps its items in order; its keys are
    distinct. *)
#[local] Unset Elimination Schemes.
Inductive json :=
| JNull
| JBool (b : bool)
| JNum (n : numero)
| JStr (s : str)
| JList (l : list json)
| JDict (d : list (str * json)).

(** The exceptions the tools can meet, with what raised them. *)
Inductive erro_py :=
| ErroHTTP (detalhe : str)     (* the request raised; [detalhe] is [str(e)] *)
| ErroValidacao (j : json)     (* pydantic ValidationError for the input [j] *)
| ErroChave (k : str)          (* KeyError(k) *)
| ErroChaveZero                (* KeyError(0): a dict indexed with 0 *)
| ErroIndice (j : json)        (* IndexError: [j[0]] on an empty list or str *)
| ErroSubscrito (j : json)     (* TypeError: [j] cannot be indexed that way *)
| ErroAtributo (j : json) (attr : str)       (* AttributeError *)
| ErroFormato (spec : str) (j : json)        (* [format(j, spec)] raised *)
| ErroJoin (j : json).         (* TypeError: [str.join] met a non-str item *)
#[local] Set Elimination Schemes.

Inductive resultado (A : Type) :=
| Ok (a : A)
| Raise (e : erro_py).

Arguments Ok {A} a.
Arguments Raise {A} e.

Definition bind {A B : Type} (r : resultado A) (k : A -> resultado B) : resultado B :=
  match r with
  | Ok a => k a
  | Raise e => Raise e
  end.

Variable numero_zero : numero -> bool.    (* [n == 0] *)
Variable fmt_milhar : numero -> str.      (* [f"{n:,}"] *)

(** The two specs that go through a float: [None] is the [OverflowError]
    of an [int] too large for one. *)
Variable fmt_4f : numero -> option str.   (* [f"{n:.4f}"] *)
Variable fmt_area : numero -> option str. (* [f"{n:,.0f}"] *)
Variable py_str : json -> str.            (* [str(v)] of a value that is not a str *)
Variable str_erro : erro_py -> str.       (* [str(e)] of an exception Python built *)

(** The request: [requests.get(url, timeout=10)], [raise_for_status()],
    [.json()]. *)
Variable http_json : str -> resultado json.

(** [s.lower()] and [s.upper()] beyond code point 255. *)
Variable py_lower : str -> str.
Variable py_upper : str -> str.

(** [str(e)] *)
Definition texto_erro (e : erro_py) : str :=
  match e with
  | ErroHTTP d => d
  | _ => str_erro e
  end.

(** [d[k]] / [d.get(k)] on a dict. *)
Fixpoint dict_get (k : str) (d : list (str * json)) : option json :=
  match d with
  | [] => None
  | (k', v) :: d' => if eqb_str k k' then Some v else dict_get k d'
  end.

(** [bool(v)] *)
Definition truthy_json (v : json) : bool :=
  match v with
  | JNull => false
  | JBool b => b
  | JNum n => negb (numero_zero n)
  | JStr s => truthy s
  | JList l => match l with [] => false | _ => true end
  | JDict d => match d with [] => false | _ => true end
  end.

(** [v == 0] *)
Definition igual_zero (v : json) : bool :=
  match v with
  | JNum n => numero_zero n
  | JBool b => negb b
  | _ => false
  end.

(** [f"{v}"] *)
Definition fstr (v : json) : str :=
  match v with
  | JStr s => s
  | _ => py_str v
  end.

(** [v[0]] *)
Definition index0 (v : json) : resultado json :=
  match v with
  | JList (x :: _) => Ok x
  | JStr (c :: _) => Ok (JStr [c])
  | JList [] | JStr [] => Raise (ErroIndice v)
  | JDict _ => Raise ErroChaveZero
  | _ => Raise (ErroSubscrito v)
  end.

(** [v[k]] for a str key [k] *)
Definition subscrito (v : json) (k : str) : resultado json :=
  match v with
  | JDict d => match dict_get k d with
               | Some x => Ok x
               | None => Raise (ErroChave k)
               end
  | _ => Raise (ErroSubscrito v)
  end.

(** [v.get(k, padrao)] *)
Definition metodo_get (v : json) (k : str) (padrao : json) : resultado json :=
  match v with
  | JDict d => Ok (match dict_get k d with Some x => x | None => padrao end)
  | _ => Raise (ErroAtributo v (lit "get"))
  end.

(** [format(v, spec)] for the three numeric specs of the tools: numbers
    go to the oracle, a bool counts as 1 or 0, the rest raise. *)
Definition formatar_numero (spec : str) (fmt : numero -> option str)
           (um zero : str) (v : json) : resultado str :=
  match v with
  | JNum n => match fmt n with
              | Some s => Ok s
              | None => Raise (ErroFormato spec v)
              end
  | JBool true => Ok um
  | JBool false => Ok zero
  | _ => Raise (ErroFormato spec v)
  end.

(** *** [CurrencyResponse] and [convert_currency] *)

(** [CurrencyResponse.model_validate(j)]: a dict with a str [date] and a
    dict [rates]; other keys are ignored. *)
Definition CurrencyResponse_model_validate (j : json)
  : resultado (str * list (str * json)) :=
  match j with
  | JDict d =>
      match dict_get (lit "date") d, dict_get (lit "rates") d with
      | Some (JStr dt), Some (JDict rs) => Ok (dt, rs)
      | _, _ => Raise (ErroValidacao j)
      end
  | _ => Raise (ErroValidacao j)
  end.

Definition url_cambio (from_code to_code : str) : str :=
  lit "https://api.frankfurter.dev/v1/latest?base=" ++ from_code ++
  lit "&symbols=" ++ to_code.

(** The body of the [try] of [convert_currency], on normalised codes. *)
Definition converter (from_code to_code : str) : resultado str :=
  bind (http_json (url_cambio from_code to_code)) (fun j =>
  bind (CurrencyResponse_model_validate j) (fun dados =>
  bind (match dict_get to_code (snd dados) with
        | Some taxa => Ok taxa
        | None => Raise (ErroChave to_code)
        end) (fun taxa =>
  bind (formatar_numero (lit ".4f") fmt_4f (lit "1.0000") (lit "0.0000") taxa) (fun t =>
  Ok (lit "1 " ++ from_code ++ lit " = " ++ t ++ lit " " ++ to_code ++
      lit " (date: " ++ fst dados ++ lit ")"))))).

(** The [except Exception] of [convert_currency]. *)
Definition relato_cambio (from_code to_code : str) (r : resultado str) : str :=
  match r with
  | Ok s => s
  | Raise e =>
      lit "ERROR: Could not convert " ++ from_code ++ lit " to " ++ to_code ++
      lit ": " ++ texto_erro e
  end.

(** [convert_currency]: the string returned and the URLs requested. *)
Definition convert_currency_http (from_code to_code : str) : str * list str :=
  let from_code := str_upper py_upper (strip from_code) in
  let to_code := str_upper py_upper (strip to_code) in
  (relato_cambio from_code to_code (converter from_code to_code),
   [url_cambio from_code to_code]).

(** *** [get_country_info] *)

Definition FALLBACK_ISO : list (str * str) :=
  [ (lit "united states", lit "US");
    (lit "usa", lit "US");
    (lit "uk", lit "GB");
    (lit "united kingdom", lit "GB") ].

Fixpoint tabela_get (k : str) (t : list (str * str)) : option str :=
  match t with
  | [] => None
  | (k', v) :: t' => if eqb_str k k' then Some v else tabela_get k t'
  end.

(** [_buscar_por_url] *)
Definition _buscar_por_url (url : str) : resultado json :=
  bind (http_json url) index0.

(** [", ".join(vs)] *)
Fixpoint juntar (vs : list json) : resultado str :=
  match vs with
  | [] => Ok []
  | v :: vs' =>
      match v with
      | JStr s =>
          match vs' with
          | [] => Ok s
          | _ => bind (juntar vs') (fun r => Ok (s ++ lit ", " ++ r))
          end
      | _ => Raise (ErroJoin v)
      end
  end.

(** [_formatar] *)
Definition _formatar (data : json) : resultado str :=
  bind (metodo_get data (lit "capital") JNull) (fun cap =>
  bind (if truthy_json cap
        then bind (subscrito data (lit "capital")) index0
        else Ok (JStr (lit "N/A"))) (fun capital =>
  bind (bind (subscrito data (lit "population"))
             (formatar_numero (lit ",") (fun n => Some (fmt_milhar n)) (lit "1") (lit "0"))) (fun populacao =>
  bind (bind (metodo_get data (lit "languages") (JDict []))
             (fun ls => match ls with
                        | JDict d => juntar (map snd d)
                        | _ => Raise (ErroAtributo ls (lit "values"))
                        end)) (fun idiomas =>
  bind (metodo_get data (lit "currencies") (JDict [])) (fun currencies =>
  bind (if truthy_json currencies
        then match currencies with
             | JDict ((codigo, info) :: _) =>
                 bind (subscrito info (lit "name")) (fun nome =>
                 Ok (fstr nome ++ lit " (" ++ codigo ++ lit ")"))
             | _ => Raise (ErroAtributo currencies (lit "keys"))
             end
        else Ok (lit "N/A")) (fun moeda =>
  bind (bind (metodo_get data (lit "timezones") (JList [JStr (lit "UTC")])) index0)
       (fun timezone =>
  bind (match data with
        | JDict d =>
            match dict_get (lit "area") d with
            | Some a => formatar_numero (lit ",.0f") fmt_area (lit "1") (lit "0") a
            | None => Ok (lit "0")
            end
        | _ => Raise (ErroAtributo data (lit "get"))
        end) (fun area =>
  bind (bind (subscrito data (lit "name")) (fun nm => subscrito nm (lit "common")))
       (fun comum =>
  Ok (lit "Country: " ++ fstr comum ++ nl ++
      lit "Capital: " ++ fstr capital ++ nl ++
      lit "Population: " ++ populacao ++ nl ++
      lit "Language: " ++ idiomas ++ nl ++
      lit "Currency: " ++ moeda ++ nl ++
      lit "Timezone: " ++ fstr timezone ++ nl ++
      lit "Area: " ++ area ++ lit " km2")))))))))).

(** [data.get("population", 0) == 0] *)
Definition populacao_zero (data : json) : resultado bool :=
  match data with
  | JDict d =>
      Ok (match dict_get (lit "population") d with
          | Some v => igual_zero v
          | None => true
          end)
  | _ => Raise (ErroAtributo data (lit "get"))
  end.

Definition URL_PAISES : str := lit "https://restcountries.com/v3.1/".

(** The body of the outer [try] of [get_country_info], on the trimmed
    name: what it gives and the URLs requested on the way. *)
Definition buscar_pais (country_name : str) : resultado str * list str :=
  let chave := str_lower py_lower country_name in
  match tabela_get chave FALLBACK_ISO with
  | Some iso =>
      let url := URL_PAISES ++ lit "alpha/" ++ iso in
      (bind (_buscar_por_url url) _formatar, [url])
  | None =>
      let url := URL_PAISES ++ lit "name/" ++ country_name in
      match _buscar_por_url url with
      | Raise e => (Raise e, [url])
      | Ok data =>
          match populacao_zero data with
          | Raise e => (Raise e, [url])
          | Ok zero =>
              if zero then
                match metodo_get data (lit "cca2") (JStr []) with
                | Raise e => (Raise e, [url])
                | Ok alpha =>
                    if truthy_json alpha then
                      let url2 := URL_PAISES ++ lit "alpha/" ++ fstr alpha in
                      match _buscar_por_url url2 with
                      | Ok data2 => (_formatar data2, [url; url2])
                      | Raise _ => (_formatar data, [url; url2])
                      end
                    else (_formatar data, [url])
                end
              else (_formatar data, [url])
          end
      end
  end.

(** The outer [except Exception] of [get_country_info]. *)
Definition relato_pais (country_name : str) (r : resultado str) : str :=
  match r with
  | Ok s => s
  | Raise e =>
      lit "ERROR: Could not fetch data for " ++ country_name ++ lit ": " ++ texto_erro e
  end.

(** [get_country_info]: the string returned and the URLs requested. *)
Definition get_country_info_http (country_name : str) : str * list str :=
  let country_name := strip country_name in
  (relato_pais country_name (fst (buscar_pais country_name)),
   snd (buscar_pais country_name)).

End Ferramentas.

Arguments JNull {numero}.
Arguments JBool {numero} b.
Arguments JStr {numero} s.
Arguments JList {numero} l.
Arguments JDict {numero} d.
Arguments JNum {numero} n.
Arguments Ok {numero A} a.
Arguments Raise {numero A} e.
Arguments ErroHTTP {numero} detalhe.
Arguments ErroChave {numero} k.

(** *** Stand-ins for the services, for the worked calls *)

(** Only code points below 256 occur in the worked calls. *)
Definition py_caso_fixo (s : str) : str := s.

(** Numbers are integers here, rendered without grouping. *)
Definition fmt_4f_fixo (n : Z) : option str := Some (str_of_int n ++ lit ".0000").

Definition fmt_area_fixo (n : Z) : option str := Some (str_of_int n).

Definition str_erro_fixo (e : erro_py Z) : str :=
  match e with
  | ErroChave k => lit "'" ++ k ++ lit "'"
  | _ => lit "error"
  end.

Definition corpo_cambio : json Z :=
  JDict [ (lit "amount", JNum 1%Z); (lit "base", JStr (lit "USD"));
          (lit "date", JStr (lit "2025-01-02"));
          (lit "rates", JDict [(lit "BRL", JNum 5%Z)]) ].

(** A territory: no inhabitants, but a country code. *)
Definition corpo_territorio : json Z :=
  JDict [ (lit "name", JDict [(lit "common", JStr (lit "Bouvet Island"))]);
          (lit "population", JNum 0%Z); (lit "cca2", JStr (lit "BV")) ].

Definition corpo_minimo : json Z :=
  JDict [ (lit "name", JDict [(lit "common", JStr (lit "Japan"))]);
          (lit "population", JNum 125%Z) ].

(** The two services: one rate, two countries, the rest fails. *)
Definition http_fixo (url : str) : resultado Z (json Z) :=
  if eqb_str url (url_cambio (lit "USD") (lit "BRL")) then Ok corpo_cambio
  else if eqb_str url (URL_PAISES ++ lit "name/Bouvet") then Ok (JList [corpo_territorio])
  else if eqb_str url (URL_PAISES ++ lit "name/Japan") then Ok (JList [corpo_minimo])
  else if eqb_str url (URL_PAISES ++ lit "alpha/US") then Ok (JList [corpo_minimo])
  else Raise (ErroHTTP (lit "404 Client Error")).

Definition cc_http_fixo : str -> str -> str * list str :=
  convert_currency_http Z fmt_4f_fixo str_erro_fixo http_fixo py_caso_fixo.

Definition gci_http_fixo : str -> str * list str :=
  get_country_info_http Z (Z.eqb 0) str_of_int fmt_area_fixo (fun _ => lit "?")
                        str_erro_fixo http_fixo py_caso_fixo.

(** ** Reading a run off its log *)

(** The prompt a pass leaves for the next one: the observation when a
    tool result was recorded, else the prompt it sent itself. *)
Definition prompt_apos (sent_prompt : str) (reg : AgentIteration) : str :=
  match resultado_ferramenta reg with
  | Some obs => lit "Observation: " ++ obs
  | None => sent_prompt
  end.

(** The prompts of the passes that left the records [recs], the first
    pass numbered [i] and starting from [p]. *)
Fixpoint prompts_da_execucao (max_iterations i : Z) (p : str)
         (recs : list AgentIteration) : list str :=
  match recs with
  | [] => []
  | reg :: rest =>
      let u := prompt_da_iteracao max_iterations i p in
      u :: prompts_da_execucao max_iterations (i + 1)%Z (prompt_apos u reg) rest
  end.

(** The prompt of the pass that comes after those records. *)
Fixpoint prompt_pendente (max_iterations i : Z) (p : str)
         (recs : list AgentIteration) : str :=
  match recs with
  | [] => prompt_da_iteracao max_iterations i p
  | reg :: rest =>
      prompt_pendente max_iterations (i + 1)%Z
        (prompt_apos (prompt_da_iteracao max_iterations i p) reg) rest
  end.

(** The text appended to the prompt of the last pass. *)
Definition DIRETIVA_FINAL (max_iterations : Z) : str :=
  nl ++ nl ++
  lit "ATENCAO: Esta e sua ultima iteracao (" ++ str_of_int max_iterations ++ lit "/" ++
  str_of_int max_iterations ++ lit "). " ++
  lit "Finalize AGORA com Answer usando os dados ja coletados.".

Definition tem_ferramenta (reg : AgentIteration) : bool :=
  match ferramenta_chamada reg with Some _ => true | None => false end.

(** A record as the loop writes it: no tool field at all, or all three,
    taken from the first match of the Action pattern in a response
    with PAUSE and Action and without Answer, the result being what the
    dispatch gave. *)
Definition registro_coerente
           (gci : str -> tool_result) (cc : str -> str -> tool_result)
           (reg : AgentIteration) : Prop :=
  match ferramenta_chamada reg, argumento reg, resultado_ferramenta reg with
  | None, None, None => True
  | Some nome, Some arg, Some obs =>
      contains (lit "Answer") (resposta_llm reg) = false /\
      contains (lit "PAUSE") (resposta_llm reg) = true /\
      contains (lit "Action") (resposta_llm reg) = true /\
      (exists m ms,
         findall RE_ACTION_FLAGS ACTION_RE (resposta_llm reg) = m :: ms /\
         nome = strip (nth 0 m []) /\ arg = strip (nth 1 m [])) /\
      obs = fst (despachar gci cc nome arg)
  | _, _, _ => False
  end.

(** The shape of one match of the Action pattern: a non-empty name of
    letters and underscores, and a non-empty argument on one line. *)
Definition forma_action (m : list str) : Prop :=
  exists nome arg,
    m = [nome; arg] /\
    nome <> [] /\ forallb letra_ou_sublinhado nome = true /\ strip nome = nome /\
    arg <> [] /\ forallb nao_newline arg = true.

Definition sem_espaco (c : char) : bool := negb (N.eqb c (cp " ")).

(** [main]'s name for the log files. *)
Definition nome_log_de (origem destino : str) : str :=
  map (fun c => if N.eqb c (cp " ") then (cp "_") else c)
      (lit "log_" ++ origem ++ lit "_" ++ destino).

(** An Action turn for a country the tool cannot find. *)
Definition r_atlantis : str :=
  lit "Action: get_country_info: Atlantis" ++ nl ++ lit "PAUSE".

(** A tool that always raises. *)
Definition gci_falha (pais : str) : tool_result := Levanta (lit "timeout").

(** * Properties *)

(** ** Text lemmas *)

Lemma eqb_str_true (a b : str) : eqb_str a b = true <-> a = b.
Proof.
  unfold eqb_str. destruct (list_eq_dec N.eq_dec a b); split; congruence.
Qed.

Lemma eqb_str_false (a b : str) : eqb_str a b = false <-> a <> b.
Proof.
  unfold eqb_str. destruct (list_eq_dec N.eq_dec a b); split; congruence.
Qed.

Lemma split_length (sep : char) (s : str) :
  length (split sep s) = S (count_occ N.eq_dec s sep).
Proof.
  induction s as [| c s IH]; simpl; [reflexivity |].
  destruct (N.eqb_spec c sep) as [-> | Hne].
  - destruct (N.eq_dec sep sep); [| congruence]. simpl. now rewrite IH.
  - destruct (N.eq_dec c sep); [congruence |].
    destruct (split sep s) as [| f fs]; simpl in *; [discriminate | exact IH].
Qed.

Lemma registry_get_none (nome : str) (reg : list (str * ferramenta)) :
  registry_get nome reg = None <-> ~ In nome (map fst reg).
Proof.
  induction reg as [| [k t] reg IH]; simpl.
  - tauto.
  - destruct (eqb_str nome k) eqn:E.
    + apply eqb_str_true in E. split; [discriminate | intros H; exfalso; apply H; auto].
    + apply eqb_str_false in E. rewrite IH. split.
      * intros H [H1 | H1]; [congruence | tauto].
      * tauto.
Qed.

Lemma truthy_app_l (a b : str) : truthy a = true -> truthy (a ++ b) = true.
Proof. destruct a; simpl; congruence. Qed.

Lemma eqb_str_refl (a : str) : eqb_str a a = true.
Proof. now apply eqb_str_true. Qed.

Lemma registry_get_convert :
  registry_get (lit "convert_currency") FERRAMENTAS = Some Tool_convert_currency.
Proof. reflexivity. Qed.

(** ** The dispatch block *)

Section Dispatch.

Variable get_country_info : str -> tool_result.
Variable convert_currency : str -> str -> tool_result.

Local Abbreviation despacha := (despachar get_country_info convert_currency).

Lemma despachar_nao_registrada (nome arg : str) :
  ~ In nome (map fst FERRAMENTAS) ->
  despacha nome arg = (ERRO_NAO_ENCONTRADA, []).
Proof.
  intros H. apply registry_get_none in H.
  unfold despachar. now rewrite H.
Qed.

(** With exactly one comma the tool runs on the two trimmed fields,
    whatever they are. *)
Lemma despachar_convert_uma_virgula (arg : str) :
  count_occ N.eq_dec arg (cp ",") = 1%nat ->
  exists a b,
    split (cp ",") arg = [a; b] /\
    despacha (lit "convert_currency") arg =
      (observar (convert_currency (strip a) (strip b)),
       [EvTool (lit "convert_currency") [strip a; strip b]]).
Proof.
  intros H. pose proof (split_length (cp ",") arg) as L. rewrite H in L.
  destruct (split (cp ",") arg) as [| a [| b [| c l]]] eqn:E; try discriminate.
  exists a, b. split; [reflexivity |].
  unfold despachar. rewrite registry_get_convert, eqb_str_refl, E. reflexivity.
Qed.

(** C3 (as the code has it): for the two-argument tool convert_currency
    the argument string is cut at every comma and each field is trimmed.
    Whenever that does not give exactly two fields (no comma, or more than
    one) the observation is the fixed arity error and no tool is called;
    with exactly one comma the tool is called on the two trimmed fields,
    empty or not. *)
Theorem C3_convert_currency_arity (arg : str) :
  (count_occ N.eq_dec arg (cp ",") <> 1%nat ->
   despacha (lit "convert_currency") arg = (ERRO_ARGUMENTOS, [])) /\
  (count_occ N.eq_dec arg (cp ",") = 1%nat ->
   exists a b,
     split (cp ",") arg = [a; b] /\
     despacha (lit "convert_currency") arg =
       (observar (convert_currency (strip a) (strip b)),
        [EvTool (lit "convert_currency") [strip a; strip b]])).
Proof.
  split; [| apply despachar_convert_uma_virgula].
  intros H. unfold despachar. rewrite registry_get_convert, eqb_str_refl.
  cbv zeta. rewrite length_map, split_length.
  destruct (count_occ N.eq_dec arg (cp ",")) as [| [| n]]; simpl;
    [reflexivity | congruence | reflexivity].
Qed.

End Dispatch.

Lemma C3_convert_currency_arity_witness :
  count_occ N.eq_dec (lit "USD") (cp ",") <> 1%nat /\
  despachar gci_fixo cc_fixo (lit "convert_currency") (lit "USD") = (ERRO_ARGUMENTOS, []).
Proof.
  split.
  - simpl. lia.
  - apply (proj1 (C3_convert_currency_arity gci_fixo cc_fixo (lit "USD"))). simpl. lia.
Defined.

(** C3, as stated, fails: an empty part does not stop the call.  The
    argument [USD,] holds one comma, its second field is empty, and
    convert_currency is called on it. *)
Lemma C3_counterexample_empty_part :
  map strip (split (cp ",") (lit "USD,")) = [lit "USD"; []] /\
  despachar gci_fixo cc_fixo (lit "convert_currency") (lit "USD,") =
    (lit "1 USD = 5.0000 ", [EvTool (lit "convert_currency") [lit "USD"; []]]) /\
  fst (despachar gci_fixo cc_fixo (lit "convert_currency") (lit "USD,")) <> ERRO_ARGUMENTOS.
Proof.
  split; [reflexivity |]. split; [reflexivity |]. discriminate.
Qed.


Example split_ex : split (cp ",") (lit "USD, BRL") = [lit "USD"; lit " BRL"].
Proof. reflexivity. Qed.
Example str_of_int_ex : str_of_int (-12) = lit "-12" /\ str_of_int 0 = lit "0".
Proof. split; reflexivity. Qed.
Example strip_ex : strip (lit "  a b  ") = lit "a b".
Proof. reflexivity. Qed.

Example answer_ex1 :
  search {| IGNORECASE := true; DOTALL := true |} ANSWER_RE (lit "x Answer:") = Some ([lit ":"], []).
Proof. reflexivity. Qed.
Example answer_ex2 :
  search {| IGNORECASE := true; DOTALL := true |} ANSWER_RE (lit "x answer:  y z ") = Some ([lit "y z "], []).
Proof. reflexivity. Qed.
Example action_ex1 :
  findall {| IGNORECASE := true; DOTALL := false |} ACTION_RE
    (lit "T: x" ++ nl ++ lit "Action: get_country_info:  Brazil " ++ nl ++ lit "PAUSE" ++ nl ++ lit "action:FOO:z")
  = [[lit "get_country_info"; lit "Brazil "]; [lit "FOO"; lit "z"]].
Proof. reflexivity. Qed.
(** Outside ASCII: a dotless i in [Action] and in the name, a Kelvin
    sign and a long s as a name, and a no-break space after the colon. *)
Example action_ex_unicode :
  findall RE_ACTION_FLAGS ACTION_RE
    (lit "act" ++ [0x131%N] ++ lit "on: get_country_" ++ [0x131%N] ++ lit "nfo: Japan")
  = [[lit "get_country_" ++ [0x131%N] ++ lit "nfo"; lit "Japan"]] /\
  findall RE_ACTION_FLAGS ACTION_RE
    (lit "Action:" ++ [0xA0%N; 0x212A%N] ++ lit "_" ++ [0x17F%N] ++ lit ": x")
  = [[[0x212A%N] ++ lit "_" ++ [0x17F%N]; lit "x"]] /\
  strip ([0x3000%N] ++ lit "a" ++ [0x2003%N; 0x85%N]) = lit "a".
Proof. repeat split. Qed.

Example action_ex2 :
  findall {| IGNORECASE := true; DOTALL := false |} ACTION_RE
    (lit "Action: foo:  " ++ nl)
  = [[lit "foo"; lit " "]].
Proof. reflexivity. Qed.

(** ** One pass through the loop body *)

Section LoopFacts.

Variable llm : list message -> llm_result.
Variable get_country_info : str -> tool_result.
Variable convert_currency : str -> str -> tool_result.
Variable now : str.

Local Abbreviation despacha := (despachar get_country_info convert_currency).
Local Abbreviation passa := (iteracao llm get_country_info convert_currency).
Local Abbreviation roda := (laco llm get_country_info convert_currency).

Lemma despachar_so_ferramentas (nome arg : str) :
  forallb is_tool_call (snd (despacha nome arg)) = true.
Proof.
  unfold despachar.
  destruct (registry_get nome FERRAMENTAS); [| reflexivity].
  destruct (eqb_str nome _); [| reflexivity].
  destruct (_ =? 2)%nat; reflexivity.
Qed.

Lemma prompt_da_iteracao_truthy (max_iterations i : Z) (p : str) :
  truthy p = true -> truthy (prompt_da_iteracao max_iterations i p) = true.
Proof.
  intros H. unfold prompt_da_iteracao.
  destruct (i =? max_iterations)%Z; [| exact H].
  now apply truthy_app_l.
Qed.

Lemma Agent_call_truthy (a : Agent) (msg : str) :
  truthy msg = true ->
  Agent_call llm a msg =
    match llm (messages a ++ [user_msg msg]) with
    | Resposta r =>
        ({| system := system a;
            messages := (messages a ++ [user_msg msg]) ++ [assistant_msg r] |},
         Resposta r, messages a ++ [user_msg msg])
    | Falha e =>
        ({| system := system a; messages := messages a ++ [user_msg msg] |},
         Falha e, messages a ++ [user_msg msg])
    end.
Proof. intros H. unfold Agent_call. now rewrite H. Qed.

Lemma iteracao_spec (max_iterations i : Z) (st : estado) :
  truthy (proximo_prompt st) = true ->
  passo_spec llm max_iterations i st (passa max_iterations i st).
Proof.
  intros Hp.
  pose proof (prompt_da_iteracao_truthy max_iterations i _ Hp) as Hq.
  unfold iteracao. rewrite (Agent_call_truthy _ _ Hq).
  fold (enviado max_iterations i st).
  destruct (llm (enviado max_iterations i st)) as [r | e] eqn:El.
  - destruct (contains (lit "Answer") r) eqn:Ea.
    + eapply PS_answer; eauto.
    + assert (Hplain :
        passo_spec llm max_iterations i st
          (Continua
             {| agente := {| system := system (agente st);
                             messages := enviado max_iterations i st ++ [assistant_msg r] |};
                log := log_append (log st) (registro_simples i r);
                proximo_prompt := prompt_da_iteracao max_iterations i (proximo_prompt st);
                resultado_final := resultado_final st;
                eventos := eventos st ++ [EvLLM (enviado max_iterations i st)] |})).
      { eapply PS_continua with (chamadas := []) (reg := registro_simples i r);
          simpl; eauto. }
      destruct (contains (lit "PAUSE") r && contains (lit "Action") r); [| exact Hplain].
      destruct (findall RE_ACTION_FLAGS ACTION_RE r) as [| m ms]; [exact Hplain |].
      pose proof (despachar_so_ferramentas (strip (nth 0 m [])) (strip (nth 1 m []))) as Ht.
      destruct (despacha (strip (nth 0 m [])) (strip (nth 1 m []))) as [res chamadas].
      eapply PS_continua with (chamadas := chamadas);
        simpl; try reflexivity; eauto.
      now rewrite <- app_assoc.
  - eapply PS_falha; eauto.
Qed.

(** ** The whole loop *)

Lemma laco_S (max_iterations : Z) (n : nat) (i : Z) (st : estado) :
  roda max_iterations (S n) i st =
    match passa max_iterations i st with
    | Continua st' => roda max_iterations n (i + 1)%Z st'
    | Interrompe st' => (st', None)
    | Excecao e st' => (st', Some e)
    end.
Proof. reflexivity. Qed.

(* Induction on the passes left; the first pass split by [passo_spec]. *)
Ltac por_passos mx n IH Hp H :=
  induction n as [| n IH]; intros i st st' oe Hp H;
  [ simpl in H; injection H as <- <-
  | rewrite laco_S in H;
    let Hs := fresh "Hs" in
    pose proof (iteracao_spec mx i st Hp) as Hs;
    revert H;
    destruct Hs as
      [ e s1 Hl Hm Hlog Hrf Hev
      | r s1 Hl Ha Hm Hlog Hrf Hev
      | r reg ch s1 Hl Ha Hm Hlog Hnum Hresp Hrf Hev Htool Htr ];
    intros H;
    [ injection H as <- <- | injection H as <- <- | ] ].

(** What the loop does to the log. *)
Lemma laco_log (max_iterations : Z) (n : nat) :
  forall (i : Z) (st st' : estado) (oe : option excecao),
    truthy (proximo_prompt st) = true ->
    roda max_iterations n i st = (st', oe) ->
    exists recs,
      iteracoes (log st') = iteracoes (log st) ++ recs /\
      (length recs <= n)%nat /\
      map numero recs = map (fun k => (i + Z.of_nat k)%Z) (seq 0 (length recs)) /\
      iteracoes_utilizadas (log st') = iteracoes_utilizadas (log st) /\
      resposta_final (log st') = resposta_final (log st) /\
      max_iteracoes (log st') = max_iteracoes (log st) /\
      (oe = None -> Forall sem_answer recs ->
       length recs = n /\ sucesso (log st') = sucesso (log st) /\
       resultado_final st' = resultado_final st).
Proof.
  por_passos max_iterations n IH Hp H.
  - exists []. rewrite app_nil_r. repeat split; auto.
  - exists []. rewrite app_nil_r, Hlog. repeat split; auto with arith. discriminate.
  - exists [registro_simples i r]. rewrite Hlog. simpl.
    assert (Hno : Forall sem_answer [registro_simples i r] -> False).
    { intros F. inversion F as [| ? ? Hr ?]; subst.
      unfold sem_answer, registro_simples in Hr. cbn [resposta_llm] in Hr.
      congruence. }
    repeat split; auto with arith; try (exfalso; now apply Hno).
    now rewrite Z.add_0_r.
  - destruct (IH _ _ _ _ Htr H) as (recs & E1 & E2 & E3 & E4 & E5 & E6 & E7).
    exists (reg :: recs). rewrite E1, E4, E5, E6, Hlog. simpl.
    rewrite <- app_assoc. simpl.
    assert (E7' : oe = None -> Forall sem_answer (reg :: recs) ->
                  length recs = n /\ sucesso (log st') = sucesso (log st) /\
                  resultado_final st' = resultado_final st).
    { intros Ho F. inversion F; subst.
      destruct (E7 eq_refl) as (A & B & C); auto.
      rewrite B, C, Hlog, Hrf. auto. }
    repeat split; auto with arith;
      try match goal with
          | Ho : oe = None, F : Forall _ _ |- _ =>
              destruct (E7' Ho F) as (A & B & C); congruence
          end.
    f_equal; [lia |]. rewrite E3, <- seq_shift, map_map.
    apply map_ext. intros k. lia.
Qed.

(** What the loop adds to the trace: one endpoint call per record, one
    more when the last call raised; no file; and a raising call ends the
    loop with that exception. *)
Lemma laco_eventos (max_iterations : Z) (n : nat) :
  forall (i : Z) (st st' : estado) (oe : option excecao),
    truthy (proximo_prompt st) = true ->
    roda max_iterations n i st = (st', oe) ->
    exists evs,
      eventos st' = eventos st ++ evs /\
      filter is_write evs = [] /\
      length (filter is_llm_call evs) + length (iteracoes (log st)) =
        (length (iteracoes (log st')) + match oe with Some _ => 1 | None => 0 end)%nat /\
      (forall msgs e, In (EvLLM msgs) evs -> llm msgs = Falha e -> oe = Some e) /\
      (forall e, oe = Some e -> exists msgs, In (EvLLM msgs) evs /\ llm msgs = Falha e).
Proof.
  por_passos max_iterations n IH Hp H.
  - exists []. rewrite app_nil_r. repeat split; auto; try easy.
  - exists [EvLLM (enviado max_iterations i st)]. rewrite Hev, Hlog. simpl.
    repeat split; auto.
    + lia.
    + intros msgs e' [[= <-] | []] Hf. congruence.
    + intros e' [= <-]. eauto.
  - exists [EvLLM (enviado max_iterations i st)]. rewrite Hev, Hlog. simpl.
    rewrite length_app. simpl. repeat split; auto.
    + lia.
    + intros msgs e' [[= <-] | []] Hf. congruence.
    + discriminate.
  - destruct (IH _ _ _ _ Htr H) as (evs & E1 & E2 & E3 & E4 & E5).
    exists (EvLLM (enviado max_iterations i st) :: ch ++ evs).
    rewrite E1, Hev, <- app_assoc. simpl.
    assert (Hch : forall P, (forall x, is_tool_call x = true -> P x = false) ->
                            filter P ch = []).
    { intros P HP. clear - Htool HP. induction ch as [| x l IHl]; simpl in *; [easy |].
      apply andb_prop in Htool as [Hx Hl']. rewrite (HP _ Hx). auto. }
    rewrite !filter_app, (Hch is_write), (Hch is_llm_call), E2;
      try (intros [] ; simpl; congruence).
    rewrite Hlog in E3. simpl in *. rewrite length_app in E3. simpl in E3.
    repeat split; auto.
    + lia.
    + intros msgs e' [[= <-] | Hin] Hf; [congruence |].
      apply in_app_or in Hin as [Hin | Hin]; [| eauto].
      exfalso. clear - Htool Hin. induction ch as [| x l IHl]; simpl in *; [easy |].
      apply andb_prop in Htool as [Hx Hl']. destruct Hin as [-> | Hin]; [discriminate | auto].
    + intros e' He. destruct (E5 _ He) as (msgs & Hin & Hf).
      exists msgs. split; [| exact Hf]. right. apply in_or_app. now right.
Qed.

(** If the endpoint always answers, the loop is not left by an
    exception. *)
Lemma laco_sem_excecao (max_iterations : Z) (n : nat) (i : Z) (st : estado) :
  (forall msgs, exists r, llm msgs = Resposta r) ->
  truthy (proximo_prompt st) = true ->
  snd (roda max_iterations n i st) = None.
Proof.
  intros Hll Hp.
  destruct (roda max_iterations n i st) as [st' [e |]] eqn:E; [| reflexivity].
  destruct (laco_eventos _ _ _ _ _ _ Hp E) as (evs & _ & _ & _ & _ & H5).
  destruct (H5 e eq_refl) as (msgs & _ & Hf).
  destruct (Hll msgs) as (r & Hr). congruence.
Qed.

(** What the loop does to the transcript: it appends, per record, the
    prompt sent and the response; after a raising call the prompt of the
    unfinished pass is left at the end. *)
Lemma laco_messages (max_iterations : Z) (n : nat) :
  forall (i : Z) (st st' : estado) (oe : option excecao),
    truthy (proximo_prompt st) = true ->
    roda max_iterations n i st = (st', oe) ->
    exists recs turnos pend,
      iteracoes (log st') = iteracoes (log st) ++ recs /\
      messages (agente st') = messages (agente st) ++ dialogo turnos ++ pend /\
      map snd turnos = map resposta_llm recs /\
      (oe = None -> pend = []) /\
      (forall e, oe = Some e -> exists u, pend = [user_msg u]).
Proof.
  por_passos max_iterations n IH Hp H.
  - exists [], [], []. rewrite !app_nil_r. repeat split; auto. discriminate.
  - exists [], [], [user_msg (prompt_da_iteracao max_iterations i (proximo_prompt st))].
    rewrite Hm, Hlog, app_nil_r. repeat split; eauto. discriminate.
  - exists [registro_simples i r],
           [(prompt_da_iteracao max_iterations i (proximo_prompt st), r)], [].
    rewrite Hm, Hlog. unfold enviado. simpl. rewrite <- app_assoc.
    repeat split; auto. discriminate.
  - destruct (IH _ _ _ _ Htr H) as (recs & turnos & pend & E1 & E2 & E3 & E4 & E5).
    exists (reg :: recs),
           ((prompt_da_iteracao max_iterations i (proximo_prompt st), r) :: turnos), pend.
    rewrite E1, E2, Hm, Hlog. unfold enviado. simpl. rewrite <- !app_assoc. simpl.
    repeat split; auto. congruence.
Qed.

(** One more pass never rewrites what is already in the transcript. *)
Lemma laco_messages_mono (max_iterations : Z) (n : nat) :
  forall (i : Z) (st : estado),
    truthy (proximo_prompt st) = true ->
    exists mais,
      messages (agente (fst (roda max_iterations (S n) i st))) =
      messages (agente (fst (roda max_iterations n i st))) ++ mais.
Proof.
  induction n as [| n IH]; intros i st Hp.
  - destruct (roda max_iterations 1 i st) as [st' oe] eqn:E.
    destruct (laco_messages _ _ _ _ _ _ Hp E) as (recs & turnos & pend & _ & E2 & _).
    simpl. eauto.
  - rewrite (laco_S max_iterations (S n)), (laco_S max_iterations n).
    pose proof (iteracao_spec max_iterations i st Hp) as Hs.
    destruct Hs; try (exists []; now rewrite app_nil_r).
    now apply IH.
Qed.

End LoopFacts.

(** ** Writing the log *)

Section SalvarLog.

Variable gravar : str -> AgentLog -> option excecao.

Lemma _salvar_log_escritos (l : AgentLog) (nome_base : str) (ev : evento) :
  In ev (snd (_salvar_log gravar l nome_base)) ->
  ev = EvWrite (nome_base ++ lit ".json") l \/ ev = EvWrite (nome_base ++ lit ".txt") l.
Proof.
  unfold _salvar_log.
  destruct (gravar (nome_base ++ lit ".json") l); [intros [] |].
  destruct (gravar (nome_base ++ lit ".txt") l); cbn [snd In].
  - intros [<- | []]. now left.
  - intros [<- | [<- | []]]; [now left | now right].
Qed.

Lemma _salvar_log_completo (l : AgentLog) (nome_base : str) :
  fst (_salvar_log gravar l nome_base) = None ->
  snd (_salvar_log gravar l nome_base) =
    [EvWrite (nome_base ++ lit ".json") l; EvWrite (nome_base ++ lit ".txt") l].
Proof.
  unfold _salvar_log.
  destruct (gravar (nome_base ++ lit ".json") l); [discriminate |].
  destruct (gravar (nome_base ++ lit ".txt") l); [discriminate | reflexivity].
Qed.

Lemma _salvar_log_sem_chamadas (l : AgentLog) (nome_base : str) :
  filter is_llm_call (snd (_salvar_log gravar l nome_base)) = [] /\
  filter is_tool_call (snd (_salvar_log gravar l nome_base)) = [].
Proof.
  unfold _salvar_log.
  destruct (gravar (nome_base ++ lit ".json") l); [split; reflexivity |].
  destruct (gravar (nome_base ++ lit ".txt") l); split; reflexivity.
Qed.

Lemma desfecho_retornou (falha : option excecao) (final texto : str) :
  desfecho falha final = Retornou texto -> falha = None /\ texto = final.
Proof. destruct falha; [discriminate |]. now intros [= ->]. Qed.

End SalvarLog.

(** ** Runs of [agent_loop] *)

Section Runs.

Variable llm : list message -> llm_result.
Variable get_country_info : str -> tool_result.
Variable convert_currency : str -> str -> tool_result.
Variable now : str.
Variable gravar : str -> AgentLog -> option excecao.

Local Abbreviation passa := (iteracao llm get_country_info convert_currency).
Local Abbreviation roda := (laco llm get_country_info convert_currency).
Local Abbreviation executa :=
  (agent_loop_with llm get_country_info convert_currency now gravar).
Local Abbreviation salva := (_salvar_log gravar).

Lemma estado_inicial_truthy (sys origem destino : str) (max_iterations : Z) :
  truthy (proximo_prompt (estado_inicial now sys origem destino max_iterations)) = true.
Proof. reflexivity. Qed.

(** C1 (as the code has it): a response that contains the literal
    [Answer], in exactly this letter case, ends the loop at once, whatever
    Action or PAUSE markers it also holds: the final answer is recorded,
    the log is marked successful, the plain record of the iteration is
    appended, and the only call made in the pass is the one to the
    endpoint. *)
Theorem C1_answer_marker_ends_loop
        (max_iterations i : Z) (n : nat) (st : estado)
        (ag : Agent) (r : str) (sent : list message) :
  Agent_call llm (agente st)
             (prompt_da_iteracao max_iterations i (proximo_prompt st))
    = (ag, Resposta r, sent) ->
  contains (lit "Answer") r = true ->
  exists st',
    passa max_iterations i st = Interrompe st' /\
    roda max_iterations (S n) i st = (st', None) /\
    resultado_final st' = extrair_answer r /\
    sucesso (log st') = true /\
    iteracoes (log st') = iteracoes (log st) ++ [registro_simples i r] /\
    eventos st' = eventos st ++ [EvLLM sent].
Proof.
  intros Hc Ha. simpl. unfold iteracao. rewrite Hc, Ha.
  eexists. repeat split.
Qed.

(** C5: when the tool name taken from an Action turn is not a key of
    [FERRAMENTAS], the observation is the literal
    [ERROR: ferramenta nao encontrada], it becomes the next prompt and
    the record's tool result, no tool is called, and the loop goes on. *)
Theorem C5_unregistered_tool_observation
        (max_iterations i : Z) (st : estado)
        (ag : Agent) (r : str) (sent : list message)
        (m : list str) (ms : list (list str)) :
  Agent_call llm (agente st)
             (prompt_da_iteracao max_iterations i (proximo_prompt st))
    = (ag, Resposta r, sent) ->
  contains (lit "Answer") r = false ->
  contains (lit "PAUSE") r = true ->
  contains (lit "Action") r = true ->
  findall RE_ACTION_FLAGS ACTION_RE r = m :: ms ->
  ~ In (strip (nth 0 m [])) (map fst FERRAMENTAS) ->
  exists st',
    passa max_iterations i st = Continua st' /\
    proximo_prompt st' = lit "Observation: ERROR: ferramenta nao encontrada" /\
    iteracoes (log st') = iteracoes (log st) ++
      [{| numero := i; resposta_llm := r;
          ferramenta_chamada := Some (strip (nth 0 m []));
          argumento := Some (strip (nth 1 m []));
          resultado_ferramenta := Some (lit "ERROR: ferramenta nao encontrada") |}] /\
    filter is_tool_call (eventos st') = filter is_tool_call (eventos st) /\
    eventos st' = eventos st ++ [EvLLM sent].
Proof.
  intros Hc Ha Hp Hact Hf Hn.
  unfold iteracao. rewrite Hc, Ha, Hp, Hact, Hf. simpl.
  rewrite (despachar_nao_registrada _ _ _ _ Hn).
  eexists. split; [reflexivity |]. simpl. rewrite app_nil_r, filter_app. simpl.
  rewrite app_nil_r. repeat split.
Qed.

(** C2: with a budget of at least 1 and an endpoint that always returns
    a string, the run goes through to its end: it returns its final
    answer, or, when the log files cannot be written, is left by the
    exception of [_salvar_log].  Either way it has made at most
    [max_iterations] passes, each pass (one endpoint call) has left
    exactly one record, numbered in order from 1, and
    [iteracoes_utilizadas] is the length of [iteracoes]. *)
Theorem C2_one_record_per_iteration
        (sys origem destino log_file : str) (max_iterations : Z) :
  (1 <= max_iterations)%Z ->
  (forall msgs, exists r, llm msgs = Resposta r) ->
  exists st,
    executa sys origem destino max_iterations log_file =
      (desfecho (fst (salva (log st) log_file)) (resultado_final st), st) /\
    (Z.of_nat (length (iteracoes (log st))) <= max_iterations)%Z /\
    length (filter is_llm_call (eventos st)) = length (iteracoes (log st)) /\
    map numero (iteracoes (log st)) =
      map Z.of_nat (seq 1 (length (iteracoes (log st)))) /\
    iteracoes_utilizadas (log st) = Z.of_nat (length (iteracoes (log st))).
Proof.
  intros Hmax Hll. unfold agent_loop_with.
  pose proof (estado_inicial_truthy sys origem destino max_iterations) as Hp.
  pose proof (laco_sem_excecao llm get_country_info convert_currency
                max_iterations (Z.to_nat max_iterations) 1 _ Hll Hp) as Hoe.
  destruct (roda max_iterations (Z.to_nat max_iterations) 1 _) as [st1 oe] eqn:E.
  simpl in Hoe. subst oe.
  destruct (laco_log _ _ _ _ _ _ _ _ _ Hp E) as (recs & E1 & E2 & E3 & _).
  destruct (laco_eventos _ _ _ _ _ _ _ _ _ Hp E) as (evs & V1 & _ & V3 & _).
  simpl in E1, V1, V3. subst evs.
  match goal with |- exists st, (_, ?s) = _ /\ _ => exists s end.
  split; [reflexivity |].
  cbn [log eventos iteracoes iteracoes_utilizadas log_finalizar]. rewrite E1.
  repeat split.
  - lia.
  - rewrite filter_app, (proj1 (_salvar_log_sem_chamadas gravar _ _)), app_nil_r.
    rewrite E1 in V3. lia.
  - rewrite E3, <- seq_shift, map_map. apply map_ext. intros k. lia.
Qed.

(** C6: when the endpoint always returns a string and no recorded
    response holds the marker, the loop ends after exactly
    [max_iterations] passes with [sucesso] false and an empty
    [resposta_final]; the log holds [max_iterations] records and no
    more.  The run then returns the empty answer, unless the log files
    cannot be written and the exception of [_salvar_log] leaves it. *)
Theorem C6_budget_exhaustion
        (sys origem destino log_file : str) (max_iterations : Z) :
  (0 <= max_iterations)%Z ->
  (forall msgs, exists r, llm msgs = Resposta r) ->
  Forall sem_answer
    (iteracoes (log (snd (executa sys origem destino max_iterations log_file)))) ->
  exists st,
    executa sys origem destino max_iterations log_file =
      (desfecho (fst (salva (log st) log_file)) [], st) /\
    Z.of_nat (length (iteracoes (log st))) = max_iterations /\
    Z.of_nat (length (filter is_llm_call (eventos st))) = max_iterations /\
    iteracoes_utilizadas (log st) = max_iterations /\
    sucesso (log st) = false /\
    resposta_final (log st) = [].
Proof.
  intros Hmax Hll. unfold agent_loop_with.
  pose proof (estado_inicial_truthy sys origem destino max_iterations) as Hp.
  pose proof (laco_sem_excecao llm get_country_info convert_currency
                max_iterations (Z.to_nat max_iterations) 1 _ Hll Hp) as Hoe.
  destruct (roda max_iterations (Z.to_nat max_iterations) 1 _) as [st1 oe] eqn:E.
  simpl in Hoe. subst oe. simpl. intros Hna.
  destruct (laco_log _ _ _ _ _ _ _ _ _ Hp E) as (recs & E1 & _ & _ & _ & _ & _ & E7).
  destruct (laco_eventos _ _ _ _ _ _ _ _ _ Hp E) as (evs & V1 & _ & V3 & _).
  simpl in E1, V1, V3. subst evs. rewrite E1 in Hna, V3.
  destruct (E7 eq_refl Hna) as (L & S & R). simpl in S, R.
  rewrite R.
  match goal with |- exists st, (_, ?s) = _ /\ _ => exists s end.
  split; [reflexivity |].
  cbn [log eventos iteracoes iteracoes_utilizadas sucesso resposta_final log_finalizar].
  rewrite E1, S, filter_app, (proj1 (_salvar_log_sem_chamadas gravar _ _)), app_nil_r.
  repeat split; lia.
Qed.

(** C9: when a call of the endpoint made during the run raises, the
    loop does not catch it: [agent_loop] is left by that exception, and
    the finalisation is skipped, so [iteracoes_utilizadas] and
    [resposta_final] keep their defaults and no file is written. *)
Theorem C9_endpoint_failure_propagates
        (sys origem destino log_file : str) (max_iterations : Z)
        (msgs : list message) (e : excecao) :
  In (EvLLM msgs)
     (eventos (snd (executa sys origem destino max_iterations log_file))) ->
  llm msgs = Falha e ->
  exists st,
    executa sys origem destino max_iterations log_file = (Levantou e, st) /\
    iteracoes_utilizadas (log st) = 0%Z /\
    resposta_final (log st) = [] /\
    filter is_write (eventos st) = [].
Proof.
  unfold agent_loop_with.
  pose proof (estado_inicial_truthy sys origem destino max_iterations) as Hp.
  destruct (roda max_iterations (Z.to_nat max_iterations) 1 _) as [st1 oe] eqn:E.
  destruct (laco_log _ _ _ _ _ _ _ _ _ Hp E) as (recs & _ & _ & _ & E4 & E5 & _).
  destruct (laco_eventos _ _ _ _ _ _ _ _ _ Hp E) as (evs & V1 & V2 & _ & V4 & _).
  simpl in V1, E4, E5. subst evs.
  destruct oe as [e' |]; simpl; intros Hin Hf.
  - pose proof (V4 _ _ Hin Hf) as [= ->]. eauto.
  - apply in_app_or in Hin as [Hin | Hin].
    + now pose proof (V4 _ _ Hin Hf).
    + apply _salvar_log_escritos in Hin as [Hin | Hin]; discriminate.
Qed.

(** C8: in a run started with a non-empty system prompt, after any
    number [k] of passes the transcript is the system message followed by
    one (prompt, response) pair per record, in order, plus the prompt of
    the pass in flight if the endpoint raised; the pass after that only
    appends to it. *)
Theorem C8_transcript_grows_by_turns
        (sys origem destino : str) (max_iterations : Z) (k : nat) :
  sys <> [] ->
  let apos j := roda max_iterations j 1
                  (estado_inicial now sys origem destino max_iterations) in
  exists turnos pend,
    messages (agente (fst (apos k))) = system_msg sys :: dialogo turnos ++ pend /\
    length turnos = length (iteracoes (log (fst (apos k)))) /\
    map snd turnos = map resposta_llm (iteracoes (log (fst (apos k)))) /\
    (snd (apos k) = None -> pend = []) /\
    (forall e, snd (apos k) = Some e -> exists u, pend = [user_msg u]) /\
    (exists mais,
       messages (agente (fst (apos (S k)))) =
       messages (agente (fst (apos k))) ++ mais) /\
    (forall log_file,
       agente (snd (executa sys origem destino max_iterations log_file)) =
       agente (fst (apos (Z.to_nat max_iterations)))).
Proof.
  intros Hsys apos.
  pose proof (estado_inicial_truthy sys origem destino max_iterations) as Hp.
  destruct (apos k) as [st1 oe] eqn:E. unfold apos in E.
  destruct (laco_messages _ _ _ _ _ _ _ _ _ Hp E)
    as (recs & turnos & pend & E1 & E2 & E3 & E4 & E5).
  exists turnos, pend. simpl in E1, E2 |- *.
  assert (Hs : truthy sys = true) by (destruct sys; simpl; congruence).
  rewrite Hs in E2. rewrite E1, E2, <- E3. simpl.
  repeat split; auto.
  - rewrite <- (length_map snd), E3, length_map. reflexivity.
  - destruct (laco_messages_mono llm get_country_info convert_currency
                max_iterations k 1 _ Hp) as (mais & Hm).
    unfold apos. rewrite Hm, E. simpl. rewrite E2. now exists mais.
  - intros log_file. unfold agent_loop_with, apos.
    now destruct (roda max_iterations (Z.to_nat max_iterations) 1 _) as [st2 [e2 |]].
Qed.

(** C10: the configured budget is the number read when that is at least
    5, and 5 otherwise; so it is never below 5, and it is the budget that
    [main] hands to the loop and that the log of the run carries. *)
Theorem C10_max_iterations_floor (numero_lido : Z) (origem destino : str) :
  MAX_ITERATIONS numero_lido = Z.max numero_lido 5 /\
  ((numero_lido >= 5)%Z -> MAX_ITERATIONS numero_lido = numero_lido) /\
  ((numero_lido < 5)%Z -> MAX_ITERATIONS numero_lido = 5%Z) /\
  (5 <= MAX_ITERATIONS numero_lido)%Z /\
  max_iteracoes
    (log (snd (main llm get_country_info convert_currency now gravar
                    numero_lido origem destino))) = MAX_ITERATIONS numero_lido.
Proof.
  assert (Hm : MAX_ITERATIONS numero_lido = Z.max numero_lido 5).
  { unfold MAX_ITERATIONS. destruct (Z.geb_spec numero_lido 5); lia. }
  repeat split; try lia.
  unfold main, agent_loop, agent_loop_with.
  match goal with
  | |- context [laco ?a ?b ?c ?mx ?n ?i ?st] =>
      pose proof (estado_inicial_truthy
                    (SYSTEM_PROMPT numero_lido) origem destino mx) as Hp;
      destruct (laco a b c mx n i st) as [st1 oe] eqn:E
  end.
  destruct (laco_log _ _ _ _ _ _ _ _ _ Hp E) as (recs & _ & _ & _ & _ & _ & E6 & _).
  destruct oe; simpl; rewrite ?E6; reflexivity.
Qed.

End Runs.

(** ** The engine on the two patterns *)

(** A fact about one character is checked character by character below
    [LIMITE]; above it every comparison with a constant goes one way. *)
Lemma codigos_In (n : nat) :
  forall c x, (c <= x)%N -> (x < c + N.of_nat n)%N -> In x (codigos n c).
Proof.
  induction n as [| n IH]; intros c x H1 H2; [lia |]. cbn [codigos].
  destruct (N.eq_dec c x) as [-> | Hne]; [now left |].
  right. apply IH; lia.
Qed.

Lemma abaixo_do_limite (P : char -> bool) :
  forallb P (codigos (N.to_nat LIMITE) 0%N) = true ->
  forall c, (c < LIMITE)%N -> P c = true.
Proof.
  intros H c Hc. rewrite forallb_forall in H. apply H.
  apply codigos_In; lia.
Qed.

Ltac numerais :=
  repeat match goal with
         | |- context [cp ?a] =>
             let v := eval vm_compute in (cp a) in change (cp a) with v
         end.

Ltac acima_do_limite Hc :=
  unfold LIMITE in Hc; numerais;
  repeat (progress
            (repeat match goal with
                    | |- context [N.eqb ?a ?b] =>
                        rewrite (proj2 (N.eqb_neq a b)) by lia
                    | |- context [N.leb ?a ?b] =>
                        first [ rewrite (proj2 (N.leb_le a b)) by lia
                              | rewrite (proj2 (N.leb_gt a b)) by lia ]
                    | |- context [N.ltb ?a ?b] =>
                        rewrite (proj2 (N.ltb_ge a b)) by lia
                    end;
             cbn [orb andb negb])).

Lemma lower_colon (c : char) :
  N.eqb (lower c) (lower (cp ":")) = N.eqb c (cp ":").
Proof.
  destruct (N.lt_ge_cases c LIMITE) as [Hc | Hc].
  - apply eqb_prop. revert c Hc.
    apply (abaixo_do_limite
             (fun c => Bool.eqb (N.eqb (lower c) (lower (cp ":"))) (N.eqb c (cp ":")))).
    vm_compute. reflexivity.
  - change (lower (cp ":")) with (cp ":"). unfold lower.
    acima_do_limite Hc. reflexivity.
Qed.

Lemma range_is_letra (c : char) :
  cmatch RE_ACTION_FLAGS (CRange (cp "a") (cp "z") (cp "_")) c = letra_ou_sublinhado c.
Proof.
  destruct (N.lt_ge_cases c LIMITE) as [Hc | Hc].
  - apply eqb_prop. revert c Hc.
    apply (abaixo_do_limite
             (fun c => Bool.eqb
                         (cmatch RE_ACTION_FLAGS (CRange (cp "a") (cp "z") (cp "_")) c)
                         (letra_ou_sublinhado c))).
    vm_compute. reflexivity.
  - unfold cmatch, RE_ACTION_FLAGS, IGNORECASE, in_range, letra_ou_sublinhado, lower, upper.
    acima_do_limite Hc. reflexivity.
Qed.

Lemma letra_not_space (c : char) :
  letra_ou_sublinhado c = true -> isspace c = false.
Proof.
  destruct (N.lt_ge_cases c LIMITE) as [Hc | Hc].
  - intros H. apply negb_true_iff. revert H. apply implb_true_iff. revert c Hc.
    apply (abaixo_do_limite
             (fun c => implb (letra_ou_sublinhado c) (negb (isspace c)))).
    vm_compute. reflexivity.
  - unfold letra_ou_sublinhado. acima_do_limite Hc. discriminate.
Qed.

Lemma firstn_app_exact {A : Type} (a b : list A) :
  firstn (length (a ++ b) - length b) (a ++ b) = a.
Proof.
  rewrite length_app, Nat.add_sub.
  rewrite firstn_app, Nat.sub_diag, firstn_all. simpl. apply app_nil_r.
Qed.

(** The defining equations of [exec], one per node. *)
Lemma exec_One f cs p s o caps :
  exec f (One cs :: p) s o caps =
    match s with
    | c :: s' => if cmatch f cs c then exec f p s' o caps else None
    | [] => None
    end.
Proof. reflexivity. Qed.

Lemma exec_Opt f cs p s o caps :
  exec f (Opt cs :: p) s o caps =
    match s with
    | c :: s' =>
        if cmatch f cs c then
          match exec f p s' o caps with
          | Some r => Some r
          | None => exec f p s o caps
          end
        else exec f p s o caps
    | [] => exec f p s o caps
    end.
Proof. reflexivity. Qed.

Lemma exec_Star f cs p s o caps :
  exec f (Star cs :: p) s o caps = star f cs (exec f p) s o caps.
Proof. reflexivity. Qed.

Lemma exec_Plus f cs p s o caps :
  exec f (Plus cs :: p) s o caps =
    match s with
    | c :: s' => if cmatch f cs c then star f cs (exec f p) s' o caps else None
    | [] => None
    end.
Proof. reflexivity. Qed.

Lemma exec_GOpen f p s o caps :
  exec f (GOpen :: p) s o caps = exec f p s s caps.
Proof. reflexivity. Qed.

Lemma exec_GClose f p s o caps :
  exec f (GClose :: p) s o caps =
    exec f p s o (firstn (length o - length s) o :: caps).
Proof. reflexivity. Qed.

(** A literal word, case-insensitively. *)
Lemma exec_word (f : flags) (w : str) (p : pattern) :
  IGNORECASE f = true ->
  forall s o caps,
    exec f (word w ++ p) s o caps =
    match strip_prefix_ci w s with
    | Some t => exec f p t o caps
    | None => None
    end.
Proof.
  intros Hi. induction w as [| a w IH]; intros s o caps; simpl.
  - reflexivity.
  - destruct s as [| b s]; [reflexivity |]. rewrite Hi.
    destruct (N.eqb (lower b) (lower a)); [apply IH | reflexivity].
Qed.

(** A greedy run that stops at the first character outside the class:
    if what follows succeeds right there, nothing is given back. *)
Lemma star_max (f : flags) (cs : cset) (k : cont) (w u o : str) (caps : list str) r :
  forallb (cmatch f cs) w = true ->
  (u = [] \/ exists c u', u = c :: u' /\ cmatch f cs c = false) ->
  k u o caps = Some r ->
  star f cs k (w ++ u) o caps = Some r.
Proof.
  intros Hw Hu Hk. induction w as [| c w IH]; simpl in *.
  - destruct Hu as [-> | (c & u' & -> & Hc)]; simpl; [exact Hk | now rewrite Hc].
  - apply andb_prop in Hw as [Hc Hw]. rewrite Hc, (IH Hw). reflexivity.
Qed.

Lemma exec_close_end (f : flags) (a b : str) (caps : list str) :
  exec f [GClose] b (a ++ b) caps = Some (rev (a :: caps), b).
Proof. simpl. now rewrite firstn_app_exact. Qed.

(** [(.+)] under DOTALL takes all that is left, if anything is. *)
Lemma exec_group_dotall (f : flags) (s o : str) (caps : list str) :
  DOTALL f = true ->
  exec f [GOpen; Plus CDot; GClose] s o caps =
    match s with
    | [] => None
    | _ :: _ => Some (rev (s :: caps), [])
    end.
Proof.
  intros Hd. destruct s as [| c s]; [reflexivity |].
  rewrite exec_GOpen, exec_Plus. cbn [cmatch]. rewrite Hd. cbn [orb].
  rewrite <- (app_nil_r s) at 1.
  apply star_max.
  - clear - Hd. induction s; simpl; [reflexivity |]. now rewrite Hd.
  - now left.
  - pose proof (exec_close_end f (c :: s) [] caps) as H.
    rewrite app_nil_r in H. exact H.
Qed.

Lemma strip_space_head (c : char) (s : str) :
  isspace c = true -> strip (c :: s) = strip s.
Proof. intros H. unfold strip. simpl. now rewrite H. Qed.

(** [\s*(.+)] under DOTALL on a non-empty text: the group is the text
    without its leading whitespace, or, when there is nothing else, the
    last whitespace character given back.  Either way it trims to the
    same thing as the text. *)
Lemma star_space_group (f : flags) (s o : str) (caps : list str) :
  DOTALL f = true ->
  s <> [] ->
  exists g,
    star f CSpace (exec f [GOpen; Plus CDot; GClose]) s o caps
      = Some (rev (g :: caps), []) /\
    strip g = strip s.
Proof.
  intros Hd. induction s as [| c s IH]; [congruence | intros _].
  cbn [star cmatch]. destruct (isspace c) eqn:Hc.
  - destruct s as [| d s'].
    + cbn [star]. rewrite !exec_group_dotall by assumption. eauto.
    + destruct IH as (g & -> & Hg); [discriminate |].
      exists g. split; [reflexivity |]. now rewrite strip_space_head.
  - rewrite exec_group_dotall by assumption. eauto.
Qed.

(** [:?\s*(.+)] on what follows the marker. *)
Lemma exec_answer_tail (t o : str) (caps : list str) :
  match t with
  | [] => exec RE_ANSWER_FLAGS ANSWER_TAIL t o caps = None
  | _ :: _ =>
      exists g,
        exec RE_ANSWER_FLAGS ANSWER_TAIL t o caps = Some (rev (g :: caps), []) /\
        (t <> lit ":" -> strip g = strip (drop_colon t))
  end.
Proof.
  destruct t as [| c t]; [reflexivity |].
  unfold ANSWER_TAIL. rewrite exec_Opt, !exec_Star.
  cbn [cmatch RE_ANSWER_FLAGS IGNORECASE].
  rewrite lower_colon. unfold drop_colon.
  destruct (N.eqb_spec c (cp ":")) as [-> | Hc].
  - destruct t as [| d t].
    + cbn [star]. rewrite exec_group_dotall by reflexivity.
      destruct (star_space_group RE_ANSWER_FLAGS (lit ":") o caps eq_refl)
        as (g & Hg & _); [discriminate |].
      exists g. split; [exact Hg | intros H; now elim H].
    + destruct (star_space_group RE_ANSWER_FLAGS (d :: t) o caps eq_refl)
        as (g & Hg & Hs); [discriminate |].
      rewrite Hg. eauto.
  - destruct (star_space_group RE_ANSWER_FLAGS (c :: t) o caps eq_refl)
      as (g & Hg & Hs); [discriminate |].
    rewrite Hg. eauto.
Qed.

Lemma strip_prefix_ci_length (w s t : str) :
  strip_prefix_ci w s = Some t -> length s = (length w + length t)%nat.
Proof.
  revert s. induction w as [| a w IH]; intros s H; simpl in *.
  - now injection H as ->.
  - destruct s as [| b s]; [discriminate |].
    destruct (N.eqb (lower b) (lower a)); [| discriminate].
    simpl. now rewrite (IH _ H).
Qed.

Lemma search_too_short (f : flags) (w : str) (p : pattern) (s : str) :
  IGNORECASE f = true ->
  (length s < length w)%nat ->
  search f (word w ++ p) s = None.
Proof.
  intros Hi. induction s as [| c s IH]; intros Hl.
  - simpl. unfold match_at. rewrite exec_word by assumption.
    destruct (strip_prefix_ci w []) eqn:E; [| reflexivity].
    apply strip_prefix_ci_length in E. simpl in *. lia.
  - cbn [search]. unfold match_at. rewrite exec_word by assumption.
    destruct (strip_prefix_ci w (c :: s)) eqn:E.
    + apply strip_prefix_ci_length in E. lia.
    + apply IH. simpl in Hl. lia.
Qed.

(** [re.search] of the Answer pattern, read off the text that follows
    the first marker. *)
Lemma search_answer (raw t : str) :
  after_first_ci (lit "Answer") raw = Some t ->
  search RE_ANSWER_FLAGS ANSWER_RE raw =
    match t with
    | [] => None
    | _ :: _ => exec RE_ANSWER_FLAGS ANSWER_TAIL t [] []
    end.
Proof.
  unfold ANSWER_RE.
  induction raw as [| c raw IH]; intros H.
  - discriminate.
  - cbn [after_first_ci] in H. cbn [search]. unfold match_at.
    rewrite exec_word by reflexivity.
    destruct (strip_prefix_ci (lit "Answer") (c :: raw)) as [t' |] eqn:E.
    + injection H as ->.
      pose proof (exec_answer_tail t [] []) as Ht.
      destruct t as [| d t].
      * rewrite Ht. apply search_too_short; [reflexivity |].
        apply strip_prefix_ci_length in E. simpl in *. lia.
      * now destruct Ht as (g & -> & _).
    + now apply IH.
Qed.

Lemma startswith_strip_prefix_ci (w s : str) :
  startswith w s = true -> exists t, strip_prefix_ci w s = Some t.
Proof.
  revert s. induction w as [| a w IH]; intros s H; simpl in *; [eauto |].
  destruct s as [| b s]; [discriminate |].
  apply andb_prop in H as [Hab H]. apply N.eqb_eq in Hab as ->.
  rewrite N.eqb_refl. auto.
Qed.

Lemma contains_after_first_ci (w s : str) :
  contains w s = true -> exists t, after_first_ci w s = Some t.
Proof.
  induction s as [| c s IH]; intros H.
  - simpl in H. rewrite orb_false_r in H.
    apply startswith_strip_prefix_ci in H as (t & Ht). simpl. rewrite Ht. eauto.
  - cbn [contains] in H. cbn [after_first_ci].
    destruct (strip_prefix_ci w (c :: s)) as [t |] eqn:E; [eauto |].
    apply orb_prop in H as [H | H]; [| auto].
    apply startswith_strip_prefix_ci in H as (t & Ht). congruence.
Qed.

(** X22: the final answer of a response with the marker, case by case.
    Let [t] be the text after the first [Answer] as [re.IGNORECASE] reads
    it (any letter case, a long s for the s).  If [t] is empty the
    pattern finds nothing and the final answer is the whole response.
    Otherwise the pattern matches; the final answer is [t] without its
    optional leading colon, trimmed, except that a [t] made of the colon
    alone gives the colon. *)
Theorem X22_final_answer_text (raw : str) :
  contains (lit "Answer") raw = true ->
  exists t,
    after_first_ci (lit "Answer") raw = Some t /\
    (t = [] -> search RE_ANSWER_FLAGS ANSWER_RE raw = None /\
               extrair_answer raw = raw) /\
    (t <> [] -> search RE_ANSWER_FLAGS ANSWER_RE raw <> None) /\
    (t <> [] -> t <> lit ":" -> extrair_answer raw = strip (drop_colon t)) /\
    (t = lit ":" -> extrair_answer raw = lit ":").
Proof.
  intros H. destruct (contains_after_first_ci _ _ H) as (t & Ht).
  exists t. split; [exact Ht |].
  unfold extrair_answer. rewrite (search_answer _ _ Ht).
  split; [now intros -> |].
  pose proof (exec_answer_tail t [] []) as He.
  split; [| split].
  - intros Hne. destruct t as [| d t]; [congruence |].
    destruct He as (g & -> & _). discriminate.
  - intros Hne Hc. destruct t as [| d t]; [congruence |].
    destruct He as (g & -> & Hg). simpl. auto.
  - intros ->. reflexivity.
Qed.

(** C7 (a defect of the code): when nothing but a colon follows the
    first [Answer], the pattern [Answer:?\s*(.+)] still matches: its
    group needs one character, so [:?] gives the colon back and the group
    is the colon.  The final answer is then [:], where everything after
    [Answer], an optional colon and whitespace is the empty text. *)
Theorem C7_lone_colon_final_answer (raw : str) :
  contains (lit "Answer") raw = true ->
  after_first_ci (lit "Answer") raw = Some (lit ":") ->
  search RE_ANSWER_FLAGS ANSWER_RE raw <> None /\
  extrair_answer raw = lit ":" /\
  answer_as_specified raw = [] /\
  extrair_answer raw <> answer_as_specified raw /\
  extrair_answer raw <> raw.
Proof.
  intros H Ht.
  assert (Hs : search RE_ANSWER_FLAGS ANSWER_RE raw = Some ([lit ":"], [])).
  { rewrite (search_answer _ _ Ht). reflexivity. }
  assert (He : extrair_answer raw = lit ":").
  { unfold extrair_answer. now rewrite Hs. }
  assert (Ha : answer_as_specified raw = []).
  { unfold answer_as_specified. now rewrite Hs, Ht. }
  split; [now rewrite Hs |]. split; [exact He |]. split; [exact Ha |].
  rewrite He, Ha. split; [discriminate |].
  intros E. rewrite <- E in Ht. discriminate Ht.
Qed.

(** *** The Action pattern *)

Lemma strip_prefix_ci_app (w ac x : str) :
  map lower ac = map lower w -> strip_prefix_ci w (ac ++ x) = Some x.
Proof.
  revert ac. induction w as [| a w IH]; intros ac H.
  - destruct ac; [reflexivity | discriminate].
  - destruct ac as [| b ac]; [discriminate |].
    simpl in H. injection H as Hb H. simpl.
    rewrite Hb, N.eqb_refl. auto.
Qed.

Lemma lstrip_length (s : str) : (length (lstrip s) <= length s)%nat.
Proof.
  induction s as [| c s IH]; simpl; [lia |].
  destruct (isspace c); simpl; lia.
Qed.

Lemma lstrip_fixed_head (c : char) (s : str) :
  lstrip (c :: s) = c :: s -> isspace c = false.
Proof.
  simpl. destruct (isspace c); [| reflexivity].
  intros H. pose proof (lstrip_length s) as L. rewrite H in L. simpl in L. lia.
Qed.

Lemma forallb_letra_range (s : str) :
  forallb letra_ou_sublinhado s = true ->
  forallb (cmatch RE_ACTION_FLAGS (CRange (cp "a") (cp "z") (cp "_"))) s = true.
Proof.
  intros H. rewrite forallb_forall in *. intros c Hc.
  rewrite range_is_letra. auto.
Qed.

(** The rest of the Action pattern on a well-formed occurrence: no
    choice is ever revised, the groups are the name and the argument. *)
Lemma exec_action_tail (ws1 nome ws2 arg rest o : str) (caps : list str) :
  forallb isspace ws1 = true ->
  nome <> [] -> forallb letra_ou_sublinhado nome = true ->
  forallb isspace ws2 = true ->
  arg <> [] -> forallb nao_newline arg = true -> lstrip arg = arg ->
  (rest = [] \/ exists rest', rest = newline :: rest') ->
  exec RE_ACTION_FLAGS ACTION_TAIL
       (ws1 ++ nome ++ (cp ":") :: ws2 ++ arg ++ rest) o caps
    = Some (rev (arg :: nome :: caps), rest).
Proof.
  intros Hw1 Hn0 Hn Hw2 Ha0 Ha Hl Hr.
  destruct nome as [| n0 nome']; [congruence |].
  destruct arg as [| a0 arg']; [congruence |].
  simpl in Hn, Ha. apply andb_prop in Hn as [Hn0' Hn], Ha as [Ha0' Ha].
  unfold ACTION_TAIL. rewrite exec_Star.
  apply star_max; [exact Hw1 | right; eexists _, _; split; [reflexivity |] |].
  { simpl. now apply letra_not_space. }
  rewrite exec_GOpen. cbn [app]. rewrite exec_Plus, range_is_letra, Hn0'.
  apply star_max;
    [now apply forallb_letra_range
    | right; eexists _, _; split; [reflexivity | reflexivity] |].
  rewrite exec_GClose.
  pose proof (firstn_app_exact (n0 :: nome') ((cp ":") :: ws2 ++ a0 :: arg' ++ rest)) as F.
  cbn [app] in F. rewrite F, exec_One. clear F.
  cbn [cmatch RE_ACTION_FLAGS IGNORECASE]. rewrite N.eqb_refl, exec_Star.
  apply star_max; [exact Hw2 | right; eexists _, _; split; [reflexivity |] |].
  { simpl. now apply lstrip_fixed_head in Hl. }
  rewrite exec_GOpen. cbn [app]. rewrite exec_Plus.
  cbn [cmatch RE_ACTION_FLAGS DOTALL orb]. fold (nao_newline a0). rewrite Ha0'.
  apply star_max; [exact Ha | | ].
  - destruct Hr as [-> | (rest' & ->)]; [now left |].
    right. eexists _, _. split; reflexivity.
  - apply (exec_close_end RE_ACTION_FLAGS (a0 :: arg') rest).
Qed.

Lemma forallb_map {A B : Type} (g : B -> bool) (h : A -> B) (l : list A) :
  forallb g (map h l) = forallb (fun x => g (h x)) l.
Proof. induction l as [| x l IH]; simpl; [reflexivity | now rewrite IH]. Qed.

Lemma sem_match_antes_S (f : flags) (p : pattern) (c : char) (s : str) (n : nat) :
  sem_match_antes f p (c :: s) (S n) =
    match match_at f p (c :: s) with
    | None => sem_match_antes f p s n
    | Some _ => false
    end.
Proof.
  unfold sem_match_antes. cbn [seq forallb skipn].
  rewrite <- seq_shift, forallb_map. cbn [skipn].
  now destruct (match_at f p (c :: s)).
Qed.

(** [re.search] returns the match at the first position that has one. *)
Lemma search_at (f : flags) (p : pattern) (n : nat) :
  forall (s : str) r,
    sem_match_antes f p s n = true ->
    match_at f p (skipn n s) = Some r ->
    search f p s = Some r.
Proof.
  induction n as [| n IH]; intros s r Hb Hm.
  - simpl in Hm. destruct s; simpl; now rewrite Hm.
  - destruct s as [| c s].
    + simpl in Hm. unfold sem_match_antes in Hb. simpl in Hb.
      rewrite Hm in Hb. discriminate.
    + rewrite sem_match_antes_S in Hb. cbn [search].
      destruct (match_at f p (c :: s)); [discriminate |].
      apply IH; [exact Hb | exact Hm].
Qed.

Lemma skipn_length_app {A : Type} (a b : list A) : skipn (length a) (a ++ b) = b.
Proof. induction a; simpl; auto. Qed.

(** [re.findall(...)[0]] is the match [re.search] returns. *)
Lemma findall_head (f : flags) (p : pattern) (s : str) groups rest :
  search f p s = Some (groups, rest) ->
  exists ms, findall f p s = groups :: ms.
Proof. intros H. unfold findall. cbn [findall_from]. rewrite H. eauto. Qed.

Lemma findall_action_em (r pre nome arg : str) :
  action_em r pre nome arg ->
  sem_match_antes RE_ACTION_FLAGS ACTION_RE r (length pre) = true ->
  exists ms, findall RE_ACTION_FLAGS ACTION_RE r = [nome; arg] :: ms.
Proof.
  intros (ac & ws1 & ws2 & rest & -> & Hac & Hw1 & Hn0 & Hn & Hw2 & Ha0 & Ha & Hl & Hr) Hb.
  apply findall_head with (rest := rest).
  apply (search_at _ _ _ _ _ Hb).
  rewrite skipn_length_app. unfold match_at, ACTION_RE.
  rewrite exec_word by reflexivity.
  rewrite strip_prefix_ci_app by exact Hac.
  now apply exec_action_tail.
Qed.

Lemma lstrip_letras (s : str) :
  forallb letra_ou_sublinhado s = true -> lstrip s = s.
Proof.
  destruct s as [| c s]; [reflexivity |]. simpl. intros H.
  apply andb_prop in H as [H _]. now rewrite (letra_not_space _ H).
Qed.

Lemma strip_letras (s : str) :
  forallb letra_ou_sublinhado s = true -> strip s = s.
Proof.
  intros H. unfold strip, rstrip. rewrite (lstrip_letras _ H).
  rewrite lstrip_letras; [apply rev_involutive |].
  rewrite forallb_forall in *. intros c Hc. apply H. now apply in_rev.
Qed.

Section ActionTurn.

Variable llm : list message -> llm_result.
Variable get_country_info : str -> tool_result.
Variable convert_currency : str -> str -> tool_result.

Local Abbreviation despacha := (despachar get_country_info convert_currency).
Local Abbreviation passa := (iteracao llm get_country_info convert_currency).

(** C4 (as the code has it): in a turn with PAUSE and Action and
    without Answer, the tool name and argument come from the first match
    of the pattern, which reads [Action:] and the name in any letter case
    and lets whitespace (line breaks too) follow each colon.  So when the
    turn holds a well-formed [Action: name: arg] whose name is made of
    letters of either case and underscores, and no match starts before
    it, the record carries exactly that name and the trimmed argument,
    and the dispatch is made on them; later matches play no part. *)
Theorem C4_first_action_match
        (max_iterations i : Z) (st : estado)
        (ag : Agent) (r : str) (sent : list message)
        (pre nome arg : str) :
  Agent_call llm (agente st)
             (prompt_da_iteracao max_iterations i (proximo_prompt st))
    = (ag, Resposta r, sent) ->
  contains (lit "Answer") r = false ->
  contains (lit "PAUSE") r = true ->
  contains (lit "Action") r = true ->
  action_em r pre nome arg ->
  sem_match_antes RE_ACTION_FLAGS ACTION_RE r (length pre) = true ->
  hd_error (findall RE_ACTION_FLAGS ACTION_RE r) = Some [nome; arg] /\
  exists st',
    passa max_iterations i st = Continua st' /\
    iteracoes (log st') = iteracoes (log st) ++
      [{| numero := i; resposta_llm := r;
          ferramenta_chamada := Some nome;
          argumento := Some (strip arg);
          resultado_ferramenta := Some (fst (despacha nome (strip arg))) |}] /\
    proximo_prompt st' = lit "Observation: " ++ fst (despacha nome (strip arg)) /\
    eventos st' = eventos st ++ EvLLM sent :: snd (despacha nome (strip arg)).
Proof.
  intros Hc Ha Hp Hact Hem Hb.
  destruct (findall_action_em _ _ _ _ Hem Hb) as (ms & Hf).
  split; [now rewrite Hf |].
  assert (Hn : strip nome = nome).
  { destruct Hem as (ac & ws1 & ws2 & rest & _ & _ & _ & _ & Hn & _).
    now apply strip_letras. }
  unfold iteracao. rewrite Hc, Ha, Hp, Hact, Hf. cbn [andb nth].
  rewrite Hn. destruct (despacha nome (strip arg)) as [obs chamadas].
  eexists. split; [reflexivity |]. simpl. rewrite <- app_assoc. auto.
Qed.

End ActionTurn.

(** ** The statements on concrete runs *)

Lemma C1_answer_marker_ends_loop_witness :
  contains (lit "Answer") r_mista = true /\
  exists st',
    iteracao (llm_roteiro [Resposta r_mista]) gci_fixo cc_fixo 5 1 estado0
      = Interrompe st' /\
    laco (llm_roteiro [Resposta r_mista]) gci_fixo cc_fixo 5 5 1 estado0
      = (st', None) /\
    resultado_final st' = extrair_answer r_mista /\
    sucesso (log st') = true /\
    iteracoes (log st') = iteracoes (log estado0) ++ [registro_simples 1 r_mista] /\
    eventos st' =
      eventos estado0 ++ [EvLLM (snd (chamada0 (llm_roteiro [Resposta r_mista])))].
Proof.
  split; [reflexivity |].
  apply (C1_answer_marker_ends_loop
           (llm_roteiro [Resposta r_mista]) gci_fixo cc_fixo 5 1 4 estado0
           (fst (fst (chamada0 (llm_roteiro [Resposta r_mista])))) r_mista
           (snd (chamada0 (llm_roteiro [Resposta r_mista]))));
    reflexivity.
Defined.

(** C1, as stated, fails: the test for the marker is case-sensitive.  A
    turn that holds [answer] in lower case next to an Action block is not
    taken as an answer; the tool is called and the loop goes on. *)
Lemma C1_counterexample_lowercase_marker :
  contains_ci (lit "Answer") r_minuscula = true /\
  exists st',
    iteracao (llm_roteiro [Resposta r_minuscula]) gci_fixo cc_fixo 5 1 estado0
      = Continua st' /\
    sucesso (log st') = false /\
    resultado_final st' = [] /\
    filter is_tool_call (eventos st') =
      [EvTool (lit "get_country_info") [lit "Brazil"]].
Proof.
  split; [reflexivity |]. eexists. split; [vm_compute; reflexivity |].
  repeat split.
Qed.

Lemma C5_unregistered_tool_observation_witness :
  ~ In (lit "lookup_tool") (map fst FERRAMENTAS) /\
  exists st',
    iteracao (llm_roteiro [Resposta r_desconhecida]) gci_fixo cc_fixo 5 1 estado0
      = Continua st' /\
    proximo_prompt st' = lit "Observation: ERROR: ferramenta nao encontrada" /\
    iteracoes (log st') = iteracoes (log estado0) ++
      [{| numero := 1; resposta_llm := r_desconhecida;
          ferramenta_chamada := Some (strip (nth 0 [lit "lookup_tool"; lit "Brazil"] []));
          argumento := Some (strip (nth 1 [lit "lookup_tool"; lit "Brazil"] []));
          resultado_ferramenta := Some (lit "ERROR: ferramenta nao encontrada") |}] /\
    filter is_tool_call (eventos st') = filter is_tool_call (eventos estado0) /\
    eventos st' =
      eventos estado0 ++ [EvLLM (snd (chamada0 (llm_roteiro [Resposta r_desconhecida])))].
Proof.
  assert (Hn : ~ In (lit "lookup_tool") (map fst FERRAMENTAS)).
  { simpl. intros [H | [H | []]]; discriminate H. }
  split; [exact Hn |].
  apply (C5_unregistered_tool_observation
           (llm_roteiro [Resposta r_desconhecida]) gci_fixo cc_fixo 5 1 estado0
           (fst (fst (chamada0 (llm_roteiro [Resposta r_desconhecida]))))
           r_desconhecida
           (snd (chamada0 (llm_roteiro [Resposta r_desconhecida])))
           [lit "lookup_tool"; lit "Brazil"] []);
    try reflexivity.
  exact Hn.
Defined.

Lemma C4_first_action_match_witness :
  action_em r_duas_actions (lit "Thought: need data" ++ nl)
            (lit "get_country_info") (lit "Japan ") /\
  hd_error (findall RE_ACTION_FLAGS ACTION_RE r_duas_actions)
    = Some [lit "get_country_info"; lit "Japan "] /\
  exists st',
    iteracao (llm_roteiro [Resposta r_duas_actions]) gci_fixo cc_fixo 5 1 estado0
      = Continua st' /\
    iteracoes (log st') = iteracoes (log estado0) ++
      [{| numero := 1; resposta_llm := r_duas_actions;
          ferramenta_chamada := Some (lit "get_country_info");
          argumento := Some (strip (lit "Japan "));
          resultado_ferramenta :=
            Some (fst (despachar gci_fixo cc_fixo (lit "get_country_info")
                                 (strip (lit "Japan ")))) |}] /\
    proximo_prompt st' =
      lit "Observation: " ++
      fst (despachar gci_fixo cc_fixo (lit "get_country_info") (strip (lit "Japan "))) /\
    eventos st' =
      eventos estado0 ++
      EvLLM (snd (chamada0 (llm_roteiro [Resposta r_duas_actions]))) ::
      snd (despachar gci_fixo cc_fixo (lit "get_country_info") (strip (lit "Japan "))).
Proof.
  assert (Hem : action_em r_duas_actions (lit "Thought: need data" ++ nl)
                          (lit "get_country_info") (lit "Japan ")).
  { exists (lit "Action:"), (lit " "), (lit "  "),
      (nl ++ lit "PAUSE" ++ nl ++ lit "Action: convert_currency: BRL, JPY").
    repeat split; try reflexivity; try discriminate.
    right. eexists. reflexivity. }
  split; [exact Hem |].
  apply (C4_first_action_match
           (llm_roteiro [Resposta r_duas_actions]) gci_fixo cc_fixo 5 1 estado0
           (fst (fst (chamada0 (llm_roteiro [Resposta r_duas_actions]))))
           r_duas_actions
           (snd (chamada0 (llm_roteiro [Resposta r_duas_actions])))
           (lit "Thought: need data" ++ nl) (lit "get_country_info") (lit "Japan "));
    try reflexivity.
  exact Hem.
Defined.

(** C4, as stated, fails: the pattern is matched case-insensitively, so
    a tool name in upper case is a match too.  Here the first line with a
    lower-case tool name is the second one ([bar], [y]), yet the loop
    takes [FOO] and [x] from the line before it. *)
Lemma C4_counterexample_uppercase_name :
  contains (lit "Answer") r_maiuscula = false /\
  contains (lit "PAUSE") r_maiuscula = true /\
  contains (lit "Action") r_maiuscula = true /\
  action_as_specified r_maiuscula = Some (lit "bar", lit "y") /\
  hd_error (findall RE_ACTION_FLAGS ACTION_RE r_maiuscula) = Some [lit "FOO"; lit "x"] /\
  exists st',
    iteracao (llm_roteiro [Resposta r_maiuscula]) gci_fixo cc_fixo 5 1 estado0
      = Continua st' /\
    map ferramenta_chamada (iteracoes (log st')) = [Some (lit "FOO")] /\
    map argumento (iteracoes (log st')) = [Some (lit "x")].
Proof.
  repeat (split; [reflexivity |]).
  eexists. split; [vm_compute; reflexivity |]. split; reflexivity.
Qed.

Lemma X22_final_answer_text_witness :
  contains (lit "Answer") r_answer = true /\
  exists t,
    after_first_ci (lit "Answer") r_answer = Some t /\
    (t = [] -> search RE_ANSWER_FLAGS ANSWER_RE r_answer = None /\
               extrair_answer r_answer = r_answer) /\
    (t <> [] -> search RE_ANSWER_FLAGS ANSWER_RE r_answer <> None) /\
    (t <> [] -> t <> lit ":" -> extrair_answer r_answer = strip (drop_colon t)) /\
    (t = lit ":" -> extrair_answer r_answer = lit ":").
Proof.
  split; [reflexivity |].
  apply (X22_final_answer_text r_answer). reflexivity.
Defined.

Lemma C7_lone_colon_final_answer_witness :
  contains (lit "Answer") (lit "Answer:") = true /\
  after_first_ci (lit "Answer") (lit "Answer:") = Some (lit ":") /\
  search RE_ANSWER_FLAGS ANSWER_RE (lit "Answer:") <> None /\
  extrair_answer (lit "Answer:") = lit ":" /\
  answer_as_specified (lit "Answer:") = [] /\
  extrair_answer (lit "Answer:") <> answer_as_specified (lit "Answer:") /\
  extrair_answer (lit "Answer:") <> lit "Answer:".
Proof.
  split; [reflexivity |]. split; [reflexivity |].
  apply (C7_lone_colon_final_answer (lit "Answer:")); reflexivity.
Defined.

(** The whole run on that response: the colon is what [agent_loop]
    returns and what the log records as the final answer. *)
Example run_lone_colon :
  let run := agent_loop_with (llm_roteiro [Resposta (lit "Answer:")]) gci_fixo cc_fixo
                             agora gravar_ok sys0 (lit "Brasil") (lit "Japao") 5 (lit "log") in
  fst run = Retornou (lit ":") /\
  resposta_final (log (snd run)) = lit ":" /\
  sucesso (log (snd run)) = true.
Proof. repeat split. Qed.

(** The first marker is found as [re.IGNORECASE] reads it: a long s
    counts as an s. *)
Example answer_long_s :
  extrair_answer (lit "An" ++ [0x17F%N] ++ lit "wer: x. Answer: y") = lit "x. Answer: y" /\
  after_first_ci (lit "Answer") (lit "An" ++ [0x17F%N] ++ lit "wer: x. Answer: y")
    = Some (lit ": x. Answer: y").
Proof. split; reflexivity. Qed.

Lemma C2_one_record_per_iteration_witness :
  (1 <= 5)%Z /\
  (forall msgs, exists r, llm_roteiro roteiro_completo msgs = Resposta r) /\
  exists st,
    agent_loop_with (llm_roteiro roteiro_completo) gci_fixo cc_fixo agora gravar_ok
                    sys0 (lit "Brasil") (lit "Japao") 5 (lit "log")
      = (Retornou (resultado_final st), st) /\
    (Z.of_nat (length (iteracoes (log st))) <= 5)%Z /\
    length (filter is_llm_call (eventos st)) = length (iteracoes (log st)) /\
    map numero (iteracoes (log st)) =
      map Z.of_nat (seq 1 (length (iteracoes (log st)))) /\
    iteracoes_utilizadas (log st) = Z.of_nat (length (iteracoes (log st))).
Proof.
  assert (Hll : forall msgs, exists r, llm_roteiro roteiro_completo msgs = Resposta r).
  { intros msgs. unfold llm_roteiro.
    destruct (conta_assistant msgs) as [| [| [| k]]]; simpl; eauto.
    destruct k; eauto. }
  split; [lia |]. split; [exact Hll |].
  exact (C2_one_record_per_iteration
           (llm_roteiro roteiro_completo) gci_fixo cc_fixo agora gravar_ok
           sys0 (lit "Brasil") (lit "Japao") (lit "log") 5 ltac:(lia) Hll).
Defined.

Lemma C6_budget_exhaustion_witness :
  (0 <= 3)%Z /\
  (forall msgs, exists r, llm_roteiro [] msgs = Resposta r) /\
  Forall sem_answer
    (iteracoes (log (snd (agent_loop_with (llm_roteiro []) gci_fixo cc_fixo agora gravar_ok
                            sys0 (lit "Brasil") (lit "Japao") 3 (lit "log"))))) /\
  exists st,
    agent_loop_with (llm_roteiro []) gci_fixo cc_fixo agora gravar_ok
                    sys0 (lit "Brasil") (lit "Japao") 3 (lit "log")
      = (Retornou [], st) /\
    Z.of_nat (length (iteracoes (log st))) = 3%Z /\
    Z.of_nat (length (filter is_llm_call (eventos st))) = 3%Z /\
    iteracoes_utilizadas (log st) = 3%Z /\
    sucesso (log st) = false /\
    resposta_final (log st) = [].
Proof.
  assert (Hll : forall msgs, exists r, llm_roteiro [] msgs = Resposta r).
  { intros msgs. unfold llm_roteiro. destruct (conta_assistant msgs); simpl; eauto. }
  assert (Hna : Forall sem_answer
    (iteracoes (log (snd (agent_loop_with (llm_roteiro []) gci_fixo cc_fixo agora gravar_ok
                            sys0 (lit "Brasil") (lit "Japao") 3 (lit "log")))))).
  { vm_compute. repeat constructor. }
  split; [lia |]. split; [exact Hll |]. split; [exact Hna |].
  exact (C6_budget_exhaustion
           (llm_roteiro []) gci_fixo cc_fixo agora gravar_ok
           sys0 (lit "Brasil") (lit "Japao") (lit "log") 3 ltac:(lia) Hll Hna).
Defined.

Lemma C9_endpoint_failure_propagates_witness :
  llm_roteiro roteiro_falha transcript_segunda = Falha (Erro (lit "timeout")) /\
  exists st,
    agent_loop_with (llm_roteiro roteiro_falha) gci_fixo cc_fixo agora gravar_ok
                    sys0 (lit "Brasil") (lit "Japao") 5 (lit "log")
      = (Levantou (Erro (lit "timeout")), st) /\
    iteracoes_utilizadas (log st) = 0%Z /\
    resposta_final (log st) = [] /\
    filter is_write (eventos st) = [].
Proof.
  split; [reflexivity |].
  apply (C9_endpoint_failure_propagates
           (llm_roteiro roteiro_falha) gci_fixo cc_fixo agora gravar_ok
           sys0 (lit "Brasil") (lit "Japao") (lit "log") 5
           transcript_segunda (Erro (lit "timeout"))).
  - vm_compute. right. left. reflexivity.
  - reflexivity.
Defined.

Lemma C8_transcript_grows_by_turns_witness :
  sys0 <> [] /\
  let apos j := laco (llm_roteiro roteiro_completo) gci_fixo cc_fixo 5 j 1
                     (estado_inicial agora sys0 (lit "Brasil") (lit "Japao") 5) in
  exists turnos pend,
    messages (agente (fst (apos 2%nat))) = system_msg sys0 :: dialogo turnos ++ pend /\
    length turnos = length (iteracoes (log (fst (apos 2%nat)))) /\
    map snd turnos = map resposta_llm (iteracoes (log (fst (apos 2%nat)))) /\
    (snd (apos 2%nat) = None -> pend = []) /\
    (forall e, snd (apos 2%nat) = Some e -> exists u, pend = [user_msg u]) /\
    (exists mais,
       messages (agente (fst (apos 3%nat))) =
       messages (agente (fst (apos 2%nat))) ++ mais) /\
    (forall log_file,
       agente (snd (agent_loop_with (llm_roteiro roteiro_completo) gci_fixo cc_fixo agora gravar_ok
                      sys0 (lit "Brasil") (lit "Japao") 5 log_file)) =
       agente (fst (apos (Z.to_nat 5)))).
Proof.
  split; [discriminate |].
  apply (C8_transcript_grows_by_turns
           (llm_roteiro roteiro_completo) gci_fixo cc_fixo agora gravar_ok
           sys0 (lit "Brasil") (lit "Japao") 5 2).
  discriminate.
Defined.

(** ** The scenarios of the specification *)

(** Scenario A: four turns of plain reasoning, then an answer. *)
Example cenario_A :
  let run := agent_loop_with
               (llm_roteiro [Resposta r_thought; Resposta r_thought; Resposta r_thought;
                             Resposta r_thought; Resposta (lit "Answer: Brasil vs Japao")])
               gci_fixo cc_fixo agora gravar_ok sys0 (lit "Brasil") (lit "Japao") 5 (lit "log") in
  fst run = Retornou (lit "Brasil vs Japao") /\
  sucesso (log (snd run)) = true /\
  iteracoes_utilizadas (log (snd run)) = 5%Z /\
  resposta_final (log (snd run)) = lit "Brasil vs Japao".
Proof. repeat split. Qed.

(** Scenario B: neither marker ever shows up. *)
Example cenario_B :
  let run := agent_loop_with (llm_roteiro []) gci_fixo cc_fixo agora gravar_ok
                             sys0 (lit "Brasil") (lit "Japao") 3 (lit "log") in
  fst run = Retornou [] /\
  sucesso (log (snd run)) = false /\
  iteracoes_utilizadas (log (snd run)) = 3%Z.
Proof. repeat split. Qed.

(** Scenario C: the observation of an unknown tool is the next prompt. *)
Example cenario_C :
  let run := laco (llm_roteiro [Resposta r_desconhecida]) gci_fixo cc_fixo 5 1 1 estado0 in
  proximo_prompt (fst run) = lit "Observation: ERROR: ferramenta nao encontrada" /\
  snd run = None.
Proof. split; reflexivity. Qed.

(** Scenario D: one argument where convert_currency wants two. *)
Example cenario_D :
  let run := laco (llm_roteiro
                     [Resposta (lit "Action: convert_currency: USD" ++ nl ++ lit "PAUSE")])
                  gci_fixo cc_fixo 5 1 1 estado0 in
  proximo_prompt (fst run) =
    lit "Observation: ERROR: convert_currency requer 2 argumentos" /\
  filter is_tool_call (eventos (fst run)) = [].
Proof. split; reflexivity. Qed.

(** * Further properties of the loop *)

Section MoreLoopFacts.

Variable llm : list message -> llm_result.
Variable get_country_info : str -> tool_result.
Variable convert_currency : str -> str -> tool_result.
Variable now : str.
Variable gravar : str -> AgentLog -> option excecao.

Local Abbreviation despacha := (despachar get_country_info convert_currency).
Local Abbreviation passa := (iteracao llm get_country_info convert_currency).
Local Abbreviation roda := (laco llm get_country_info convert_currency).
Local Abbreviation executa :=
  (agent_loop_with llm get_country_info convert_currency now gravar).
Local Abbreviation salva := (_salvar_log gravar).
Local Abbreviation coerente := (registro_coerente get_country_info convert_currency).

(** The four ways through the body, with the state each one leaves. *)
Lemma iteracao_casos (max_iterations i : Z) (st : estado) :
  truthy (proximo_prompt st) = true ->
  let p := prompt_da_iteracao max_iterations i (proximo_prompt st) in
  let sent := enviado max_iterations i st in
  (exists e,
     llm sent = Falha e /\
     passa max_iterations i st =
       Excecao e
         {| agente := {| system := system (agente st); messages := sent |};
            log := log st; proximo_prompt := p;
            resultado_final := resultado_final st;
            eventos := eventos st ++ [EvLLM sent] |}) \/
  (exists r,
     llm sent = Resposta r /\ contains (lit "Answer") r = true /\
     passa max_iterations i st =
       Interrompe
         {| agente := {| system := system (agente st);
                         messages := sent ++ [assistant_msg r] |};
            log := log_append (log_set_sucesso (log st) true) (registro_simples i r);
            proximo_prompt := p;
            resultado_final := extrair_answer r;
            eventos := eventos st ++ [EvLLM sent] |}) \/
  (exists r,
     llm sent = Resposta r /\ contains (lit "Answer") r = false /\
     (contains (lit "PAUSE") r && contains (lit "Action") r = false \/
      findall RE_ACTION_FLAGS ACTION_RE r = []) /\
     passa max_iterations i st =
       Continua
         {| agente := {| system := system (agente st);
                         messages := sent ++ [assistant_msg r] |};
            log := log_append (log st) (registro_simples i r);
            proximo_prompt := p;
            resultado_final := resultado_final st;
            eventos := eventos st ++ [EvLLM sent] |}) \/
  (exists r m ms,
     llm sent = Resposta r /\ contains (lit "Answer") r = false /\
     contains (lit "PAUSE") r = true /\ contains (lit "Action") r = true /\
     findall RE_ACTION_FLAGS ACTION_RE r = m :: ms /\
     passa max_iterations i st =
       Continua
         {| agente := {| system := system (agente st);
                         messages := sent ++ [assistant_msg r] |};
            log := log_append (log st)
                     {| numero := i; resposta_llm := r;
                        ferramenta_chamada := Some (strip (nth 0 m []));
                        argumento := Some (strip (nth 1 m []));
                        resultado_ferramenta :=
                          Some (fst (despacha (strip (nth 0 m [])) (strip (nth 1 m [])))) |};
            proximo_prompt :=
              lit "Observation: " ++ fst (despacha (strip (nth 0 m [])) (strip (nth 1 m [])));
            resultado_final := resultado_final st;
            eventos := (eventos st ++ [EvLLM sent]) ++
                       snd (despacha (strip (nth 0 m [])) (strip (nth 1 m []))) |}).
Proof.
  intros Hp p sent.
  pose proof (prompt_da_iteracao_truthy max_iterations i _ Hp) as Hq.
  unfold iteracao. rewrite (Agent_call_truthy _ _ _ Hq).
  fold (enviado max_iterations i st). fold sent. fold p.
  destruct (llm sent) as [r | e] eqn:El; [| left; eauto].
  right. destruct (contains (lit "Answer") r) eqn:Ea; [left; eauto |].
  right.
  destruct (contains (lit "PAUSE") r && contains (lit "Action") r) eqn:E1.
  - destruct (findall RE_ACTION_FLAGS ACTION_RE r) as [| m ms] eqn:Ef.
    + left. exists r. repeat split; auto.
    + right. exists r, m, ms. apply andb_prop in E1 as [E1 E2].
      destruct (despacha (strip (nth 0 m [])) (strip (nth 1 m []))) as [obs chamadas].
      repeat split; auto.
  - left. exists r. repeat split; auto.
Qed.

(* Induction on the passes left; the first pass split by [iteracao_casos]. *)
Ltac por_casos mx n IH Hp H :=
  induction n as [| n IH]; intros i st st' oe Hp H;
  [ simpl in H; injection H as <- <-
  | rewrite laco_S in H;
    destruct (iteracao_casos mx i st Hp)
      as [ (e & Hl & Hit)
         | [ (r & Hl & Ha & Hit)
           | [ (r & Hl & Ha & Hm & Hit)
             | (r & m & ms & Hl & Ha & Hpa & Hac & Hf & Hit) ] ] ];
    rewrite Hit in H;
    [ injection H as <- <- | injection H as <- <-
    | pose proof (prompt_da_iteracao_truthy mx i _ Hp) as Hq | ] ].

(** How a run ends up successful: either no new record holds the
    marker and nothing about success changes, or the last new record is
    the plain record of a response with the marker. *)
Lemma laco_sucesso (max_iterations : Z) (n : nat) :
  forall (i : Z) (st st' : estado) (oe : option excecao),
    truthy (proximo_prompt st) = true ->
    roda max_iterations n i st = (st', oe) ->
    exists recs,
      iteracoes (log st') = iteracoes (log st) ++ recs /\
      ((Forall sem_answer recs /\ sucesso (log st') = sucesso (log st) /\
        resultado_final st' = resultado_final st) \/
       (oe = None /\
        exists recs0 j r,
          recs = recs0 ++ [registro_simples j r] /\ Forall sem_answer recs0 /\
          contains (lit "Answer") r = true /\
          sucesso (log st') = true /\ resultado_final st' = extrair_answer r)).
Proof.
  por_casos max_iterations n IH Hp H.
  - exists []. rewrite app_nil_r. auto.
  - exists []. rewrite app_nil_r. auto.
  - exists [registro_simples i r]. split; [reflexivity |]. right.
    split; [reflexivity |]. exists [], i, r. auto.
  - apply IH in H as (recs & E1 & E2); [| exact Hq].
    exists (registro_simples i r :: recs). rewrite E1. simpl. rewrite <- app_assoc.
    split; [reflexivity |].
    destruct E2 as [(F & S1 & R1) | (Ho & recs0 & j & r' & -> & F & A' & S1 & R1)].
    + left. repeat split; auto.
    + right. split; [exact Ho |]. exists (registro_simples i r :: recs0), j, r'.
      repeat split; auto.
  - apply IH in H as (recs & E1 & E2); [| reflexivity].
    eexists (_ :: recs). rewrite E1. simpl. rewrite <- app_assoc.
    split; [reflexivity |].
    destruct E2 as [(F & S1 & R1) | (Ho & recs0 & j & r' & -> & F & A' & S1 & R1)].
    + left. repeat split; auto.
    + right. split; [exact Ho |]. eexists (_ :: recs0), j, r'.
      repeat split; auto.
Qed.

(** The transcript rebuilt from the records: each pass sent the prompt
    the pass before it left. *)
Lemma laco_prompts (max_iterations : Z) (n : nat) :
  forall (i : Z) (st st' : estado) (oe : option excecao),
    truthy (proximo_prompt st) = true ->
    roda max_iterations n i st = (st', oe) ->
    exists recs,
      iteracoes (log st') = iteracoes (log st) ++ recs /\
      messages (agente st') =
        messages (agente st) ++
        dialogo (combine (prompts_da_execucao max_iterations i (proximo_prompt st) recs)
                         (map resposta_llm recs)) ++
        match oe with
        | None => []
        | Some _ => [user_msg (prompt_pendente max_iterations i (proximo_prompt st) recs)]
        end.
Proof.
  por_casos max_iterations n IH Hp H.
  - exists []. simpl. now rewrite !app_nil_r.
  - exists []. simpl. now rewrite app_nil_r.
  - exists [registro_simples i r]. simpl. unfold enviado.
    rewrite <- app_assoc. auto.
  - apply IH in H as (recs & E1 & E2); [| exact Hq].
    exists (registro_simples i r :: recs). rewrite E1, E2. simpl.
    unfold enviado, prompt_apos. simpl. rewrite <- !app_assoc. auto.
  - apply IH in H as (recs & E1 & E2); [| reflexivity].
    eexists (_ :: recs). rewrite E1, E2. simpl.
    unfold enviado, prompt_apos. simpl. rewrite <- !app_assoc. split; reflexivity.
Qed.

Lemma despachar_no_maximo_uma (nome arg : str) :
  (length (snd (despacha nome arg)) <= 1)%nat.
Proof.
  unfold despachar.
  destruct (registry_get nome FERRAMENTAS); [| simpl; lia].
  destruct (eqb_str nome _); [| simpl; lia].
  destruct (_ =? 2)%nat; simpl; lia.
Qed.

(** Every record is coherent, and tools are called at most once per
    record that carries a tool. *)
Lemma laco_coerente (max_iterations : Z) (n : nat) :
  forall (i : Z) (st st' : estado) (oe : option excecao),
    truthy (proximo_prompt st) = true ->
    roda max_iterations n i st = (st', oe) ->
    exists recs evs,
      iteracoes (log st') = iteracoes (log st) ++ recs /\
      eventos st' = eventos st ++ evs /\
      Forall coerente recs /\
      (length (filter is_tool_call evs) <= length (filter tem_ferramenta recs))%nat.
Proof.
  assert (Hplain : forall i r, coerente (registro_simples i r)) by (intros; exact I).
  por_casos max_iterations n IH Hp H.
  - exists [], []. rewrite !app_nil_r. auto.
  - exists [], [EvLLM (enviado max_iterations i st)]. rewrite app_nil_r.
    split; [reflexivity |]. split; [reflexivity |]. split; [constructor | apply Nat.le_refl].
  - exists [registro_simples i r], [EvLLM (enviado max_iterations i st)].
    split; [reflexivity |]. split; [reflexivity |].
    split; [constructor; [apply Hplain | constructor] | apply Nat.le_refl].
  - apply IH in H as (recs & evs & E1 & E2 & E3 & E4); [| exact Hq].
    exists (registro_simples i r :: recs), (EvLLM (enviado max_iterations i st) :: evs).
    rewrite E1, E2. cbn [log eventos iteracoes log_append].
    rewrite <- !app_assoc.
    split; [reflexivity |]. split; [reflexivity |].
    split; [constructor; [apply Hplain | exact E3] | exact E4].
  - apply IH in H as (recs & evs & E1 & E2 & E3 & E4); [| reflexivity].
    set (nome := strip (nth 0 m [])) in *. set (arg := strip (nth 1 m [])) in *.
    exists ({| numero := i; resposta_llm := r; ferramenta_chamada := Some nome;
               argumento := Some arg;
               resultado_ferramenta := Some (fst (despacha nome arg)) |} :: recs),
           (EvLLM (enviado max_iterations i st) :: snd (despacha nome arg) ++ evs).
    rewrite E1, E2. cbn [log eventos iteracoes log_append].
    rewrite <- !app_assoc.
    split; [reflexivity |]. split; [reflexivity |]. split.
    + constructor; [| exact E3].
      unfold registro_coerente.
      cbn [ferramenta_chamada argumento resultado_ferramenta resposta_llm].
      split; [exact Ha |]. split; [exact Hpa |]. split; [exact Hac |].
      split; [| reflexivity]. exists m, ms. split; [exact Hf |]. split; reflexivity.
    + cbn [filter is_tool_call tem_ferramenta ferramenta_chamada length].
      rewrite filter_app, length_app.
      pose proof (despachar_no_maximo_uma nome arg) as L1.
      pose proof (filter_length_le is_tool_call (snd (despacha nome arg))) as L2.
      lia.
Qed.

(** Every transcript sent starts like the agent's transcript did. *)
Lemma laco_transcritos (max_iterations : Z) (n : nat) (primeira : message) :
  forall (i : Z) (st st' : estado) (oe : option excecao),
    truthy (proximo_prompt st) = true ->
    roda max_iterations n i st = (st', oe) ->
    (exists t, messages (agente st) = primeira :: t) ->
    (forall msgs, In (EvLLM msgs) (eventos st) -> exists t, msgs = primeira :: t) ->
    forall msgs, In (EvLLM msgs) (eventos st') -> exists t, msgs = primeira :: t.
Proof.
  assert (Hsent : forall i st, (exists t, messages (agente st) = primeira :: t) ->
                  exists t, enviado max_iterations i st = primeira :: t).
  { intros i st (t & Ht). unfold enviado. rewrite Ht. simpl. eauto. }
  assert (Hin : forall i st,
             (exists t, messages (agente st) = primeira :: t) ->
             (forall msgs, In (EvLLM msgs) (eventos st) -> exists t, msgs = primeira :: t) ->
             forall msgs, In (EvLLM msgs) (eventos st ++ [EvLLM (enviado max_iterations i st)]) ->
                          exists t, msgs = primeira :: t).
  { intros i st Hpri He msgs Hi. apply in_app_or in Hi as [Hi | [[= <-] | []]]; auto. }
  por_casos max_iterations n IH Hp H; intros Hpri He.
  - exact He.
  - cbn [eventos]. exact (Hin i st Hpri He).
  - cbn [eventos]. exact (Hin i st Hpri He).
  - eapply IH; [ | exact H | | ]; cbn [agente messages eventos proximo_prompt].
    + exact Hq.
    + destruct (Hsent i st Hpri) as (t & ->). simpl. eauto.
    + exact (Hin i st Hpri He).
  - eapply IH; [ | exact H | | ]; cbn [agente messages eventos proximo_prompt].
    + reflexivity.
    + destruct (Hsent i st Hpri) as (t & ->). simpl. eauto.
    + intros msgs Hi. apply in_app_or in Hi as [Hi | Hi]; [exact (Hin i st Hpri He msgs Hi) |].
      pose proof (despachar_so_ferramentas get_country_info convert_currency
                    (strip (nth 0 m [])) (strip (nth 1 m []))) as Ht.
      rewrite forallb_forall in Ht. apply Ht in Hi. discriminate.
Qed.

Lemma dialogo_prompts_snoc (max_iterations : Z) (recs0 : list AgentIteration)
      (reg : AgentIteration) :
  forall (i : Z) (p : str),
    dialogo (combine (prompts_da_execucao max_iterations i p (recs0 ++ [reg]))
                     (map resposta_llm (recs0 ++ [reg]))) =
    dialogo (combine (prompts_da_execucao max_iterations i p recs0)
                     (map resposta_llm recs0)) ++
    [user_msg (prompt_pendente max_iterations i p recs0);
     assistant_msg (resposta_llm reg)].
Proof.
  induction recs0 as [| a recs0 IH]; intros i p; simpl; [reflexivity |].
  now rewrite IH.
Qed.

Lemma prompt_pendente_final (max_iterations : Z) (recs0 : list AgentIteration) :
  forall (i : Z) (p : str),
    (i + Z.of_nat (length recs0))%Z = max_iterations ->
    exists p', prompt_pendente max_iterations i p recs0 = p' ++ DIRETIVA_FINAL max_iterations.
Proof.
  induction recs0 as [| a recs0 IH]; intros i p Hi.
  - simpl in *. unfold prompt_da_iteracao.
    replace i with max_iterations by lia. rewrite Z.eqb_refl. now exists p.
  - simpl. apply IH. simpl length in Hi. lia.
Qed.

(** X3: with a budget of zero or less the body never runs: the endpoint
    is not called and no record is made.  The log, with zero iterations
    and no success, goes straight to [_salvar_log], whose writes are the
    only events of the run: when both files can be written the run
    returns the empty answer after writing them, and otherwise it is left
    by the exception of the write. *)
Theorem X3_nonpositive_budget
        (sys origem destino log_file : str) (max_iterations : Z) :
  (max_iterations <= 0)%Z ->
  exists st,
    executa sys origem destino max_iterations log_file =
      (desfecho (fst (salva (log st) log_file)) [], st) /\
    eventos st = snd (salva (log st) log_file) /\
    (fst (salva (log st) log_file) = None ->
     executa sys origem destino max_iterations log_file = (Retornou [], st) /\
     eventos st = [EvWrite (log_file ++ lit ".json") (log st);
                   EvWrite (log_file ++ lit ".txt") (log st)]) /\
    (forall e, fst (salva (log st) log_file) = Some e ->
     executa sys origem destino max_iterations log_file = (FalhouLog e, st)) /\
    messages (agente st) = messages (Agent_init sys) /\
    iteracoes (log st) = [] /\
    iteracoes_utilizadas (log st) = 0%Z /\
    sucesso (log st) = false /\
    resposta_final (log st) = [] /\
    max_iteracoes (log st) = max_iterations.
Proof.
  intros H. unfold agent_loop_with.
  replace (Z.to_nat max_iterations) with 0%nat by lia.
  cbn [laco estado_inicial log resultado_final eventos agente proximo_prompt app].
  match goal with |- exists st, (_, ?s) = _ /\ _ => exists s end.
  cbn [log eventos agente]. split; [reflexivity |]. split; [reflexivity |].
  split.
  - intros Hf. rewrite (_salvar_log_completo _ _ _ Hf), Hf. split; reflexivity.
  - split; [intros e He; now rewrite He |]. repeat split.
Qed.

(** X4: when the run returns, the value returned is the log's
    [resposta_final], and [sucesso] tells how the run ended: if false, no
    recorded response holds the marker and the answer is empty; if true,
    the last record is the plain record of a response with the marker, no
    record before it holds the marker, and the answer is the one taken
    from that response. *)
Theorem X4_success_iff_last_answer
        (sys origem destino log_file : str) (max_iterations : Z)
        (final : str) (st : estado) :
  executa sys origem destino max_iterations log_file = (Retornou final, st) ->
  final = resposta_final (log st) /\
  ((sucesso (log st) = false /\ final = [] /\
    Forall sem_answer (iteracoes (log st))) \/
   (sucesso (log st) = true /\
    exists recs0 j r,
      iteracoes (log st) = recs0 ++ [registro_simples j r] /\
      Forall sem_answer recs0 /\
      contains (lit "Answer") r = true /\
      final = extrair_answer r)).
Proof.
  unfold agent_loop_with.
  pose proof (estado_inicial_truthy now sys origem destino max_iterations) as Hp.
  destruct (roda max_iterations (Z.to_nat max_iterations) 1 _) as [st1 oe] eqn:E.
  destruct (laco_sucesso _ _ _ _ _ _ Hp E) as (recs & E1 & E2).
  destruct oe as [e |]; [discriminate |].
  intros Hr. injection Hr as Hd <-. apply desfecho_retornou in Hd as [_ ->].
  simpl in *.
  split; [reflexivity |]. rewrite E1.
  destruct E2 as [(F & S1 & R1) | (_ & recs0 & j & r & -> & F & A & S1 & R1)].
  - left. rewrite S1, R1. auto.
  - right. rewrite S1, R1. split; [reflexivity |]. exists recs0, j, r. auto.
Qed.

(** X5: when the run returns, the two files are the last two events of
    the run and the only writes; both are named after [log_file] and both
    carry the finalised log, whose [iteracoes_utilizadas] and
    [resposta_final] are already set. *)
Theorem X5_log_files_written_last
        (sys origem destino log_file : str) (max_iterations : Z)
        (final : str) (st : estado) :
  executa sys origem destino max_iterations log_file = (Retornou final, st) ->
  exists evs,
    eventos st = evs ++ [EvWrite (log_file ++ lit ".json") (log st);
                         EvWrite (log_file ++ lit ".txt") (log st)] /\
    filter is_write evs = [] /\
    iteracoes_utilizadas (log st) = Z.of_nat (length (iteracoes (log st))) /\
    resposta_final (log st) = final.
Proof.
  unfold agent_loop_with.
  pose proof (estado_inicial_truthy now sys origem destino max_iterations) as Hp.
  destruct (roda max_iterations (Z.to_nat max_iterations) 1 _) as [st1 oe] eqn:E.
  destruct (laco_eventos _ _ _ _ _ _ _ _ _ Hp E) as (evs & V1 & V2 & _).
  destruct oe as [e |]; [discriminate |].
  intros Hr. injection Hr as Hd <-. apply desfecho_retornou in Hd as [Hf ->].
  cbn [log eventos iteracoes iteracoes_utilizadas resposta_final log_finalizar].
  rewrite (_salvar_log_completo _ _ _ Hf).
  exists evs. cbn [estado_inicial eventos app] in V1. rewrite V1. auto.
Qed.


(** X6: the transcript can be rebuilt from the log.  After the opening
    messages of the agent it holds, per record and in order, the prompt
    that pass sent and the response recorded; the prompt of a pass is the
    opening question, or [Observation: ...] with the tool result recorded
    by the pass before, or the prompt of the pass before repeated, with
    the closing directive added on pass [max_iterations].  If the endpoint
    raised, the prompt of the unfinished pass follows. *)
Theorem X6_transcript_from_log
        (sys origem destino log_file : str) (max_iterations : Z) :
  let run := executa sys origem destino max_iterations log_file in
  let abertura := lit "Estou em " ++ origem ++ lit ", me fale sobre " ++ destino in
  messages (agente (snd run)) =
    messages (Agent_init sys) ++
    dialogo (combine (prompts_da_execucao max_iterations 1 abertura
                                          (iteracoes (log (snd run))))
                     (map resposta_llm (iteracoes (log (snd run))))) ++
    match fst run with
    | Retornou _ | FalhouLog _ => []
    | Levantou _ =>
        [user_msg (prompt_pendente max_iterations 1 abertura (iteracoes (log (snd run))))]
    end.
Proof.
  unfold agent_loop_with.
  pose proof (estado_inicial_truthy now sys origem destino max_iterations) as Hp.
  destruct (roda max_iterations (Z.to_nat max_iterations) 1 _) as [st1 oe] eqn:E.
  destruct (laco_prompts _ _ _ _ _ _ Hp E) as (recs & E1 & E2).
  simpl in E1, E2. destruct oe as [e |]; simpl; rewrite E1, E2; [reflexivity |].
  now destruct (fst (salva _ _)).
Qed.

(** X7: a run that returns after using its whole budget sent, on its
    last pass, a prompt that ends with the closing directive naming
    [max_iterations]; that prompt and the last recorded response are the
    last two messages of the transcript. *)
Theorem X7_last_pass_directive
        (sys origem destino log_file : str) (max_iterations : Z)
        (final : str) (st : estado) :
  (1 <= max_iterations)%Z ->
  executa sys origem destino max_iterations log_file = (Retornou final, st) ->
  Z.of_nat (length (iteracoes (log st))) = max_iterations ->
  exists antes p recs0 reg,
    iteracoes (log st) = recs0 ++ [reg] /\
    messages (agente st) =
      antes ++ [user_msg (p ++ DIRETIVA_FINAL max_iterations);
                assistant_msg (resposta_llm reg)].
Proof.
  intros Hmax Hrun Hlen.
  unfold agent_loop_with in Hrun.
  pose proof (estado_inicial_truthy now sys origem destino max_iterations) as Hp.
  destruct (roda max_iterations (Z.to_nat max_iterations) 1 _) as [st1 oe] eqn:E.
  destruct (laco_prompts _ _ _ _ _ _ Hp E) as (recs & E1 & E2).
  destruct oe as [e |]; [discriminate |]. injection Hrun as _ <-.
  cbn [log iteracoes log_finalizar agente] in Hlen |- *.
  cbn [estado_inicial log AgentLog_new iteracoes agente proximo_prompt app] in E1, E2.
  rewrite E1 in Hlen |- *.
  destruct (exists_last (l := recs)) as (recs0 & reg & ->).
  { intros ->. simpl in Hlen. lia. }
  rewrite length_app in Hlen. simpl in Hlen.
  destruct (prompt_pendente_final max_iterations recs0 1
              (lit "Estou em " ++ origem ++ lit ", me fale sobre " ++ destino))
    as (p & Hpend); [lia |].
  rewrite dialogo_prompts_snoc, app_nil_r, Hpend in E2.
  eexists _, p, recs0, reg. split; [reflexivity |].
  rewrite E2, app_assoc. reflexivity.
Qed.

(** X8: every record of the log is coherent: its three tool fields are
    all absent or all present, and when present the response holds PAUSE
    and Action and no Answer, the name and argument are the trimmed groups
    of the first match of the Action pattern, and the result is what the
    dispatch gave for them.  Tools are called at most once per record that
    carries a tool. *)
Theorem X8_records_coherent
        (sys origem destino log_file : str) (max_iterations : Z) :
  let st := snd (executa sys origem destino max_iterations log_file) in
  Forall coerente (iteracoes (log st)) /\
  (length (filter is_tool_call (eventos st))
   <= length (filter tem_ferramenta (iteracoes (log st))))%nat /\
  (length (filter tem_ferramenta (iteracoes (log st)))
   <= length (iteracoes (log st)))%nat.
Proof.
  unfold agent_loop_with.
  pose proof (estado_inicial_truthy now sys origem destino max_iterations) as Hp.
  destruct (roda max_iterations (Z.to_nat max_iterations) 1 _) as [st1 oe] eqn:E.
  destruct (laco_coerente _ _ _ _ _ _ Hp E) as (recs & evs & E1 & E2 & E3 & E4).
  simpl in E1, E2.
  destruct oe as [e |]; simpl; rewrite E1, E2;
    repeat split; auto using filter_length_le.
  now rewrite filter_app, (proj2 (_salvar_log_sem_chamadas gravar _ _)), app_nil_r.
Qed.

(** *** The dispatch block, case by case *)

Lemma despachar_observa (nome arg : str) (t : ferramenta) (args : list str) :
  registry_get nome FERRAMENTAS = Some t ->
  snd (despacha nome arg) = [EvTool nome args] ->
  fst (despacha nome arg) = observar (chamar get_country_info convert_currency t args).
Proof.
  unfold despachar. intros ->.
  destruct (eqb_str nome _).
  - destruct (_ =? 2)%nat; simpl; [| discriminate]. now intros [= <-].
  - simpl. now intros [= <-].
Qed.

(** X1: the dispatch has four outcomes and no other.  An unregistered
    name gives the not-found text and no call; [get_country_info] is
    called once on the whole argument; [convert_currency] gives the arity
    text and no call unless the argument holds exactly one comma, and is
    then called once on the two trimmed fields.  A tool result is the
    observation as it is; so there is at most one call, always with the
    number of arguments the tool takes. *)
Theorem X1_dispatch_cases (nome arg : str) :
  (~ In nome (map fst FERRAMENTAS) /\
   despacha nome arg = (ERRO_NAO_ENCONTRADA, [])) \/
  (nome = lit "get_country_info" /\
   despacha nome arg =
     (observar (get_country_info arg), [EvTool nome [arg]])) \/
  (nome = lit "convert_currency" /\
   count_occ N.eq_dec arg (cp ",") <> 1%nat /\
   despacha nome arg = (ERRO_ARGUMENTOS, [])) \/
  (nome = lit "convert_currency" /\
   exists a b,
     split (cp ",") arg = [a; b] /\
     despacha nome arg =
       (observar (convert_currency (strip a) (strip b)),
        [EvTool nome [strip a; strip b]])).
Proof.
  destruct (list_eq_dec N.eq_dec nome (lit "get_country_info")) as [-> | N1].
  { right. left. split; reflexivity. }
  destruct (list_eq_dec N.eq_dec nome (lit "convert_currency")) as [-> | N2].
  { right. right.
    destruct (Nat.eq_dec (count_occ N.eq_dec arg (cp ",")) 1) as [E | E].
    - right. split; [reflexivity |].
      now apply despachar_convert_uma_virgula.
    - left. split; [reflexivity |]. split; [exact E |].
      unfold despachar. rewrite registry_get_convert, eqb_str_refl.
      cbv zeta. rewrite length_map, split_length.
      destruct (count_occ N.eq_dec arg (cp ",")) as [| [| k]]; simpl;
        [reflexivity | congruence | reflexivity]. }
  left. assert (H : ~ In nome (map fst FERRAMENTAS)).
  { intros [H | [H | []]]; [apply N1 | apply N2]; symmetry; exact H. }
  split; [exact H |]. now apply despachar_nao_registrada.
Qed.

(** X2: when the tool called for an Action turn raises, the exception
    stops at the dispatch: the observation is [ERROR: ] followed by the
    exception's text, it is recorded as the tool result and becomes the
    next prompt, and the loop goes on. *)
Theorem X2_tool_failure_becomes_observation
        (max_iterations i : Z) (st : estado)
        (ag : Agent) (r : str) (sent : list message)
        (m : list str) (ms : list (list str))
        (t : ferramenta) (args : list str) (d : str) :
  Agent_call llm (agente st)
             (prompt_da_iteracao max_iterations i (proximo_prompt st))
    = (ag, Resposta r, sent) ->
  contains (lit "Answer") r = false ->
  contains (lit "PAUSE") r = true ->
  contains (lit "Action") r = true ->
  findall RE_ACTION_FLAGS ACTION_RE r = m :: ms ->
  registry_get (strip (nth 0 m [])) FERRAMENTAS = Some t ->
  snd (despacha (strip (nth 0 m [])) (strip (nth 1 m [])))
    = [EvTool (strip (nth 0 m [])) args] ->
  chamar get_country_info convert_currency t args = Levanta d ->
  exists st',
    passa max_iterations i st = Continua st' /\
    proximo_prompt st' = lit "Observation: ERROR: " ++ d /\
    iteracoes (log st') = iteracoes (log st) ++
      [{| numero := i; resposta_llm := r;
          ferramenta_chamada := Some (strip (nth 0 m []));
          argumento := Some (strip (nth 1 m []));
          resultado_ferramenta := Some (lit "ERROR: " ++ d) |}] /\
    eventos st' = eventos st ++ [EvLLM sent; EvTool (strip (nth 0 m [])) args].
Proof.
  intros Hc Ha Hp Hact Hf Hreg Hev Hd.
  pose proof (despachar_observa _ _ _ _ Hreg Hev) as Hobs. rewrite Hd in Hobs.
  unfold iteracao. rewrite Hc, Ha, Hp, Hact, Hf. cbn [andb].
  destruct (despacha (strip (nth 0 m [])) (strip (nth 1 m []))) as [obs chamadas].
  simpl in Hobs, Hev. subst obs chamadas.
  eexists. split; [reflexivity |]. simpl. rewrite <- app_assoc. auto.
Qed.

End MoreLoopFacts.

(** ** What the Action pattern can and cannot match *)

Lemma star_inv (f : flags) (cs : cset) (k : cont) :
  forall (s o : str) (caps : list str) r,
    star f cs k s o caps = Some r ->
    exists w u, s = w ++ u /\ forallb (cmatch f cs) w = true /\ k u o caps = Some r.
Proof.
  induction s as [| c s IH]; intros o caps r H.
  - exists [], []. auto.
  - cbn [star] in H. destruct (cmatch f cs c) eqn:Hc.
    + destruct (star f cs k s o caps) as [r' |] eqn:Hs.
      * injection H as <-. destruct (IH _ _ _ Hs) as (w & u & -> & Hw & Hk).
        exists (c :: w), u. simpl. rewrite Hc. auto.
      * exists [], (c :: s). auto.
    + exists [], (c :: s). auto.
Qed.

Lemma forallb_range_letra (s : str) :
  forallb (cmatch RE_ACTION_FLAGS (CRange (cp "a") (cp "z") (cp "_"))) s = true ->
  forallb letra_ou_sublinhado s = true.
Proof.
  intros H. rewrite forallb_forall in *. intros c Hc.
  rewrite <- range_is_letra. auto.
Qed.

(** Any success of the rest of the Action pattern has the two groups of
    the expected shape. *)
Lemma exec_action_tail_inv (t o : str) (caps g : list str) (rest : str) :
  exec RE_ACTION_FLAGS ACTION_TAIL t o caps = Some (g, rest) ->
  exists nome arg,
    g = rev (arg :: nome :: caps) /\
    nome <> [] /\ forallb letra_ou_sublinhado nome = true /\
    arg <> [] /\ forallb nao_newline arg = true.
Proof.
  unfold ACTION_TAIL. rewrite exec_Star. intros H.
  apply star_inv in H as (w1 & u1 & _ & _ & H).
  rewrite exec_GOpen, exec_Plus in H.
  destruct u1 as [| c s1]; [discriminate |].
  destruct (cmatch RE_ACTION_FLAGS _ c) eqn:Hc; [| discriminate].
  apply star_inv in H as (w2 & u2 & -> & Hw2 & H).
  rewrite exec_GClose in H.
  pose proof (firstn_app_exact (c :: w2) u2) as F. cbn [app] in F.
  rewrite F, exec_One in H. clear F.
  destruct u2 as [| c2 u3]; [discriminate |].
  destruct (cmatch RE_ACTION_FLAGS _ c2); [| discriminate].
  rewrite exec_Star in H.
  apply star_inv in H as (w3 & u4 & _ & _ & H).
  rewrite exec_GOpen, exec_Plus in H.
  destruct u4 as [| d s4]; [discriminate |].
  destruct (cmatch RE_ACTION_FLAGS CDot d) eqn:Hd; [| discriminate].
  apply star_inv in H as (w5 & u5 & -> & Hw5 & H).
  pose proof (exec_close_end RE_ACTION_FLAGS (d :: w5) u5 ((c :: w2) :: caps)) as F.
  cbn [app] in F. rewrite F in H. injection H as <- <-.
  exists (c :: w2), (d :: w5). repeat split; try discriminate.
  - simpl. rewrite range_is_letra in Hc. rewrite Hc. now apply forallb_range_letra.
  - simpl. unfold nao_newline at 1. simpl in Hd. rewrite Hd. exact Hw5.
Qed.

Lemma search_action_shape (s : str) (g : list str) (rest : str) :
  search RE_ACTION_FLAGS ACTION_RE s = Some (g, rest) -> forma_action g.
Proof.
  induction s as [| c s IH]; cbn [search]; unfold match_at, ACTION_RE;
    rewrite exec_word by reflexivity.
  - destruct (strip_prefix_ci _ []) as [t |]; [| discriminate].
    destruct (exec RE_ACTION_FLAGS ACTION_TAIL t [] []) as [[g' rest'] |] eqn:E;
      [| discriminate].
    intros [= <- <-]. apply exec_action_tail_inv in E
      as (nome & arg & -> & N0 & N1 & A0 & A1).
    exists nome, arg. repeat split; auto. now apply strip_letras.
  - destruct (strip_prefix_ci _ (c :: s)) as [t |].
    + destruct (exec RE_ACTION_FLAGS ACTION_TAIL t [] []) as [[g' rest'] |] eqn:E.
      * intros [= <- <-]. apply exec_action_tail_inv in E
          as (nome & arg & -> & N0 & N1 & A0 & A1).
        exists nome, arg. repeat split; auto. now apply strip_letras.
      * exact IH.
    + exact IH.
Qed.

(** X9: every match [re.findall] returns for the Action pattern has
    exactly two groups: a non-empty tool name made only of letters and
    underscores, where the four characters that [re.IGNORECASE] takes for
    an i, an s or a k count as letters (so trimming leaves the name as it
    is), and a non-empty argument without a line break. *)
Theorem X9_action_match_shape (r : str) :
  Forall forma_action (findall RE_ACTION_FLAGS ACTION_RE r).
Proof.
  unfold findall. generalize (S (length r)) as n. intros n. revert r.
  induction n as [| n IH]; intros r; cbn [findall_from]; [constructor |].
  destruct (search RE_ACTION_FLAGS ACTION_RE r) as [[g rest] |] eqn:E; [| constructor].
  constructor; [now apply search_action_shape in E |].
  destruct (length rest <? length r)%nat; [apply IH |].
  destruct rest; [constructor | apply IH].
Qed.



Section MalformedAction.

Variable llm : list message -> llm_result.
Variable get_country_info : str -> tool_result.
Variable convert_currency : str -> str -> tool_result.


End MalformedAction.

(** ** [agent_loop] and [main] under the shipped configuration *)

Lemma startswith_app (w b : str) : startswith w (w ++ b) = true.
Proof. induction w as [| c w IH]; simpl; [reflexivity |]. now rewrite N.eqb_refl. Qed.

Lemma contains_startswith (w s : str) :
  startswith w s = true -> contains w s = true.
Proof. intros H. destruct s; simpl; now rewrite H. Qed.

Lemma contains_app_mid (w a b : str) : contains w (a ++ w ++ b) = true.
Proof.
  induction a as [| c a IH]; cbn [app].
  - apply contains_startswith, startswith_app.
  - cbn [contains]. rewrite IH. apply orb_true_r.
Qed.

Lemma SYSTEM_PROMPT_truthy (n : Z) : truthy (SYSTEM_PROMPT n) = true.
Proof. reflexivity. Qed.

Lemma SYSTEM_PROMPT_limit (n : Z) :
  contains (lit "maximum of " ++ str_of_int (MAX_ITERATIONS n) ++ lit " iterations")
           (SYSTEM_PROMPT n) = true.
Proof.
  assert (E : exists a b,
             SYSTEM_PROMPT n =
             a ++ (lit "maximum of " ++ str_of_int (MAX_ITERATIONS n) ++ lit " iterations")
               ++ b).
  { exists (lit "You are a country comparison assistant." ++ nl ++ nl ++
            lit "LIMIT: You have a ").
    eexists. unfold SYSTEM_PROMPT. rewrite <- !app_assoc. reflexivity. }
  destruct E as (a & b & ->). apply contains_app_mid.
Qed.

Section Shipped.

Variable llm : list message -> llm_result.
Variable get_country_info : str -> tool_result.
Variable convert_currency : str -> str -> tool_result.
Variable now : str.
Variable gravar : str -> AgentLog -> option excecao.
Variable numero_lido : Z.

Local Abbreviation principal :=
  (main llm get_country_info convert_currency now gravar numero_lido).

(** X11: every transcript [agent_loop] sends to the endpoint starts
    with the system message holding [SYSTEM_PROMPT]; and in [main] the
    limit that prompt announces to the model is the very budget the loop
    runs with. *)
Theorem X11_system_prompt_heads_every_call
        (origem destino log_file : str) (max_iterations : Z) :
  (forall msgs,
     In (EvLLM msgs)
        (eventos (snd (agent_loop llm get_country_info convert_currency now gravar
                                  numero_lido origem destino max_iterations log_file))) ->
     exists t, msgs = system_msg (SYSTEM_PROMPT numero_lido) :: t) /\
  contains (lit "maximum of " ++
            str_of_int (max_iteracoes (log (snd (principal origem destino)))) ++
            lit " iterations")
           (SYSTEM_PROMPT numero_lido) = true.
Proof.
  split.
  - unfold agent_loop, agent_loop_with.
    pose proof (estado_inicial_truthy now (SYSTEM_PROMPT numero_lido)
                  origem destino max_iterations) as Hp.
    destruct (laco llm get_country_info convert_currency max_iterations
                   (Z.to_nat max_iterations) 1 _) as [st1 oe] eqn:E.
    assert (H : forall msgs, In (EvLLM msgs) (eventos st1) ->
                exists t, msgs = system_msg (SYSTEM_PROMPT numero_lido) :: t).
    { apply (laco_transcritos _ _ _ _ _ _ _ _ _ _ Hp E).
      - cbn [estado_inicial agente Agent_init messages].
        rewrite SYSTEM_PROMPT_truthy. eauto.
      - cbn [estado_inicial eventos]. intros msgs []. }
    destruct oe as [e |]; simpl; [exact H |].
    intros msgs Hi. apply in_app_or in Hi as [Hi | Hi]; [auto |].
    apply _salvar_log_escritos in Hi as [Hi | Hi]; discriminate.
  - replace (max_iteracoes (log (snd (principal origem destino))))
      with (MAX_ITERATIONS numero_lido); [apply SYSTEM_PROMPT_limit |].
    unfold main, agent_loop, agent_loop_with.
    match goal with
    | |- context [laco ?a ?b ?c ?mx ?n ?i ?st] =>
        pose proof (estado_inicial_truthy now
                      (SYSTEM_PROMPT numero_lido) origem destino mx) as Hp;
        destruct (laco a b c mx n i st) as [st1 oe] eqn:E
    end.
    destruct (laco_log _ _ _ _ _ _ _ _ _ Hp E) as (recs & _ & _ & _ & _ & _ & E6 & _).
    destruct oe; simpl; rewrite ?E6; reflexivity.
Qed.

Lemma nome_log_sem_espaco (origem destino : str) :
  forallb sem_espaco (nome_log_de origem destino) = true.
Proof.
  unfold nome_log_de. generalize (lit "log_" ++ origem ++ lit "_" ++ destino).
  intros l. induction l as [| c l IH]; [reflexivity |].
  cbn [map forallb]. rewrite IH, andb_true_r. unfold sem_espaco.
  destruct (N.eqb_spec c (cp " ")) as [-> | N]; [reflexivity |].
  now apply negb_true_iff, N.eqb_neq.
Qed.

(** X12: [main] names its files after the two countries with every
    blank replaced by an underscore: whenever it writes a file, the path
    is [log_<origem>_<destino>] so rewritten plus [.json] or [.txt], it
    starts with [log_] and holds no blank. *)
Theorem X12_main_log_file_names (origem destino : str) :
  forall path l,
    In (EvWrite path l) (eventos (snd (principal origem destino))) ->
    (path = nome_log_de origem destino ++ lit ".json" \/
     path = nome_log_de origem destino ++ lit ".txt") /\
    startswith (lit "log_") path = true /\
    forallb sem_espaco path = true.
Proof.
  intros path l. unfold main, agent_loop, agent_loop_with.
  fold (nome_log_de origem destino).
  match goal with
  | |- context [laco ?a ?b ?c ?mx ?n ?i ?st] =>
      pose proof (estado_inicial_truthy now
                    (SYSTEM_PROMPT numero_lido) origem destino mx) as Hp;
      destruct (laco a b c mx n i st) as [st1 oe] eqn:E
  end.
  destruct (laco_eventos _ _ _ _ _ _ _ _ _ Hp E) as (evs & V1 & V2 & _).
  simpl in V1. subst evs.
  assert (Hno : ~ In (EvWrite path l) (eventos st1)).
  { intros Hi. assert (Hf : In (EvWrite path l) (filter is_write (eventos st1))).
    { apply filter_In. auto. }
    now rewrite V2 in Hf. }
  destruct oe as [e |]; simpl; [tauto |].
  intros Hi. apply in_app_or in Hi as [Hi | Hi]; [tauto |].
  assert (Hp' : path = nome_log_de origem destino ++ lit ".json" \/
                path = nome_log_de origem destino ++ lit ".txt").
  { apply _salvar_log_escritos in Hi as [[= -> _] | [= -> _]]; auto. }
  split; [exact Hp' |].
  destruct Hp' as [-> | ->]; split; try reflexivity;
    rewrite forallb_app, nome_log_sem_espaco; reflexivity.
Qed.

End Shipped.

(** ** The further properties on concrete runs *)

Lemma X2_tool_failure_becomes_observation_witness :
  exists st',
    iteracao (llm_roteiro [Resposta r_atlantis]) gci_falha cc_fixo 5 1 estado0
      = Continua st' /\
    proximo_prompt st' = lit "Observation: ERROR: " ++ lit "timeout" /\
    iteracoes (log st') = iteracoes (log estado0) ++
      [{| numero := 1; resposta_llm := r_atlantis;
          ferramenta_chamada := Some (strip (nth 0 [lit "get_country_info"; lit "Atlantis"] []));
          argumento := Some (strip (nth 1 [lit "get_country_info"; lit "Atlantis"] []));
          resultado_ferramenta := Some (lit "ERROR: " ++ lit "timeout") |}] /\
    eventos st' =
      eventos estado0 ++
      [EvLLM (snd (chamada0 (llm_roteiro [Resposta r_atlantis])));
       EvTool (strip (nth 0 [lit "get_country_info"; lit "Atlantis"] [])) [lit "Atlantis"]].
Proof.
  apply (X2_tool_failure_becomes_observation
           (llm_roteiro [Resposta r_atlantis]) gci_falha cc_fixo 5 1 estado0
           (fst (fst (chamada0 (llm_roteiro [Resposta r_atlantis]))))
           r_atlantis
           (snd (chamada0 (llm_roteiro [Resposta r_atlantis])))
           [lit "get_country_info"; lit "Atlantis"] []
           Tool_get_country_info [lit "Atlantis"] (lit "timeout"));
    reflexivity.
Defined.

Lemma X3_nonpositive_budget_witness :
  (-2 <= 0)%Z /\
  exists st,
    agent_loop_with (llm_roteiro roteiro_completo) gci_fixo cc_fixo agora gravar_ok
                    sys0 (lit "Brasil") (lit "Japao") (-2) (lit "log")
      = (Retornou [], st) /\
    eventos st = [EvWrite (lit "log" ++ lit ".json") (log st);
                  EvWrite (lit "log" ++ lit ".txt") (log st)] /\
    messages (agente st) = messages (Agent_init sys0) /\
    iteracoes (log st) = [] /\
    iteracoes_utilizadas (log st) = 0%Z /\
    sucesso (log st) = false /\
    resposta_final (log st) = [] /\
    max_iteracoes (log st) = (-2)%Z.
Proof.
  split; [lia |].
  destruct (X3_nonpositive_budget
              (llm_roteiro roteiro_completo) gci_fixo cc_fixo agora gravar_ok
              sys0 (lit "Brasil") (lit "Japao") (lit "log") (-2) ltac:(lia))
    as (st & _ & _ & Hok & _ & Hresto).
  exists st. destruct (Hok eq_refl) as [Hrun Hev].
  split; [exact Hrun |]. split; [exact Hev | exact Hresto].
Defined.

Lemma X4_success_iff_last_answer_witness :
  let run := agent_loop_with (llm_roteiro roteiro_completo) gci_fixo cc_fixo agora gravar_ok
                             sys0 (lit "Brasil") (lit "Japao") 5 (lit "log") in
  run = (Retornou (lit "Brasil vs Japao"), snd run) /\
  lit "Brasil vs Japao" = resposta_final (log (snd run)) /\
  ((sucesso (log (snd run)) = false /\ lit "Brasil vs Japao" = [] /\
    Forall sem_answer (iteracoes (log (snd run)))) \/
   (sucesso (log (snd run)) = true /\
    exists recs0 j r,
      iteracoes (log (snd run)) = recs0 ++ [registro_simples j r] /\
      Forall sem_answer recs0 /\
      contains (lit "Answer") r = true /\
      lit "Brasil vs Japao" = extrair_answer r)).
Proof.
  intros run.
  assert (H : run = (Retornou (lit "Brasil vs Japao"), snd run)).
  { vm_compute. reflexivity. }
  split; [exact H |].
  apply (X4_success_iff_last_answer
           (llm_roteiro roteiro_completo) gci_fixo cc_fixo agora gravar_ok
           sys0 (lit "Brasil") (lit "Japao") (lit "log") 5
           (lit "Brasil vs Japao") (snd run)).
  exact H.
Defined.

Lemma X5_log_files_written_last_witness :
  let run := agent_loop_with (llm_roteiro roteiro_completo) gci_fixo cc_fixo agora gravar_ok
                             sys0 (lit "Brasil") (lit "Japao") 5 (lit "log") in
  run = (Retornou (lit "Brasil vs Japao"), snd run) /\
  exists evs,
    eventos (snd run) =
      evs ++ [EvWrite (lit "log" ++ lit ".json") (log (snd run));
              EvWrite (lit "log" ++ lit ".txt") (log (snd run))] /\
    filter is_write evs = [] /\
    iteracoes_utilizadas (log (snd run)) = Z.of_nat (length (iteracoes (log (snd run)))) /\
    resposta_final (log (snd run)) = lit "Brasil vs Japao".
Proof.
  intros run.
  assert (H : run = (Retornou (lit "Brasil vs Japao"), snd run)).
  { vm_compute. reflexivity. }
  split; [exact H |].
  apply (X5_log_files_written_last
           (llm_roteiro roteiro_completo) gci_fixo cc_fixo agora gravar_ok
           sys0 (lit "Brasil") (lit "Japao") (lit "log") 5
           (lit "Brasil vs Japao") (snd run)).
  exact H.
Defined.


(** A file system that takes no file: the run is left by the exception
    of the first write, after the loop has found its answer. *)
Example run_sem_arquivos :
  let run := agent_loop_with (llm_roteiro roteiro_completo) gci_fixo cc_fixo agora
                             gravar_falha sys0 (lit "Brasil") (lit "Japao") 5 (lit "log") in
  fst run = FalhouLog (Erro (lit "No such file or directory")) /\
  filter is_write (eventos (snd run)) = [] /\
  sucesso (log (snd run)) = true /\
  resposta_final (log (snd run)) = lit "Brasil vs Japao".
Proof. repeat split. Qed.

Lemma X7_last_pass_directive_witness :
  let run := agent_loop_with (llm_roteiro []) gci_fixo cc_fixo agora gravar_ok
                             sys0 (lit "Brasil") (lit "Japao") 3 (lit "log") in
  run = (Retornou [], snd run) /\
  Z.of_nat (length (iteracoes (log (snd run)))) = 3%Z /\
  exists antes p recs0 reg,
    iteracoes (log (snd run)) = recs0 ++ [reg] /\
    messages (agente (snd run)) =
      antes ++ [user_msg (p ++ DIRETIVA_FINAL 3); assistant_msg (resposta_llm reg)].
Proof.
  intros run.
  assert (H : run = (Retornou [], snd run)) by (vm_compute; reflexivity).
  assert (L : Z.of_nat (length (iteracoes (log (snd run)))) = 3%Z) by reflexivity.
  split; [exact H |]. split; [exact L |].
  apply (X7_last_pass_directive
           (llm_roteiro []) gci_fixo cc_fixo agora gravar_ok
           sys0 (lit "Brasil") (lit "Japao") (lit "log") 3 [] (snd run));
    [lia | exact H | exact L].
Defined.


Lemma X12_main_log_file_names_witness :
  let run := main (llm_roteiro [Resposta r_answer]) gci_fixo cc_fixo agora gravar_ok 5
                  (lit "Costa Rica") (lit "Japao") in
  In (EvWrite (lit "log_Costa_Rica_Japao.json") (log (snd run))) (eventos (snd run)) /\
  (lit "log_Costa_Rica_Japao.json" = nome_log_de (lit "Costa Rica") (lit "Japao") ++ lit ".json" \/
   lit "log_Costa_Rica_Japao.json" = nome_log_de (lit "Costa Rica") (lit "Japao") ++ lit ".txt") /\
  startswith (lit "log_") (lit "log_Costa_Rica_Japao.json") = true /\
  forallb sem_espaco (lit "log_Costa_Rica_Japao.json") = true.
Proof.
  intros run.
  assert (H : In (EvWrite (lit "log_Costa_Rica_Japao.json") (log (snd run)))
                 (eventos (snd run))).
  { vm_compute. right. left. reflexivity. }
  split; [exact H |].
  apply (X12_main_log_file_names
           (llm_roteiro [Resposta r_answer]) gci_fixo cc_fixo agora gravar_ok 5
           (lit "Costa Rica") (lit "Japao")
           (lit "log_Costa_Rica_Japao.json") (log (snd run))).
  exact H.
Defined.

(** * The two tools *)

(** ** Trimming and case *)

Lemma lstrip_split (s : str) :
  exists w, s = w ++ lstrip s /\ forallb isspace w = true.
Proof.
  induction s as [| c s (w & E & Hw)]; [exists []; auto |].
  simpl. destruct (isspace c) eqn:Hc.
  - exists (c :: w). simpl. rewrite Hc, Hw. split; [now f_equal | reflexivity].
  - exists []. auto.
Qed.

Lemma lstrip_fix (s : str) : borda_esq s = true -> lstrip s = s.
Proof.
  destruct s as [| c s]; [reflexivity |]. simpl.
  now destruct (isspace c).
Qed.

Lemma lstrip_borda (s : str) : borda_esq (lstrip s) = true.
Proof.
  induction s as [| c s IH]; [reflexivity |]. simpl.
  destruct (isspace c) eqn:Hc; [exact IH |]. simpl. now rewrite Hc.
Qed.

Lemma rstrip_borda (t : str) : borda_esq t = true -> borda_esq (rstrip t) = true.
Proof.
  intros H. unfold rstrip.
  destruct (lstrip_split (rev t)) as (w & E & Hw).
  apply (f_equal (@rev char)) in E. rewrite rev_involutive, rev_app_distr in E.
  destruct (rev (lstrip (rev t))) as [| c u] eqn:Eu; [reflexivity |].
  rewrite E in H. exact H.
Qed.

Lemma rstrip_borda_dir (t : str) : borda_esq (rev (rstrip t)) = true.
Proof. unfold rstrip. rewrite rev_involutive. apply lstrip_borda. Qed.

Lemma strip_aparado (s : str) : aparado (strip s).
Proof.
  split.
  - apply rstrip_borda, lstrip_borda.
  - apply rstrip_borda_dir.
Qed.

Lemma aparado_strip (t : str) : aparado t -> strip t = t.
Proof.
  intros [H1 H2]. unfold strip, rstrip.
  rewrite (lstrip_fix _ H1), (lstrip_fix _ H2). apply rev_involutive.
Qed.

Lemma strip_idempotent (s : str) : strip (strip s) = strip s.
Proof. apply aparado_strip, strip_aparado. Qed.

Lemma forallb_lstrip (P : char -> bool) (s : str) :
  forallb P s = true -> forallb P (lstrip s) = true.
Proof.
  induction s as [| c s IH]; [auto |]. intros H. cbn [lstrip].
  destruct (isspace c); [| exact H].
  apply IH. cbn [forallb] in H. now apply andb_prop in H.
Qed.

Lemma forallb_rev (P : char -> bool) (s : str) :
  forallb P s = true -> forallb P (rev s) = true.
Proof.
  rewrite !forallb_forall. intros H c Hc. apply H. now apply in_rev.
Qed.

Lemma forallb_strip (P : char -> bool) (s : str) :
  forallb P s = true -> forallb P (strip s) = true.
Proof.
  intros H. unfold strip, rstrip.
  now apply forallb_rev, forallb_lstrip, forallb_rev, forallb_lstrip.
Qed.

(* A fact about the capitals of the code points [upper_no_modelo]
   admits: checked one by one, there are fewer than 256. *)
Lemma por_upper_no_modelo (P : char -> bool) :
  forallb (fun c => implb (upper_no_modelo c) (P c))
          (codigos (N.to_nat LIMITE) 0%N) = true ->
  forall c, upper_no_modelo c = true -> P c = true.
Proof.
  intros H c Hc. destruct (N.lt_ge_cases c LIMITE) as [Hl | Hl].
  - pose proof (abaixo_do_limite _ H c Hl) as Hi. cbv beta in Hi.
    now rewrite Hc in Hi.
  - exfalso. revert Hc. unfold upper_no_modelo, latin1.
    acima_do_limite Hl. discriminate.
Qed.

Lemma upper_char_idem (c : char) :
  upper_no_modelo c = true -> flat_map upper_char (upper_char c) = upper_char c.
Proof.
  intros H. apply eqb_str_true. revert c H.
  apply (por_upper_no_modelo
           (fun c => eqb_str (flat_map upper_char (upper_char c)) (upper_char c))).
  vm_compute. reflexivity.
Qed.

Lemma upper_char_no_modelo (c : char) :
  upper_no_modelo c = true -> forallb upper_no_modelo (upper_char c) = true.
Proof.
  revert c.
  apply (por_upper_no_modelo (fun c => forallb upper_no_modelo (upper_char c))).
  vm_compute. reflexivity.
Qed.

Lemma upper_char_borda (c : char) :
  upper_no_modelo c = true ->
  borda_esq (upper_char c) = negb (isspace c) /\
  borda_esq (rev (upper_char c)) = negb (isspace c) /\
  upper_char c <> [].
Proof.
  intros H.
  assert (E : Bool.eqb (borda_esq (upper_char c)) (negb (isspace c)) &&
              Bool.eqb (borda_esq (rev (upper_char c))) (negb (isspace c)) &&
              negb (eqb_str (upper_char c) []) = true).
  { revert c H.
    apply (por_upper_no_modelo
             (fun c => Bool.eqb (borda_esq (upper_char c)) (negb (isspace c)) &&
                       Bool.eqb (borda_esq (rev (upper_char c))) (negb (isspace c)) &&
                       negb (eqb_str (upper_char c) []))).
    vm_compute. reflexivity. }
  apply andb_prop in E as [E E3]. apply andb_prop in E as [E1 E2].
  split; [now apply eqb_prop |]. split; [now apply eqb_prop |].
  apply negb_true_iff, eqb_str_false in E3. exact E3.
Qed.

Lemma upper_no_modelo_latin1 (s : str) :
  forallb upper_no_modelo s = true -> forallb latin1 s = true.
Proof.
  rewrite !forallb_forall. intros H c Hc. specialize (H c Hc).
  unfold upper_no_modelo in H. now apply andb_prop in H.
Qed.

Section CaseFacts.

Variable py_upper : str -> str.

Local Abbreviation maiusculas := (str_upper py_upper).

Lemma str_upper_tabela (s : str) :
  forallb upper_no_modelo s = true -> maiusculas s = flat_map upper_char s.
Proof. intros H. unfold str_upper. now rewrite (upper_no_modelo_latin1 _ H). Qed.

Lemma flat_map_upper_no_modelo (s : str) :
  forallb upper_no_modelo s = true ->
  forallb upper_no_modelo (flat_map upper_char s) = true.
Proof.
  induction s as [| c s IH]; [auto |]. cbn [forallb flat_map]. intros H.
  apply andb_prop in H as [Hc H]. rewrite forallb_app, (upper_char_no_modelo _ Hc).
  now apply IH.
Qed.

Lemma flat_map_upper_idempotent (s : str) :
  forallb upper_no_modelo s = true ->
  flat_map upper_char (flat_map upper_char s) = flat_map upper_char s.
Proof.
  induction s as [| c s IH]; [reflexivity |]. cbn [forallb flat_map]. intros H.
  apply andb_prop in H as [Hc H].
  now rewrite flat_map_app, (IH H), (upper_char_idem _ Hc).
Qed.

Lemma borda_esq_app (a b : str) : a <> [] -> borda_esq (a ++ b) = borda_esq a.
Proof. destruct a; [congruence | reflexivity]. Qed.

Lemma flat_map_upper_borda (t : str) :
  forallb upper_no_modelo t = true ->
  borda_esq (flat_map upper_char t) = borda_esq t.
Proof.
  destruct t as [| c t]; [reflexivity |]. cbn [forallb flat_map]. intros H.
  apply andb_prop in H as [Hc _].
  destruct (upper_char_borda c Hc) as (H1 & _ & H3).
  now rewrite borda_esq_app.
Qed.

Lemma flat_map_upper_rev_borda (t : str) :
  forallb upper_no_modelo t = true ->
  borda_esq (rev (flat_map upper_char t)) = borda_esq (rev t).
Proof.
  destruct t as [| c0 t0] using rev_ind; [reflexivity |]. intros H.
  rewrite forallb_app in H. apply andb_prop in H as [_ Hc].
  cbn [forallb] in Hc. rewrite andb_true_r in Hc.
  rewrite flat_map_app. cbn [flat_map]. rewrite app_nil_r, !rev_app_distr.
  cbn [rev app]. destruct (upper_char_borda c0 Hc) as (_ & H2 & H3).
  rewrite borda_esq_app; [exact H2 |].
  intros E. apply (f_equal (@rev char)) in E. rewrite rev_involutive in E. now apply H3.
Qed.

Lemma flat_map_upper_aparado (t : str) :
  forallb upper_no_modelo t = true -> aparado t -> aparado (flat_map upper_char t).
Proof.
  intros H [H1 H2]. split.
  - now rewrite flat_map_upper_borda.
  - now rewrite flat_map_upper_rev_borda.
Qed.

(** The normalisation of a currency code is idempotent. *)
Lemma normaliza_idempotente (s : str) :
  forallb upper_no_modelo s = true ->
  maiusculas (strip (maiusculas (strip s))) = maiusculas (strip s).
Proof.
  intros H. pose proof (forallb_strip _ _ H) as Hs.
  rewrite (str_upper_tabela _ Hs).
  rewrite (aparado_strip (flat_map upper_char (strip s))).
  - rewrite (str_upper_tabela _ (flat_map_upper_no_modelo _ Hs)).
    now apply flat_map_upper_idempotent.
  - apply flat_map_upper_aparado; [exact Hs | apply strip_aparado].
Qed.

End CaseFacts.

Example cc_http_ex :
  cc_http_fixo (lit " usd") (lit "brl ") =
    (lit "1 USD = 5.0000 BRL (date: 2025-01-02)",
     [lit "https://api.frankfurter.dev/v1/latest?base=USD&symbols=BRL"]) /\
  fst (cc_http_fixo (lit "USD") (lit "EUR")) =
    lit "ERROR: Could not convert USD to EUR: 404 Client Error".
Proof. split; reflexivity. Qed.

Example gci_http_ex :
  gci_http_fixo (lit " Japan ") =
    (lit "Country: Japan" ++ nl ++ lit "Capital: N/A" ++ nl ++
     lit "Population: 125" ++ nl ++ lit "Language: " ++ nl ++
     lit "Currency: N/A" ++ nl ++ lit "Timezone: UTC" ++ nl ++ lit "Area: 0 km2",
     [lit "https://restcountries.com/v3.1/name/Japan"]) /\
  snd (gci_http_fixo (lit "USA")) = [lit "https://restcountries.com/v3.1/alpha/US"] /\
  gci_http_fixo (lit "Bouvet") =
    (lit "Country: Bouvet Island" ++ nl ++ lit "Capital: N/A" ++ nl ++
     lit "Population: 0" ++ nl ++ lit "Language: " ++ nl ++
     lit "Currency: N/A" ++ nl ++ lit "Timezone: UTC" ++ nl ++ lit "Area: 0 km2",
     [lit "https://restcountries.com/v3.1/name/Bouvet";
      lit "https://restcountries.com/v3.1/alpha/BV"]).
Proof. repeat split; reflexivity. Qed.

(** ** [convert_currency] *)

Section ToolFacts.

Variable numero : Type.
Variable numero_zero : numero -> bool.
Variable fmt_4f : numero -> option str.
Variable fmt_milhar : numero -> str.
Variable fmt_area : numero -> option str.
Variable py_str : json numero -> str.
Variable str_erro : erro_py numero -> str.
Variable http_json : str -> resultado numero (json numero).
Variable py_lower : str -> str.
Variable py_upper : str -> str.

Local Abbreviation maiusculas := (str_upper py_upper).
Local Abbreviation minusculas := (str_lower py_lower).
Local Abbreviation cc_http :=
  (convert_currency_http numero fmt_4f str_erro http_json py_upper).
Local Abbreviation converte := (converter numero fmt_4f http_json).
Local Abbreviation relata_cambio := (relato_cambio numero str_erro).
Local Abbreviation gci_http :=
  (get_country_info_http numero numero_zero fmt_milhar fmt_area py_str str_erro
                         http_json py_lower).
Local Abbreviation formata := (_formatar numero numero_zero fmt_milhar fmt_area py_str).
Local Abbreviation busca := (_buscar_por_url numero http_json).
Local Abbreviation relata_pais := (relato_pais numero str_erro).
Local Abbreviation busca_pais :=
  (buscar_pais numero numero_zero fmt_milhar fmt_area py_str http_json py_lower).

Lemma converter_ok (f t s : str) :
  converte f t = Ok s ->
  exists taxa dt,
    s = lit "1 " ++ f ++ lit " = " ++ taxa ++ lit " " ++ t ++
        lit " (date: " ++ dt ++ lit ")".
Proof.
  unfold converter.
  destruct (http_json (url_cambio f t)) as [j | e]; [| discriminate]. cbn [bind].
  destruct (CurrencyResponse_model_validate numero j) as [[dt rs] | e]; [| discriminate].
  cbn [bind snd fst].
  destruct (dict_get numero t rs) as [taxa |]; [| discriminate]. cbn [bind].
  destruct (formatar_numero numero _ fmt_4f _ _ taxa) as [txt | e]; [| discriminate].
  cbn [bind]. intros [= <-]. exists txt, dt. reflexivity.
Qed.

(** X13: whatever the arguments and whatever the service does,
    [convert_currency] makes exactly one request, to the latest-rates URL
    built from the two codes trimmed and upper-cased, and returns either
    the line [1 FROM = rate TO (date: ...)] or, for any failure on the
    way, the line [ERROR: Could not convert FROM to TO: ...] with the
    exception's text (for codes whose capitals stay below code point
    256). *)
Theorem X13_convert_currency_shape (from_code to_code : str) :
  let f := maiusculas (strip from_code) in
  let t := maiusculas (strip to_code) in
  forallb upper_no_modelo from_code = true ->
  forallb upper_no_modelo to_code = true ->
  snd (cc_http from_code to_code) =
    [lit "https://api.frankfurter.dev/v1/latest?base=" ++ f ++ lit "&symbols=" ++ t] /\
  ((exists taxa dt,
      fst (cc_http from_code to_code) =
        lit "1 " ++ f ++ lit " = " ++ taxa ++ lit " " ++ t ++
        lit " (date: " ++ dt ++ lit ")") \/
   (exists e,
      fst (cc_http from_code to_code) =
        lit "ERROR: Could not convert " ++ f ++ lit " to " ++ t ++ lit ": " ++
        texto_erro numero str_erro e)).
Proof.
  intros f t _ _. split; [reflexivity |].
  unfold convert_currency_http. cbn [fst]. fold f t.
  destruct (converte f t) as [s | e] eqn:E.
  - left. apply converter_ok in E as (taxa & dt & ->). exists taxa, dt. reflexivity.
  - right. exists e. reflexivity.
Qed.

(** X14: the codes are normalised before anything else, so letter case
    and surrounding whitespace do not matter: a call behaves exactly as
    the call on the trimmed, upper-cased codes (for codes whose capitals
    stay below code point 256, where [upper] is the table [upper_char]
    and its result is in the table's range again). *)
Theorem X14_convert_currency_normalises (from_code to_code : str) :
  forallb upper_no_modelo from_code = true ->
  forallb upper_no_modelo to_code = true ->
  cc_http from_code to_code =
  cc_http (maiusculas (strip from_code)) (maiusculas (strip to_code)).
Proof.
  intros Hf Ht. unfold convert_currency_http.
  now rewrite !normaliza_idempotente.
Qed.

(** X15: on a body that validates (a str [date] and a dict [rates]) the
    answer depends on nothing but [date] and [rates[TO]]: a number that
    [.4f] can render (or a bool) gives the rate line, a missing key the
    error line of [KeyError(TO)], any other value (an int beyond the
    floats included) the error line of the failed formatting.  Other keys
    of the body, and other rates, are ignored. *)
Theorem X15_convert_currency_valid_body
        (from_code to_code : str) (d rs : list (str * json numero)) (dt : str) :
  let f := maiusculas (strip from_code) in
  let t := maiusculas (strip to_code) in
  forallb upper_no_modelo from_code = true ->
  forallb upper_no_modelo to_code = true ->
  http_json (url_cambio f t) = Ok (JDict d) ->
  dict_get numero (lit "date") d = Some (JStr dt) ->
  dict_get numero (lit "rates") d = Some (JDict rs) ->
  fst (cc_http from_code to_code) =
    match dict_get numero t rs with
    | None =>
        lit "ERROR: Could not convert " ++ f ++ lit " to " ++ t ++ lit ": " ++
        str_erro (ErroChave t)
    | Some (JNum n) =>
        match fmt_4f n with
        | Some taxa =>
            lit "1 " ++ f ++ lit " = " ++ taxa ++ lit " " ++ t ++
            lit " (date: " ++ dt ++ lit ")"
        | None =>
            lit "ERROR: Could not convert " ++ f ++ lit " to " ++ t ++ lit ": " ++
            str_erro (ErroFormato numero (lit ".4f") (JNum n))
        end
    | Some (JBool b) =>
        lit "1 " ++ f ++ lit " = " ++ (if b then lit "1.0000" else lit "0.0000") ++
        lit " " ++ t ++ lit " (date: " ++ dt ++ lit ")"
    | Some v =>
        lit "ERROR: Could not convert " ++ f ++ lit " to " ++ t ++ lit ": " ++
        str_erro (ErroFormato numero (lit ".4f") v)
    end.
Proof.
  intros f t _ _ Hh Hd Hr.
  unfold convert_currency_http. cbn [fst]. fold f t.
  unfold converter. rewrite Hh. cbn [bind].
  unfold CurrencyResponse_model_validate. rewrite Hd, Hr. cbn [bind snd fst].
  destruct (dict_get numero t rs) as [v |]; [| reflexivity]. cbn [bind].
  destruct v as [| [] | n | s | l | d']; try reflexivity.
  cbn [formatar_numero]. now destruct (fmt_4f n).
Qed.

(** ** [get_country_info] *)

(** X16: the four names of [FALLBACK_ISO] are recognised whatever their
    letter case and surrounding whitespace, and are looked up by ISO code
    only: for [united states] and [usa] the single request goes to
    [alpha/US], for [uk] and [united kingdom] to [alpha/GB]; the name
    endpoint is not used. *)
Theorem X16_country_aliases_by_code (country_name : str) :
  (In (minusculas (strip country_name)) [lit "united states"; lit "usa"] ->
   snd (gci_http country_name) = [lit "https://restcountries.com/v3.1/alpha/US"]) /\
  (In (minusculas (strip country_name)) [lit "uk"; lit "united kingdom"] ->
   snd (gci_http country_name) = [lit "https://restcountries.com/v3.1/alpha/GB"]).
Proof.
  unfold get_country_info_http, buscar_pais. cbn [snd].
  split; intros H.
  - assert (E : tabela_get (minusculas (strip country_name)) FALLBACK_ISO = Some (lit "US")).
    { destruct H as [<- | [<- | []]]; reflexivity. }
    rewrite E. reflexivity.
  - assert (E : tabela_get (minusculas (strip country_name)) FALLBACK_ISO = Some (lit "GB")).
    { destruct H as [<- | [<- | []]]; reflexivity. }
    rewrite E. reflexivity.
Qed.

Lemma buscar_pais_forma (n : str) :
  ((exists iso,
      tabela_get (minusculas n) FALLBACK_ISO = Some iso /\
      snd (busca_pais n) = [URL_PAISES ++ lit "alpha/" ++ iso]) \/
   (tabela_get (minusculas n) FALLBACK_ISO = None /\
    (snd (busca_pais n) = [URL_PAISES ++ lit "name/" ++ n] \/
     exists alpha,
       snd (busca_pais n) =
         [URL_PAISES ++ lit "name/" ++ n; URL_PAISES ++ lit "alpha/" ++ alpha]))) /\
  ((exists data, fst (busca_pais n) = formata data) \/
   (exists e, fst (busca_pais n) = Raise e)).
Proof.
  unfold buscar_pais.
  destruct (tabela_get (minusculas n) FALLBACK_ISO) as [iso |].
  - split; [left; eauto |]. cbn [fst].
    destruct (busca (URL_PAISES ++ lit "alpha/" ++ iso)) as [data | e]; cbn [bind]; eauto.
  - assert (Hfim : forall r urls,
               (urls = [URL_PAISES ++ lit "name/" ++ n] \/
                exists alpha, urls = [URL_PAISES ++ lit "name/" ++ n;
                                      URL_PAISES ++ lit "alpha/" ++ alpha]) ->
               ((exists data, r = formata data) \/ (exists e, r = Raise e)) ->
               ((exists iso, @None str = Some iso /\
                             snd (r, urls) = [URL_PAISES ++ lit "alpha/" ++ iso]) \/
                (@None str = None /\
                 (snd (r, urls) = [URL_PAISES ++ lit "name/" ++ n] \/
                  exists alpha,
                    snd (r, urls) = [URL_PAISES ++ lit "name/" ++ n;
                                     URL_PAISES ++ lit "alpha/" ++ alpha]))) /\
               ((exists data, fst (r, urls) = formata data) \/
                (exists e, fst (r, urls) = Raise e))).
    { intros r urls Hu Hr. split; [right; split; [reflexivity | exact Hu] | exact Hr]. }
    destruct (busca (URL_PAISES ++ lit "name/" ++ n)) as [data | e];
      [| apply Hfim; eauto].
    destruct (populacao_zero numero numero_zero data) as [[] | e];
      [| apply Hfim; eauto | apply Hfim; eauto].
    destruct (metodo_get numero data (lit "cca2") (JStr [])) as [alpha | e];
      [| apply Hfim; eauto].
    destruct (truthy_json numero numero_zero alpha); [| apply Hfim; eauto].
    destruct (busca (URL_PAISES ++ lit "alpha/" ++ fstr numero py_str alpha))
      as [data2 | e]; apply Hfim; eauto.
Qed.

(** X17: [get_country_info] makes one request or two and never raises.
    A name of [FALLBACK_ISO] costs one request by code; any other name is
    first looked up under [name/] with the name trimmed but otherwise as
    given, optionally followed by one request by code.  The result is
    what [_formatar] made of some response, or, for any failure, the line
    [ERROR: Could not fetch data for <trimmed name>: ...]. *)
Theorem X17_get_country_info_shape (country_name : str) :
  let n := strip country_name in
  ((exists iso,
      tabela_get (minusculas n) FALLBACK_ISO = Some iso /\
      snd (gci_http country_name) = [URL_PAISES ++ lit "alpha/" ++ iso]) \/
   (tabela_get (minusculas n) FALLBACK_ISO = None /\
    (snd (gci_http country_name) = [URL_PAISES ++ lit "name/" ++ n] \/
     exists alpha,
       snd (gci_http country_name) =
         [URL_PAISES ++ lit "name/" ++ n; URL_PAISES ++ lit "alpha/" ++ alpha]))) /\
  ((exists data, formata data = Ok (fst (gci_http country_name))) \/
   (exists e,
      fst (gci_http country_name) =
        lit "ERROR: Could not fetch data for " ++ n ++ lit ": " ++
        texto_erro numero str_erro e)).
Proof.
  intros n. unfold get_country_info_http. cbn [fst snd]. fold n.
  destruct (buscar_pais_forma n) as (Hu & Hr). split; [exact Hu |].
  destruct Hr as [(data & ->) | (e & ->)].
  - destruct (formata data) as [s | e] eqn:E.
    + left. exists data. exact E.
    + right. exists e. reflexivity.
  - right. exists e. reflexivity.
Qed.

(** X18: the territory fallback.  When the lookup by name gives a
    record whose population is 0 (or absent) and whose [cca2] is truthy,
    a second request is made by that code; its first result replaces the
    record if the request succeeds, and if it fails in any way the failure
    is dropped and the record found by name is formatted. *)
Theorem X18_territory_fallback
        (country_name : str) (data alpha : json numero) :
  let n := strip country_name in
  let url := URL_PAISES ++ lit "name/" ++ n in
  let url2 := URL_PAISES ++ lit "alpha/" ++ fstr numero py_str alpha in
  tabela_get (minusculas n) FALLBACK_ISO = None ->
  busca url = Ok data ->
  populacao_zero numero numero_zero data = Ok true ->
  metodo_get numero data (lit "cca2") (JStr []) = Ok alpha ->
  truthy_json numero numero_zero alpha = true ->
  gci_http country_name =
    (relata_pais n (formata (match busca url2 with
                             | Ok data2 => data2
                             | Raise _ => data
                             end)),
     [url; url2]).
Proof.
  intros n url url2 Ht Hb Hz Ha Hy.
  unfold get_country_info_http, buscar_pais. fold n. rewrite Ht.
  fold url. rewrite Hb, Hz, Ha, Hy. fold url2.
  now destruct (busca url2).
Qed.

(** X19: [_formatar] fills in what a record leaves out.  With no (or an
    empty) capital and currencies entry, and no languages, timezones and
    area, a record with a name and a numeric population is rendered with
    [N/A] for capital and currency, an empty language list, [UTC] and an
    area of 0. *)
Theorem X19_formatar_defaults
        (d dn : list (str * json numero)) (nm : str) (p : numero) :
  truthy_json numero numero_zero
    (match dict_get numero (lit "capital") d with Some x => x | None => JNull end) = false ->
  truthy_json numero numero_zero
    (match dict_get numero (lit "currencies") d with Some x => x | None => JDict [] end)
    = false ->
  dict_get numero (lit "languages") d = None ->
  dict_get numero (lit "timezones") d = None ->
  dict_get numero (lit "area") d = None ->
  dict_get numero (lit "population") d = Some (JNum p) ->
  dict_get numero (lit "name") d = Some (JDict dn) ->
  dict_get numero (lit "common") dn = Some (JStr nm) ->
  formata (JDict d) =
    Ok (lit "Country: " ++ nm ++ nl ++
        lit "Capital: N/A" ++ nl ++
        lit "Population: " ++ fmt_milhar p ++ nl ++
        lit "Language: " ++ nl ++
        lit "Currency: N/A" ++ nl ++
        lit "Timezone: UTC" ++ nl ++
        lit "Area: 0 km2").
Proof.
  intros Hc Hm Hl Ht Ha Hp Hn Hcm.
  unfold _formatar, metodo_get, subscrito.
  cbn [bind]. rewrite Hc. cbn [bind].
  rewrite Hp. cbn [bind formatar_numero].
  rewrite Hl. cbn [bind map juntar].
  rewrite Hm. cbn [bind].
  rewrite Ht. cbn [bind index0].
  rewrite Ha. cbn [bind].
  rewrite Hn. cbn [bind]. rewrite Hcm. cbn [bind fstr].
  reflexivity.
Qed.

(** X20: what [_formatar] cannot do without.  Anything that is not a
    dict fails at once on [.get]; a dict with no (or an empty) capital and
    no population fails with [KeyError('population')].  [get_country_info]
    turns either into its error line. *)
Theorem X20_formatar_required (data : json numero) :
  (match data with JDict _ => False | _ => True end ->
   formata data = Raise (ErroAtributo numero data (lit "get"))) /\
  (forall d,
     data = JDict d ->
     truthy_json numero numero_zero
       (match dict_get numero (lit "capital") d with Some x => x | None => JNull end)
       = false ->
     dict_get numero (lit "population") d = None ->
     formata data = Raise (ErroChave (lit "population")) /\
     forall n,
       relata_pais n (formata data) =
         lit "ERROR: Could not fetch data for " ++ n ++ lit ": " ++
         str_erro (ErroChave (lit "population"))).
Proof.
  split.
  - intros H. destruct data; try reflexivity. destruct H.
  - intros d -> Hc Hp.
    assert (E : formata (JDict d) = Raise (ErroChave (lit "population"))).
    { unfold _formatar, metodo_get, subscrito.
      cbn [bind]. rewrite Hc. cbn [bind]. rewrite Hp. reflexivity. }
    split; [exact E |]. intros n. rewrite E. reflexivity.
Qed.

End ToolFacts.

(** ** The tools behind the dispatch *)

Lemma split_sem_sep (sep : char) (s : str) :
  count_occ N.eq_dec s sep = 0%nat -> split sep s = [s].
Proof.
  induction s as [| c s IH]; [reflexivity |]. simpl.
  destruct (N.eq_dec c sep) as [-> | N]; [discriminate |].
  intros H. destruct (N.eqb_spec c sep); [congruence |].
  now rewrite (IH H).
Qed.

Lemma split_app_sep (sep : char) (a b : str) :
  count_occ N.eq_dec a sep = 0%nat ->
  split sep (a ++ sep :: b) = a :: split sep b.
Proof.
  induction a as [| c a IH]; simpl.
  - intros _. now rewrite N.eqb_refl.
  - destruct (N.eq_dec c sep) as [-> | N]; [discriminate |].
    intros H. destruct (N.eqb_spec c sep); [congruence |].
    now rewrite (IH H).
Qed.

Section ToolsInLoop.

Variable numero : Type.
Variable numero_zero : numero -> bool.
Variable fmt_4f : numero -> option str.
Variable fmt_milhar : numero -> str.
Variable fmt_area : numero -> option str.
Variable py_str : json numero -> str.
Variable str_erro : erro_py numero -> str.
Variable http_json : str -> resultado numero (json numero).
Variable py_lower : str -> str.
Variable py_upper : str -> str.

Local Abbreviation cc_http :=
  (convert_currency_http numero fmt_4f str_erro http_json py_upper).
Local Abbreviation gci_http :=
  (get_country_info_http numero numero_zero fmt_milhar fmt_area py_str str_erro
                         http_json py_lower).
Local Abbreviation despacha_http :=
  (despachar (fun a => Retorna (fst (gci_http a)))
             (fun a b => Retorna (fst (cc_http a b)))).

(** X21: the dispatch and the tools trim the same text twice, to the
    same effect.  With the two tools of agent.py behind the registry, the
    observation for [get_country_info] is what the tool returns for the
    argument, and for [convert_currency] on [a,b] (one comma) it is what
    the tool returns for [a] and [b] as written: the trimming done by the
    loop changes neither the result nor the URL requested (for codes
    whose capitals stay below code point 256). *)
Theorem X21_dispatch_through_tools (arg a b : str) :
  forallb upper_no_modelo a = true ->
  forallb upper_no_modelo b = true ->
  count_occ N.eq_dec a (cp ",") = 0%nat ->
  count_occ N.eq_dec b (cp ",") = 0%nat ->
  despacha_http (lit "get_country_info") arg =
    (fst (gci_http arg), [EvTool (lit "get_country_info") [arg]]) /\
  gci_http (strip arg) = gci_http arg /\
  despacha_http (lit "convert_currency") (a ++ (cp ",") :: b) =
    (fst (cc_http a b), [EvTool (lit "convert_currency") [strip a; strip b]]) /\
  cc_http (strip a) (strip b) = cc_http a b.
Proof.
  intros _ _ Ha Hb.
  assert (Hcc : cc_http (strip a) (strip b) = cc_http a b).
  { unfold convert_currency_http. now rewrite !strip_idempotent. }
  split; [reflexivity |]. split.
  - unfold get_country_info_http. now rewrite strip_idempotent.
  - split; [| exact Hcc].
    unfold despachar. cbn [registry_get FERRAMENTAS].
    change (eqb_str (lit "convert_currency") (lit "get_country_info")) with false.
    change (eqb_str (lit "convert_currency") (lit "convert_currency")) with true.
    cbv iota. rewrite (split_app_sep _ _ _ Ha), (split_sem_sep _ _ Hb).
    cbn [map length Nat.eqb chamar observar]. now rewrite Hcc.
Qed.

End ToolsInLoop.

(** ** The tools on concrete calls *)

Lemma X14_convert_currency_normalises_witness :
  forallb upper_no_modelo (lit " usd") = true /\
  forallb upper_no_modelo (lit "brl ") = true /\
  convert_currency_http Z fmt_4f_fixo str_erro_fixo http_fixo py_caso_fixo (lit " usd") (lit "brl ") =
  convert_currency_http Z fmt_4f_fixo str_erro_fixo http_fixo py_caso_fixo
    (str_upper py_caso_fixo (strip (lit " usd"))) (str_upper py_caso_fixo (strip (lit "brl "))).
Proof.
  split; [reflexivity |]. split; [reflexivity |].
  apply (X14_convert_currency_normalises Z fmt_4f_fixo str_erro_fixo http_fixo py_caso_fixo
           (lit " usd") (lit "brl ")); reflexivity.
Defined.

Lemma X13_convert_currency_shape_witness :
  forallb upper_no_modelo (lit " usd") = true /\
  forallb upper_no_modelo (lit "xxx") = true /\
  snd (convert_currency_http Z fmt_4f_fixo str_erro_fixo http_fixo py_caso_fixo (lit " usd") (lit "xxx")) =
    [lit "https://api.frankfurter.dev/v1/latest?base=USD&symbols=XXX"].
Proof.
  split; [reflexivity |]. split; [reflexivity |].
  exact (proj1 (X13_convert_currency_shape Z fmt_4f_fixo str_erro_fixo http_fixo py_caso_fixo
                  (lit " usd") (lit "xxx") eq_refl eq_refl)).
Defined.

Lemma X15_convert_currency_valid_body_witness :
  forallb upper_no_modelo (lit " usd") = true /\
  forallb upper_no_modelo (lit "brl ") = true /\
  http_fixo (url_cambio (str_upper py_caso_fixo (strip (lit " usd"))) (str_upper py_caso_fixo (strip (lit "brl "))))
    = Ok corpo_cambio /\
  fst (convert_currency_http Z fmt_4f_fixo str_erro_fixo http_fixo py_caso_fixo (lit " usd") (lit "brl "))
    = lit "1 USD = 5.0000 BRL (date: 2025-01-02)".
Proof.
  split; [reflexivity |]. split; [reflexivity |]. split; [reflexivity |].
  exact (X15_convert_currency_valid_body Z fmt_4f_fixo str_erro_fixo http_fixo py_caso_fixo
           (lit " usd") (lit "brl ")
           [ (lit "amount", JNum 1%Z); (lit "base", JStr (lit "USD"));
             (lit "date", JStr (lit "2025-01-02"));
             (lit "rates", JDict [(lit "BRL", JNum 5%Z)]) ]
           [(lit "BRL", JNum 5%Z)] (lit "2025-01-02")
           eq_refl eq_refl eq_refl eq_refl eq_refl).
Defined.

Lemma X18_territory_fallback_witness :
  _buscar_por_url Z http_fixo (URL_PAISES ++ lit "name/" ++ strip (lit " Bouvet"))
    = Ok corpo_territorio /\
  _buscar_por_url Z http_fixo (URL_PAISES ++ lit "alpha/" ++ lit "BV")
    = Raise (ErroHTTP (lit "404 Client Error")) /\
  gci_http_fixo (lit " Bouvet") =
    (relato_pais Z str_erro_fixo (lit "Bouvet")
       (_formatar Z (Z.eqb 0) str_of_int fmt_area_fixo (fun _ => lit "?") corpo_territorio),
     [lit "https://restcountries.com/v3.1/name/Bouvet";
      lit "https://restcountries.com/v3.1/alpha/BV"]).
Proof.
  split; [reflexivity |]. split; [reflexivity |].
  exact (X18_territory_fallback Z (Z.eqb 0) str_of_int fmt_area_fixo (fun _ => lit "?")
           str_erro_fixo http_fixo py_caso_fixo (lit " Bouvet") corpo_territorio (JStr (lit "BV"))
           eq_refl eq_refl eq_refl eq_refl eq_refl).
Defined.

Lemma X19_formatar_defaults_witness :
  _formatar Z (Z.eqb 0) str_of_int fmt_area_fixo (fun _ => lit "?") corpo_minimo =
    Ok (lit "Country: " ++ lit "Japan" ++ nl ++
        lit "Capital: N/A" ++ nl ++
        lit "Population: " ++ str_of_int 125 ++ nl ++
        lit "Language: " ++ nl ++
        lit "Currency: N/A" ++ nl ++
        lit "Timezone: UTC" ++ nl ++
        lit "Area: 0 km2").
Proof.
  exact (X19_formatar_defaults Z (Z.eqb 0) str_of_int fmt_area_fixo (fun _ => lit "?")
           [ (lit "name", JDict [(lit "common", JStr (lit "Japan"))]);
             (lit "population", JNum 125%Z) ]
           [(lit "common", JStr (lit "Japan"))] (lit "Japan") 125%Z
           eq_refl eq_refl eq_refl eq_refl eq_refl eq_refl eq_refl eq_refl).
Defined.

Lemma X21_dispatch_through_tools_witness :
  forallb upper_no_modelo (lit " usd ") = true /\
  forallb upper_no_modelo (lit " brl") = true /\
  count_occ N.eq_dec (lit " usd ") (cp ",") = 0%nat /\
  count_occ N.eq_dec (lit " brl") (cp ",") = 0%nat /\
  despachar (fun a => Retorna (fst (gci_http_fixo a)))
            (fun a b => Retorna (fst (cc_http_fixo a b)))
            (lit "convert_currency") (lit " usd " ++ (cp ",") :: lit " brl") =
    (fst (cc_http_fixo (lit " usd ") (lit " brl")),
     [EvTool (lit "convert_currency") [strip (lit " usd "); strip (lit " brl")]]).
Proof.
  split; [reflexivity |]. split; [reflexivity |].
  split; [reflexivity |]. split; [reflexivity |].
  exact (proj1 (proj2 (proj2
    (X21_dispatch_through_tools Z (Z.eqb 0) fmt_4f_fixo str_of_int fmt_area_fixo
       (fun _ => lit "?") str_erro_fixo http_fixo py_caso_fixo py_caso_fixo
       (lit " Japan ") (lit " usd ") (lit " brl")
       eq_refl eq_refl eq_refl eq_refl)))).
Defined.
